(** * Solana deployment-time CLI: a shallow embedding of its three services

    The development embeds, function by function,
    - [src/services/rpc-service.ts]     (module [Rpc]),
    - [src/services/cache-service.ts]   (module [Cache]),
    - [src/services/program-service.ts] (module [Program]),
    and states the properties of the specification over these definitions.

    Modelling conventions.
    - JavaScript numbers that the code uses as integers (slots, epoch
      milliseconds, priorities) are [Z]; array indices and counters are [nat].
    - A method is a function in a state-and-exception monad [M S A]: a
      [throw] keeps the state reached so far, as a JavaScript exception keeps
      the mutations done before it.
    - Everything outside the process is an oracle collected in [Env]: the
      clock, the RPC server, storage faults, the JSON codec and the base58
      check of [PublicKey]. An oracle is indexed by the position of the
      request in the history, so that an endpoint may answer differently
      each time it is asked. The history itself ([trace]) is part of the
      [World]: it lists every network request and every mutating storage
      call, in order.
    - [console.log] / [console.error] output and the [verbose] flag that only
      guards such output are not modelled. *)

From Stdlib Require Import ZArith Lia Ascii String Sorted Permutation.
From stdpp Require Import base strings list gmap pretty.

(** ** JavaScript values and helpers *)

Module Js.

(** What a [throw] carries: an [Error] object (identified by its message; the
    code never subclasses [Error] nor sets a code on it), or any other value. *)
Inductive Thrown : Type :=
| Error (message : string)
| NonError (value : string).

Inductive Result (A : Type) : Type :=
| Ok (a : A)
| Throw (e : Thrown).
Arguments Ok {A} a.
Arguments Throw {A} e.

Definition is_ok {A} (r : Result A) : bool :=
  match r with Ok _ => true | Throw _ => false end.

(** [error instanceof Error ? error : new Error('Unknown error')] *)
Definition as_Error (e : Thrown) : Thrown :=
  match e with
  | Error m => Error m
  | NonError _ => Error "Unknown error"
  end.

Definition message (e : Thrown) : option string :=
  match e with Error m => Some m | NonError _ => None end.

(** [String.prototype.includes] *)
Fixpoint includes (s needle : string) : bool :=
  if String.prefix needle s then true
  else match s with
       | EmptyString => false
       | String _ s' => includes s' needle
       end.

(** [String.prototype.split] with a one-character separator. *)
Fixpoint split (sep : ascii) (s : string) : list string :=
  match s with
  | EmptyString => [EmptyString]
  | String a s' =>
      if Ascii.eqb a sep then EmptyString :: split sep s'
      else match split sep s' with
           | h :: t => String a h :: t
           | [] => [String a EmptyString]
           end
  end.

(** Strings hold the UTF-8 encoding of the JavaScript string. The code point
    that a sequence of one, two or three bytes encodes, if it is the
    encoding of one (sequences of four bytes encode the code points from
    U+10000 on, none of which is white space). *)
Definition continuation (a : ascii) : option N :=
  let n := N_of_ascii a in
  if ((128 <=? n) && (n <? 192))%N then Some (n - 128)%N else None.

Definition code_point1 (a : ascii) : option N :=
  let n := N_of_ascii a in
  if (n <? 128)%N then Some n else None.

Definition code_point2 (a b : ascii) : option N :=
  let n := N_of_ascii a in
  match continuation b with
  | Some y =>
      let cp := ((n - 192) * 64 + y)%N in
      if ((192 <=? n) && (n <? 224) && (0x80 <=? cp))%N then Some cp else None
  | None => None
  end.

Definition code_point3 (a b c : ascii) : option N :=
  let n := N_of_ascii a in
  match continuation b, continuation c with
  | Some y, Some z =>
      let cp := ((n - 224) * 4096 + y * 64 + z)%N in
      if ((224 <=? n) && (n <? 240) && (0x800 <=? cp))%N then Some cp else None
  | _, _ => None
  end.

(** The code points that [String.prototype.trim] strips: WhiteSpace (TAB, VT,
    FF, ZWNBSP and the Unicode space separators) and LineTerminator (LF, CR,
    LS, PS) of ECMA-262. *)
Definition white_space_code_points : list N :=
  [0x9; 0xB; 0xC; 0xFEFF;
   0x20; 0xA0; 0x1680; 0x2000; 0x2001; 0x2002; 0x2003; 0x2004; 0x2005; 0x2006;
   0x2007; 0x2008; 0x2009; 0x200A; 0x202F; 0x205F; 0x3000;
   0xA; 0xD; 0x2028; 0x2029]%N.

Definition is_white_space (cp : option N) : bool :=
  match cp with
  | Some n => bool_decide (n ∈ white_space_code_points)
  | None => false
  end.

(** Stripping of the leading white space, for a string read in the order
    given by [enc2] and [enc3]: forwards for [trimStart], and backwards, on
    the reversed string, for [trimEnd]. *)
Fixpoint strip_white_space (enc2 : ascii → ascii → option N)
    (enc3 : ascii → ascii → ascii → option N) (s : string) : string :=
  match s with
  | EmptyString => s
  | String a s1 =>
      if is_white_space (code_point1 a) then strip_white_space enc2 enc3 s1
      else match s1 with
           | EmptyString => s
           | String b s2 =>
               if is_white_space (enc2 a b) then strip_white_space enc2 enc3 s2
               else match s2 with
                    | EmptyString => s
                    | String c s3 =>
                        if is_white_space (enc3 a b c)
                        then strip_white_space enc2 enc3 s3
                        else s
                    end
           end
  end.

Definition trimStart (s : string) : string :=
  strip_white_space code_point2 code_point3 s.

Definition trimEnd (s : string) : string :=
  String.rev (strip_white_space (λ b a, code_point2 a b) (λ c b a, code_point3 a b c)
                                (String.rev s)).

(** [String.prototype.trim] *)
Definition trim (s : string) : string := trimEnd (trimStart s).

(** Truthiness of a string: [""] is falsy. *)
Definition truthy (s : string) : bool := negb (String.eqb s "").

(** Truthiness of [string | undefined]. *)
Definition truthy_opt (o : option string) : bool :=
  match o with Some s => truthy s | None => false end.

(** [x || 0] on a number. *)
Definition or0 (x : Z) : Z := if (x =? 0)%Z then 0%Z else x.

(** [x || 0] on [number | null | undefined]. *)
Definition or0_opt (x : option Z) : Z :=
  match x with Some v => or0 v | None => 0%Z end.

(** [Array.prototype.sort((a, b) => key(a) - key(b))]. The sort is stable
    (ECMAScript 2019), and a stable sort by a total preorder has one result:
    insertion from the right, placing an element before the first one whose
    key is not smaller. *)
Section Sort.
Context {A : Type} (key : A → Z).

Fixpoint sort_insert (x : A) (l : list A) : list A :=
  match l with
  | [] => [x]
  | y :: l' => if (key x <=? key y)%Z then x :: y :: l' else y :: sort_insert x l'
  end.

Fixpoint sort_by (l : list A) : list A :=
  match l with
  | [] => []
  | x :: l' => sort_insert x (sort_by l')
  end.
End Sort.

(** [new Map(entries)]: later entries overwrite earlier ones. *)
Definition new_Map {V} (entries : list (string * V)) : gmap string V :=
  fold_left (λ m kv, <[kv.1 := kv.2]> m) entries ∅.

End Js.
Export Js.

(** ** The state-and-exception monad *)

Definition M (S A : Type) : Type := S → Result A * S.

Definition ret {S A} (a : A) : M S A := λ s, (Ok a, s).
Definition throw {S A} (e : Thrown) : M S A := λ s, (Throw e, s).
Definition bind {S A B} (m : M S A) (k : A → M S B) : M S B :=
  λ s, match m s with
       | (Ok a, s') => k a s'
       | (Throw e, s') => (Throw e, s')
       end.
Definition try_catch {S A} (m : M S A) (handler : Thrown → M S A) : M S A :=
  λ s, match m s with
       | (Ok a, s') => (Ok a, s')
       | (Throw e, s') => handler e s'
       end.
Definition gets {S A} (f : S → A) : M S A := λ s, (Ok (f s), s).
Definition modify {S} (f : S → S) : M S unit := λ s, (Ok tt, f s).

(** Run a computation on the second component of a pair state. *)
Definition on_snd {X S A} (m : M S A) : M (X * S) A :=
  λ xs, let '(r, s') := m xs.2 in (r, (xs.1, s')).

Declare Scope js_scope.
Delimit Scope js_scope with js.
Notation "x <~ m ;; k" := (bind m (λ x, k))
  (at level 100, m at next level, right associativity) : js_scope.
Notation "m ;;; k" := (bind m (λ _, k))
  (at level 100, right associativity) : js_scope.
Open Scope js_scope.

(** ** The world outside the process *)

(** The interface types of [@solana/web3.js] that the code reads. *)
Module Web3.

Record Connection := { rpcEndpoint : string }.

(** [new Connection(url, 'confirmed')]. The constructor opens no socket; it
    rejects a URL that is not [http:] or [https:], and the URLs of the
    configuration are taken to be such. *)
Definition new_Connection (url : string) : Connection := {| rpcEndpoint := url |}.

Record AccountInfo := {
  owner : string;
  (** [(data as any).parsed?.info?.programData] *)
  parsed_info_programData : option string
}.

Record ConfirmedSignatureInfo := {
  signature : string;
  slot : Z;
  blockTime : option Z
}.

Record TransactionMeta := { logMessages : option (list string) }.
Record ParsedTransaction := { meta : option TransactionMeta }.

End Web3.

(** [cache-service.ts], [interface CacheEntry] *)
Module Entry.

Record CacheEntry := {
  programId : string;
  deploymentSignature : string;
  deploymentSlot : Z;
  deploymentTimestamp : Z;
  lastChecked : Z;
  isProgramData : option bool;
  programDataAccount : option string
}.

End Entry.

Inductive Event : Type :=
| GetSlot (url : string)
| GetParsedAccountInfo (url address : string)
| GetSignaturesForAddress (url address : string)
| GetParsedTransaction (url sig : string)
| MkdirSync
| ReadFileSync
| WriteFileSync (data : string)
| UnlinkSync
| RmdirSync.

Definition is_network (ev : Event) : bool :=
  match ev with
  | GetSlot _ | GetParsedAccountInfo _ _
  | GetSignaturesForAddress _ _ | GetParsedTransaction _ _ => true
  | _ => false
  end.

(** The cache directory and the one file the program keeps in it. *)
Record Disk := { dirExists : bool; fileContent : option string }.

Record World := {
  ticks : nat;          (** number of [Date.now()] reads so far *)
  trace : list Event;   (** requests so far, oldest first *)
  disk : Disk
}.

Record Env := {
  (** value of the [n]-th read of the clock *)
  Date_now : nat → Z;
  (** answers of the RPC server to the request at position [n] of the trace,
      sent to [url] *)
  rpc_getSlot : nat → string → Result Z;
  rpc_getParsedAccountInfo : nat → string → string → Result (option Web3.AccountInfo);
  rpc_getSignaturesForAddress :
    nat → string → string → Result (list Web3.ConfirmedSignatureInfo);
  rpc_getParsedTransaction :
    nat → string → string → Result (option Web3.ParsedTransaction);
  (** a storage call at position [n] of the trace fails with this *)
  fs_fault : nat → option Thrown;
  (** [Object.entries(JSON.parse(data))], as the code types it *)
  JSON_parse_entries : string → Result (list (string * Entry.CacheEntry));
  (** [JSON.stringify(Object.fromEntries(cache), null, 2)] *)
  JSON_stringify : gmap string Entry.CacheEntry → string;
  (** the exception of [new PublicKey(s)], if [s] is not an address *)
  PublicKey_error : string → option Thrown
}.

Definition set_ticks (n : nat) (w : World) : World :=
  {| ticks := n; trace := trace w; disk := disk w |}.
Definition set_trace (t : list Event) (w : World) : World :=
  {| ticks := ticks w; trace := t; disk := disk w |}.
Definition set_disk (d : Disk) (w : World) : World :=
  {| ticks := ticks w; trace := trace w; disk := d |}.
Definition log_event (ev : Event) (w : World) : World :=
  set_trace (trace w ++ [ev]) w.

Definition network_requests (w : World) : list Event :=
  filter (λ ev, is_network ev = true) (trace w).

(** ** Primitive operations on the world *)

Section Primitives.
Context (env : Env).

(** [Date.now()] *)
Definition now : M World Z :=
  λ w, (Ok (Date_now env (ticks w)), set_ticks (S (ticks w)) w).

(** A network request: it is logged, and the server's answer at this
    position of the history is returned or thrown. *)
Definition request {A} (ev : Event) (answer : nat → Result A) : M World A :=
  λ w, (answer (length (trace w)), log_event ev w).

(** [connection.getSlot()] *)
Definition getSlot (c : Web3.Connection) : M World Z :=
  request (GetSlot (Web3.rpcEndpoint c))
          (λ n, rpc_getSlot env n (Web3.rpcEndpoint c)).

(** [connection.getParsedAccountInfo(address)], the [value] of the answer *)
Definition getParsedAccountInfo (c : Web3.Connection) (address : string)
  : M World (option Web3.AccountInfo) :=
  request (GetParsedAccountInfo (Web3.rpcEndpoint c) address)
          (λ n, rpc_getParsedAccountInfo env n (Web3.rpcEndpoint c) address).

(** [connection.getSignaturesForAddress(address)] *)
Definition getSignaturesForAddress (c : Web3.Connection) (address : string)
  : M World (list Web3.ConfirmedSignatureInfo) :=
  request (GetSignaturesForAddress (Web3.rpcEndpoint c) address)
          (λ n, rpc_getSignaturesForAddress env n (Web3.rpcEndpoint c) address).

(** [connection.getParsedTransaction(signature, ...)] *)
Definition getParsedTransaction (c : Web3.Connection) (sig : string)
  : M World (option Web3.ParsedTransaction) :=
  request (GetParsedTransaction (Web3.rpcEndpoint c) sig)
          (λ n, rpc_getParsedTransaction env n (Web3.rpcEndpoint c) sig).

(** [new PublicKey(s)]: the address itself, or an exception. *)
Definition new_PublicKey {S} (s : string) : M S string :=
  match PublicKey_error env s with
  | None => ret s
  | Some e => throw e
  end.

(** A mutating storage call: it is logged; it fails if the environment
    says so, and otherwise changes the disk. *)
Definition storage {A} (ev : Event) (run : Disk → Result A * Disk) : M World A :=
  λ w, match fs_fault env (length (trace w)) with
       | Some e => (Throw e, log_event ev w)
       | None => let '(r, d) := run (disk w) in (r, set_disk d (log_event ev w))
       end.

(** [fs.existsSync(this.cacheDir)], [fs.existsSync(this.cacheFile)] *)
Definition existsSync_dir : M World bool := gets (λ w, dirExists (disk w)).
Definition existsSync_file : M World bool :=
  gets (λ w, bool_decide (is_Some (fileContent (disk w)))).

(** [fs.mkdirSync(this.cacheDir, { recursive: true })] *)
Definition mkdirSync : M World unit :=
  storage MkdirSync
    (λ d, (Ok tt, {| dirExists := true; fileContent := fileContent d |})).

(** [fs.readFileSync(this.cacheFile, 'utf8')] *)
Definition readFileSync : M World string :=
  storage ReadFileSync
    (λ d, match fileContent d with
          | Some data => (Ok data, d)
          | None => (Throw (Error "ENOENT: no such file or directory"), d)
          end).

(** [fs.writeFileSync(this.cacheFile, data, 'utf8')] *)
Definition writeFileSync (data : string) : M World unit :=
  storage (WriteFileSync data)
    (λ d, if dirExists d
          then (Ok tt, {| dirExists := true; fileContent := Some data |})
          else (Throw (Error "ENOENT: no such file or directory"), d)).

(** [fs.unlinkSync(this.cacheFile)] *)
Definition unlinkSync : M World unit :=
  storage UnlinkSync
    (λ d, match fileContent d with
          | Some _ => (Ok tt, {| dirExists := dirExists d; fileContent := None |})
          | None => (Throw (Error "ENOENT: no such file or directory"), d)
          end).

(** [fs.rmdirSync(this.cacheDir)] *)
Definition rmdirSync : M World unit :=
  storage RmdirSync
    (λ d, match fileContent d with
          | Some _ => (Throw (Error "ENOTEMPTY: directory not empty"), d)
          | None => (Ok tt, {| dirExists := false; fileContent := None |})
          end).
End Primitives.

(** ** [rpc-service.ts] *)

Module Rpc.

Record RpcEndpoint := {
  url : string;
  name : string;
  priority : Z;
  isHealthy : bool;
  lastHealthCheck : Z
}.

Record RpcService := {
  endpoints : list RpcEndpoint;
  currentEndpointIndex : nat
}.

(** [private healthCheckInterval: number = 5 * 60 * 1000] *)
Definition healthCheckInterval : Z := 5 * 60 * 1000.

(** The variables of [process.env] that the constructor reads. *)
Record ProcessEnv := {
  MAIN_RPC_URL : option string;
  BACKUP_RPC_URLS : option string;
  BACKUP_RPC_NAMES : option string
}.

(** [process.env.X?.split(',') || []] *)
Definition split_list (v : option string) : list string :=
  match v with
  | Some s => split "," s
  | None => []
  end.

(** The body of [backupUrls.forEach((url, index) => ...)], appending to the
    array built so far. *)
Definition push_backup (backupNames : list string)
    (acc : list RpcEndpoint) (index : nat) (u : string) : list RpcEndpoint :=
  if truthy (trim u) then
    acc ++ [{| url := trim u;
               name := match backupNames !! index with
                       | Some n => if truthy (trim n) then trim n
                                   else "Backup " +:+ pretty (index + 1)
                       | None => "Backup " +:+ pretty (index + 1)
                       end;
               priority := Z.of_nat index + 2;
               isHealthy := true;
               lastHealthCheck := 0 |}]
  else acc.

Fixpoint forEach_backup (backupNames : list string) (acc : list RpcEndpoint)
    (index : nat) (backupUrls : list string) : list RpcEndpoint :=
  match backupUrls with
  | [] => acc
  | u :: rest =>
      forEach_backup backupNames (push_backup backupNames acc index u) (S index) rest
  end.

(** [constructor()] *)
Definition constructor (penv : ProcessEnv) : Result RpcService :=
  match MAIN_RPC_URL penv with
  | Some primaryUrl =>
      if truthy primaryUrl then
        let primary := {| url := primaryUrl; name := "Primary"; priority := 1;
                          isHealthy := true; lastHealthCheck := 0 |} in
        let all := forEach_backup (split_list (BACKUP_RPC_NAMES penv)) [primary] 0
                                  (split_list (BACKUP_RPC_URLS penv)) in
        Ok {| endpoints := sort_by priority all; currentEndpointIndex := 0 |}
      else Throw (Error "MAIN_RPC_URL environment variable is not set")
  | None => Throw (Error "MAIN_RPC_URL environment variable is not set")
  end.

Definition set_endpoints (l : list RpcEndpoint) (s : RpcService) : RpcService :=
  {| endpoints := l; currentEndpointIndex := currentEndpointIndex s |}.
Definition set_currentEndpointIndex (i : nat) (s : RpcService) : RpcService :=
  {| endpoints := endpoints s; currentEndpointIndex := i |}.

(** [endpoint.isHealthy = h; endpoint.lastHealthCheck = t] *)
Definition probed (h : bool) (t : Z) (e : RpcEndpoint) : RpcEndpoint :=
  {| url := url e; name := name e; priority := priority e;
     isHealthy := h; lastHealthCheck := t |}.

(** [this.endpoints[i]]; reading a field of [undefined] is a [TypeError]. *)
Definition endpoint_at {W} (i : nat) : M (RpcService * W) RpcEndpoint :=
  λ s, match endpoints s.1 !! i with
       | Some e => (Ok e, s)
       | None => (Throw (Error "Cannot read properties of undefined"), s)
       end.

Section Methods.
Context (env : Env).

(** [checkEndpointHealth(endpoint)] *)
Definition checkEndpointHealth (endpoint : RpcEndpoint) : M World bool :=
  try_catch
    (response <~ getSlot env (Web3.new_Connection (url endpoint)) ;;
     if (response <=? 0)%Z then ret false else ret true)
    (λ _, ret false).

(** [updateEndpointHealth(endpoint)], the endpoint being the object at
    index [i] of [this.endpoints], which the method mutates. *)
Definition updateEndpointHealth (i : nat) : M (RpcService * World) unit :=
  t <~ on_snd (now env) ;;
  endpoint <~ endpoint_at i ;;
  if (t - lastHealthCheck endpoint >? healthCheckInterval)%Z then
    h <~ on_snd (checkEndpointHealth endpoint) ;;
    modify (λ s, (set_endpoints (<[i := probed h t endpoint]> (endpoints s.1)) s.1, s.2))
  else ret tt.

(** The [for] loop of [getHealthyConnection]: [n] iterations are left,
    the next one is for index [i]. *)
Fixpoint getHealthyConnection_from (n i : nat) : M (RpcService * World) Web3.Connection :=
  match n with
  | 0 => throw (Error "No healthy RPC endpoints available")
  | S n' =>
      updateEndpointHealth i ;;;
      endpoint <~ endpoint_at i ;;
      if isHealthy endpoint then ret (Web3.new_Connection (url endpoint))
      else getHealthyConnection_from n' (S i)
  end.

(** [getHealthyConnection()] *)
Definition getHealthyConnection : M (RpcService * World) Web3.Connection :=
  λ s, getHealthyConnection_from (length (endpoints s.1)) 0 s.

(** The [while (tried < this.endpoints.length)] loop of
    [getNextHealthyConnection], with [n = length - tried] rounds left. *)
Fixpoint getNextHealthyConnection_loop (n : nat) : M (RpcService * World) Web3.Connection :=
  match n with
  | 0 => throw (Error "No healthy RPC endpoints available")
  | S n' =>
      cur <~ gets (λ s, currentEndpointIndex s.1) ;;
      updateEndpointHealth cur ;;;
      endpoint <~ endpoint_at cur ;;
      if isHealthy endpoint then ret (Web3.new_Connection (url endpoint))
      else
        modify (λ s, (set_currentEndpointIndex
                        ((currentEndpointIndex s.1 + 1) `mod` length (endpoints s.1)) s.1,
                      s.2)) ;;;
        getNextHealthyConnection_loop n'
  end.

(** [getNextHealthyConnection()] *)
Definition getNextHealthyConnection : M (RpcService * World) Web3.Connection :=
  λ s, getNextHealthyConnection_loop (length (endpoints s.1)) s.
End Methods.

End Rpc.

(** ** [cache-service.ts] *)

Module Cache.
Import Entry.

Record CacheService := { cache : gmap string CacheEntry }.

(** [private cacheValidityPeriod: number = 24 * 60 * 60 * 1000] *)
Definition cacheValidityPeriod : Z := 24 * 60 * 60 * 1000.

Record CacheStats := { total : nat; valid : nat; expired : nat }.

(** [this.cache = m] *)
Definition set_cache {W} (m : gmap string CacheEntry) : M (CacheService * W) unit :=
  modify (λ s, ({| cache := m |}, s.2)).

(** The callback of [this.cache.forEach] in [getCacheStats], on the pair of
    counters [(valid, expired)]. *)
Definition count_entry (t : Z) (entry : CacheEntry) (acc : nat * nat) : nat * nat :=
  if (t - lastChecked entry <=? cacheValidityPeriod)%Z
  then (S acc.1, acc.2) else (acc.1, S acc.2).

Section Methods.
Context (env : Env).

(** [loadCache()] *)
Definition loadCache : M (CacheService * World) unit :=
  try_catch
    (dirOk <~ on_snd existsSync_dir ;;
     (if dirOk then ret tt else on_snd (mkdirSync env)) ;;;
     fileOk <~ on_snd existsSync_file ;;
     if fileOk then
       data <~ on_snd (readFileSync env) ;;
       entries <~ (λ s, (JSON_parse_entries env data, s)) ;;
       set_cache (new_Map entries)
     else ret tt)
    (λ _, set_cache ∅).

(** [constructor()] *)
Definition constructor : M World CacheService :=
  λ w, let '(r, (c, w')) := loadCache ({| cache := ∅ |}, w) in
       match r with
       | Ok _ => (Ok c, w')
       | Throw e => (Throw e, w')
       end.

(** [saveCache()] *)
Definition saveCache : M (CacheService * World) unit :=
  try_catch
    (dirOk <~ on_snd existsSync_dir ;;
     (if dirOk then ret tt else on_snd (mkdirSync env)) ;;;
     c <~ gets (λ s, cache s.1) ;;
     on_snd (writeFileSync env (JSON_stringify env c)))
    (λ _, ret tt).

(** [getCachedDeployment(programId)] *)
Definition getCachedDeployment (programId : string)
  : M (CacheService * World) (option CacheEntry) :=
  c <~ gets (λ s, cache s.1) ;;
  match c !! programId with
  | None => ret None
  | Some entry =>
      t <~ on_snd (now env) ;;
      if (t - lastChecked entry >? cacheValidityPeriod)%Z then
        set_cache (delete programId c) ;;;
        saveCache ;;;
        ret None
      else ret (Some entry)
  end.

(** [cacheDeployment(programId, deploymentSignature, deploymentSlot,
    deploymentTimestamp, isProgramData, programDataAccount)] *)
Definition cacheDeployment (programId deploymentSignature : string)
    (deploymentSlot deploymentTimestamp : Z)
    (isProgramData : bool) (programDataAccount : option string)
  : M (CacheService * World) unit :=
  t <~ on_snd (now env) ;;
  c <~ gets (λ s, cache s.1) ;;
  set_cache (<[programId := {| programId := programId;
                               deploymentSignature := deploymentSignature;
                               deploymentSlot := deploymentSlot;
                               deploymentTimestamp := deploymentTimestamp;
                               lastChecked := t;
                               isProgramData := Some isProgramData;
                               programDataAccount := programDataAccount |}]> c) ;;;
  saveCache.

(** [clearCache()] *)
Definition clearCache : M (CacheService * World) unit :=
  set_cache ∅ ;;;
  saveCache ;;;
  try_catch
    (fileOk <~ on_snd existsSync_file ;;
     (if fileOk then on_snd (unlinkSync env) else ret tt) ;;;
     dirOk <~ on_snd existsSync_dir ;;
     if dirOk then on_snd (rmdirSync env) else ret tt)
    (λ _, ret tt).

(** [getCacheStats()] *)
Definition getCacheStats : M (CacheService * World) CacheStats :=
  t <~ on_snd (now env) ;;
  c <~ gets (λ s, cache s.1) ;;
  let counts := map_fold (λ _ entry acc, count_entry t entry acc) (0, 0) c in
  ret {| total := size c; valid := counts.1; expired := counts.2 |}.
End Methods.

End Cache.

(** ** [program-service.ts] *)

Module Program.

Record DeploymentInfo := {
  signature : string;
  slot : Z;
  timestamp : Z;
  programDataAccount : option string
}.

(** List of known native programs *)
Definition NATIVE_PROGRAMS : gset string :=
  list_to_set [
    "TokenkegQfeZyiNwAJbNbGKPFXCWuBvf9Ss623VQ5DA";
    "ComputeBudget111111111111111111111111111111";
    "BPFLoader2111111111111111111111111111111111";
    "BPFLoader1111111111111111111111111111111111";
    "Feature111111111111111111111111111111111111";
    "NativeLoader1111111111111111111111111111111";
    "Sysvar1111111111111111111111111111111111111";
    "11111111111111111111111111111111";
    "Config1111111111111111111111111111111111111";
    "Stake11111111111111111111111111111111111111";
    "Vote111111111111111111111111111111111111111";
    "AddressLookupTab1e1111111111111111111111111";
    "BPFLoaderUpgradeab1e11111111111111111111111";
    "Ed25519SigVerify111111111111111111111111111";
    "KeccakSecp256k11111111111111111111111111111";
    "Secp256r1SigVerify1111111111111111111111111"
  ].

(** List of BPFLoader program IDs that can own program accounts *)
Definition BPF_LOADER_PROGRAMS : gset string :=
  list_to_set [
    "BPFLoader2111111111111111111111111111111111";
    "BPFLoader1111111111111111111111111111111111";
    "BPFLoaderUpgradeab1e11111111111111111111111"
  ].

Record ProgramService := {
  rpcService : Rpc.RpcService;
  cacheService : Cache.CacheService
}.

(** [isNativeProgram(programId)] *)
Definition isNativeProgram (programId : string) : bool :=
  bool_decide (programId ∈ NATIVE_PROGRAMS).

(** [isProgramAccount(owner)] *)
Definition isProgramAccount (owner : string) : bool :=
  bool_decide (owner ∈ BPF_LOADER_PROGRAMS).

(** A method of [this.rpcService], [this.cacheService], or a call on the
    network, run from a method of the program service. *)
Definition on_rpc {A} (m : M (Rpc.RpcService * World) A) : M (ProgramService * World) A :=
  λ s, let '(r, (rpc', w')) := m (rpcService s.1, s.2) in
       (r, ({| rpcService := rpc'; cacheService := cacheService s.1 |}, w')).

Definition on_cache {A} (m : M (Cache.CacheService * World) A)
  : M (ProgramService * World) A :=
  λ s, let '(r, (cache', w')) := m (cacheService s.1, s.2) in
       (r, ({| rpcService := rpcService s.1; cacheService := cache' |}, w')).

(** The predicate of [tx.meta.logMessages.some(...)]. *)
Definition is_deployment_log (programId log : string) : bool :=
  includes log "Deployed program"
  || includes log "Deploy with ID"
  || (includes log programId && includes log "success").

(** [tx?.meta?.logMessages] *)
Definition tx_logMessages (tx : option Web3.ParsedTransaction) : option (list string) :=
  match tx with
  | Some t => match Web3.meta t with
              | Some m => Web3.logMessages m
              | None => None
              end
  | None => None
  end.

Section Methods.
Context (env : Env).

(** The [for (const sig of signatures)] loop of [findDeploymentTransaction]. *)
Fixpoint scan (connection : Web3.Connection) (programId : string)
    (signatures : list Web3.ConfirmedSignatureInfo)
  : M World (option DeploymentInfo) :=
  match signatures with
  | [] => ret None
  | sig :: rest =>
      tx <~ getParsedTransaction env connection (Web3.signature sig) ;;
      match tx_logMessages tx with
      | None => scan connection programId rest
      | Some logs =>
          if existsb (is_deployment_log programId) logs then
            ret (Some {| signature := Web3.signature sig;
                         slot := or0 (Web3.slot sig);
                         timestamp := or0_opt (Web3.blockTime sig);
                         programDataAccount := None |})
          else scan connection programId rest
      end
  end.

(** [findDeploymentTransaction(connection, targetAccount, programId)] *)
Definition findDeploymentTransaction (connection : Web3.Connection)
    (targetAccount programId : string) : M World (option DeploymentInfo) :=
  try_catch
    (signatures <~ getSignaturesForAddress env connection targetAccount ;;
     if Nat.eqb (length signatures) 0 then ret None
     else scan connection programId
               (sort_by (λ sig, or0 (Web3.slot sig)) signatures))
    (λ _, ret None).

(** The body of the [try] block of [getDeploymentInfo]: one attempt. *)
Definition attempt (programId : string) : M (ProgramService * World) DeploymentInfo :=
  connection <~ on_rpc (Rpc.getNextHealthyConnection env) ;;
  address <~ new_PublicKey env programId ;;
  accountInfo <~ on_snd (getParsedAccountInfo env connection address) ;;
  match accountInfo with
  | None => throw (Error "Account not found")
  | Some value =>
      if negb (isProgramAccount (Web3.owner value)) then
        throw (Error "Not a program account. This appears to be a regular account or token.")
      else
        let programData := Web3.parsed_info_programData value in
        targetAccount <~ (if truthy_opt programData
                          then new_PublicKey env (default "" programData)
                          else new_PublicKey env programId) ;;
        deploymentInfo <~ on_snd (findDeploymentTransaction connection targetAccount programId) ;;
        match deploymentInfo with
        | None => throw (Error "Could not find deployment transaction")
        | Some info =>
            on_cache (Cache.cacheDeployment env programId (signature info) (slot info)
                        (timestamp info) (truthy_opt programData) programData) ;;;
            ret info
        end
  end.

(** The [while (attempts < maxAttempts)] loop of [getDeploymentInfo], with
    [n = maxAttempts - attempts] rounds left, and the [throw] after it. *)
Fixpoint attempts_loop (n : nat) (programId : string) (lastError : option Thrown)
  : M (ProgramService * World) (option DeploymentInfo) :=
  match n with
  | 0 => throw (default (Error "Failed to get deployment information") lastError)
  | S n' =>
      try_catch
        (info <~ attempt programId ;; ret (Some info))
        (λ error, attempts_loop n' programId (Some (as_Error error)))
  end.

Definition maxAttempts : nat := 3.

(** [getDeploymentInfo(programId)]; [None] is the [null] that tells a
    native program. *)
Definition getDeploymentInfo (programId : string)
  : M (ProgramService * World) (option DeploymentInfo) :=
  if isNativeProgram programId then ret None
  else
    cachedInfo <~ on_cache (Cache.getCachedDeployment env programId) ;;
    match cachedInfo with
    | Some entry =>
        ret (Some {| signature := Entry.deploymentSignature entry;
                     slot := Entry.deploymentSlot entry;
                     timestamp := Entry.deploymentTimestamp entry;
                     programDataAccount := Entry.programDataAccount entry |})
    | None => attempts_loop maxAttempts programId None
    end.

(** [clearCache()], [getCacheStats()] *)
Definition clearCache : M (ProgramService * World) unit :=
  on_cache (Cache.clearCache env).
Definition getCacheStats : M (ProgramService * World) Cache.CacheStats :=
  on_cache (Cache.getCacheStats env).

(** [constructor()] *)
Definition constructor (penv : Rpc.ProcessEnv) : M World ProgramService :=
  λ w, match Rpc.constructor penv with
       | Throw e => (Throw e, w)
       | Ok rpc =>
           match Cache.constructor env w with
           | (Ok c, w') => (Ok {| rpcService := rpc; cacheService := c |}, w')
           | (Throw e, w') => (Throw e, w')
           end
       end.
End Methods.

End Program.

(** ** Notions used in the statements about the endpoint manager *)

Module RpcSpec.
Import Rpc.

(** An endpoint as the constructor makes it. *)
Definition fresh (e : RpcEndpoint) : Prop :=
  isHealthy e = true ∧ lastHealthCheck e = 0%Z.

(** The cursor designates an endpoint. *)
Definition wf (s : RpcService) : Prop :=
  currentEndpointIndex s < length (endpoints s).

(** [x mod n] for [x < 2 * n]. *)
Definition wrap (n x : nat) : nat := if decide (x < n) then x else x - n.

(** What a probe of [u], sent at position [n] of the history, reports. *)
Definition probe_answer (env : Env) (n : nat) (u : string) : bool :=
  match rpc_getSlot env n u with
  | Ok response => negb (response <=? 0)%Z
  | Throw _ => false
  end.

(** The state after [updateEndpointHealth] on the endpoint [e] at index [i]. *)
Definition updated (env : Env) (i : nat) (e : RpcEndpoint) (s : RpcService * World)
  : RpcService * World :=
  let t := Date_now env (ticks s.2) in
  let w := set_ticks (S (ticks s.2)) s.2 in
  if (t - lastHealthCheck e >? healthCheckInterval)%Z then
    (set_endpoints
       (<[i := probed (probe_answer env (length (trace s.2)) (url e)) t e]> (endpoints s.1)) s.1,
     log_event (GetSlot (url e)) w)
  else (s.1, w).

(** The one error of the two selection policies. *)
Definition NoHealthyEndpoint : Thrown := Error "No healthy RPC endpoints available".

(** The other errors that the three services make themselves. *)
Definition other_errors : list Thrown := [
  Error "MAIN_RPC_URL environment variable is not set";
  Error "Account not found";
  Error "Not a program account. This appears to be a regular account or token.";
  Error "Could not find deployment transaction";
  Error "Failed to get deployment information";
  Error "Unknown error"
].

Definition unhealthy (e : RpcEndpoint) : Prop := isHealthy e = false.

(** The history holds a probe of [u] that the server answered with a valid
    slot. *)
Definition backed (env : Env) (w : World) (u : string) : Prop :=
  ∃ n v, trace w !! n = Some (GetSlot u) ∧ rpc_getSlot env n u = Ok v ∧ (0 < v)%Z.

(** An endpoint is either as the constructor made it, or its health flag, if
    set, comes from a probe. *)
Definition vouched (env : Env) (w : World) (e : RpcEndpoint) : Prop :=
  lastHealthCheck e = 0%Z ∨ (isHealthy e = true → backed env w (url e)).

End RpcSpec.

(** ** Notions used in the statements about the detector *)

Module ProgramSpec.
Import Program.

(** The error for a [null] of [findDeploymentTransaction]. *)
Definition NoDeployment : Thrown := Error "Could not find deployment transaction".

Definition NotAProgramAccount : Thrown :=
  Error "Not a program account. This appears to be a regular account or token.".

(** The classification of one fetched transaction by the history scan. *)
Definition is_deployment_tx (programId : string) (tx : option Web3.ParsedTransaction) : bool :=
  match tx_logMessages tx with
  | Some logs => existsb (is_deployment_log programId) logs
  | None => false
  end.

(** What the scan returns for a matching signature. *)
Definition found (sig : Web3.ConfirmedSignatureInfo) : DeploymentInfo :=
  {| signature := Web3.signature sig;
     slot := or0 (Web3.slot sig);
     timestamp := or0_opt (Web3.blockTime sig);
     programDataAccount := None |}.

(** The request for the transaction of a signature. *)
Definition fetch_event (c : Web3.Connection) (sig : Web3.ConfirmedSignatureInfo) : Event :=
  GetParsedTransaction (Web3.rpcEndpoint c) (Web3.signature sig).

(** The public shape of a cached record. *)
Definition of_entry (entry : Entry.CacheEntry) : DeploymentInfo :=
  {| signature := Entry.deploymentSignature entry;
     slot := Entry.deploymentSlot entry;
     timestamp := Entry.deploymentTimestamp entry;
     programDataAccount := Entry.programDataAccount entry |}.

Definition is_account_fetch (ev : Event) : bool :=
  match ev with GetParsedAccountInfo _ _ => true | _ => false end.

(** Number of account fetches in the history. *)
Definition account_fetches (w : World) : nat :=
  length (filter (λ ev, is_account_fetch ev = true) (trace w)).

(** The outcome of one more attempt after [prev], if [prev] failed. *)
Definition or_else {S A} (prev : Result A * S) (next : S → Result A * S) : Result A * S :=
  match prev with
  | (Ok a, s) => (Ok a, s)
  | (Throw _, s) => next s
  end.

End ProgramSpec.

(** ** Sample configurations and environments

    Concrete inputs on which the definitions above are run. *)

Module Sample.

Definition NOW : Z := 1600000000000.

(** The check of [new PublicKey(s)]: [s] is base58 and decodes to 32 bytes. *)
Definition base58_alphabet : string :=
  "123456789ABCDEFGHJKLMNPQRSTUVWXYZabcdefghijkmnopqrstuvwxyz".

Fixpoint base58_digit (alphabet : string) (a : ascii) : option N :=
  match alphabet with
  | EmptyString => None
  | String b rest =>
      if Ascii.eqb a b then Some 0%N
      else match base58_digit rest a with
           | Some d => Some (d + 1)%N
           | None => None
           end
  end.

Fixpoint base58_value (acc : N) (s : string) : option N :=
  match s with
  | EmptyString => Some acc
  | String a rest =>
      match base58_digit base58_alphabet a with
      | Some d => base58_value (acc * 58 + d)%N rest
      | None => None
      end
  end.

Fixpoint leading_ones (s : string) : N :=
  match s with
  | String "1" rest => (1 + leading_ones rest)%N
  | _ => 0%N
  end.

Definition byte_length (n : N) : N :=
  if (n =? 0)%N then 0%N else (N.log2 n / 8 + 1)%N.

Definition check_PublicKey (s : string) : option Thrown :=
  match base58_value 0 s with
  | None => Some (Error "Non-base58 character")
  | Some n => if (leading_ones s + byte_length n =? 32)%N then None
              else Some (Error "Invalid public key input")
  end.

(** An empty history, no cache directory yet. *)
Definition world : World :=
  {| ticks := 0; trace := [];
     disk := {| dirExists := false; fileContent := None |} |}.

(** A server that is up on every endpoint, and knows no account. *)
Definition env_up : Env := {|
  Date_now := λ n, (NOW + Z.of_nat n)%Z;
  rpc_getSlot := λ _ _, Ok 100%Z;
  rpc_getParsedAccountInfo := λ _ _ _, Ok None;
  rpc_getSignaturesForAddress := λ _ _ _, Ok [];
  rpc_getParsedTransaction := λ _ _ _, Ok None;
  fs_fault := λ _, None;
  JSON_parse_entries :=
    λ data, if String.eqb data "{}" then Ok []
            else Throw (Error "Unexpected token in JSON");
  JSON_stringify := λ m, if bool_decide (m = ∅) then "{}" else "{...}";
  PublicKey_error := check_PublicKey
|}.

(** The same, with every endpoint down. *)
Definition env_down : Env := {|
  Date_now := Date_now env_up;
  rpc_getSlot := λ _ _, Throw (Error "fetch failed");
  rpc_getParsedAccountInfo := rpc_getParsedAccountInfo env_up;
  rpc_getSignaturesForAddress := rpc_getSignaturesForAddress env_up;
  rpc_getParsedTransaction := rpc_getParsedTransaction env_up;
  fs_fault := fs_fault env_up;
  JSON_parse_entries := JSON_parse_entries env_up;
  JSON_stringify := JSON_stringify env_up;
  PublicKey_error := PublicKey_error env_up
|}.

(** A primary and one backup. *)
Definition penv2 : Rpc.ProcessEnv := {|
  Rpc.MAIN_RPC_URL := Some "http://main-endpoint.test";
  Rpc.BACKUP_RPC_URLS := Some "http://fallback-endpoint.test";
  Rpc.BACKUP_RPC_NAMES := None
|}.

Definition rpc2 : Rpc.RpcService := {|
  Rpc.endpoints := [
    {| Rpc.url := "http://main-endpoint.test"; Rpc.name := "Primary";
       Rpc.priority := 1; Rpc.isHealthy := true; Rpc.lastHealthCheck := 0 |};
    {| Rpc.url := "http://fallback-endpoint.test"; Rpc.name := "Backup 1";
       Rpc.priority := 2; Rpc.isHealthy := true; Rpc.lastHealthCheck := 0 |} ];
  Rpc.currentEndpointIndex := 0
|}.

(** A cache file that is not JSON. *)
Definition world_corrupted : World :=
  {| ticks := 0; trace := [];
     disk := {| dirExists := true; fileContent := Some "not json" |} |}.

Definition PROGRAM : string := "6EF8rrecthR5Dkzon8Nwu78hRvfCKubJ14M5uBEwF6P".
Definition PROGRAM_DATA : string := "ULkDzAvpWkDRQAJRftnv5mAWcP1UHM85k9TYk6Ro1ze".
Definition HOUR : Z := 60 * 60 * 1000.

Definition entry_at (t : Z) : Entry.CacheEntry := {|
  Entry.programId := PROGRAM;
  Entry.deploymentSignature := "test-signature";
  Entry.deploymentSlot := 1000;
  Entry.deploymentTimestamp := 1600000000;
  Entry.lastChecked := t;
  Entry.isProgramData := Some true;
  Entry.programDataAccount := Some PROGRAM_DATA
|}.

Definition cache_empty : Cache.CacheService := {| Cache.cache := ∅ |}.

(** A cache with one record, written an hour ago, or 25 hours ago. *)
Definition cache_recent : Cache.CacheService :=
  {| Cache.cache := {[ PROGRAM := entry_at (NOW - HOUR) ]} |}.
Definition cache_stale : Cache.CacheService :=
  {| Cache.cache := {[ PROGRAM := entry_at (NOW - 25 * HOUR) ]} |}.

(** An upgradeable program and the history of its program-data account. The
    server lists the signatures in the order of slots 5, 2, 9. *)
Definition upgradeable : Web3.AccountInfo := {|
  Web3.owner := "BPFLoaderUpgradeab1e11111111111111111111111";
  Web3.parsed_info_programData := Some PROGRAM_DATA
|}.

Definition a_wallet : Web3.AccountInfo := {|
  Web3.owner := "11111111111111111111111111111111";
  Web3.parsed_info_programData := None
|}.

Definition sig_at (name : string) (n : Z) : Web3.ConfirmedSignatureInfo :=
  {| Web3.signature := name; Web3.slot := n; Web3.blockTime := Some (1600000000 + n)%Z |}.

Definition tx_with (logs : list string) : option Web3.ParsedTransaction :=
  Some {| Web3.meta := Some {| Web3.logMessages := Some logs |} |}.

Definition with_history (account : option Web3.AccountInfo)
    (signatures : list Web3.ConfirmedSignatureInfo)
    (tx : string → Result (option Web3.ParsedTransaction)) : Env := {|
  Date_now := Date_now env_up;
  rpc_getSlot := rpc_getSlot env_up;
  rpc_getParsedAccountInfo := λ _ _ _, Ok account;
  rpc_getSignaturesForAddress := λ _ _ _, Ok signatures;
  rpc_getParsedTransaction := λ _ _ sig, tx sig;
  fs_fault := fs_fault env_up;
  JSON_parse_entries := JSON_parse_entries env_up;
  JSON_stringify := JSON_stringify env_up;
  PublicKey_error := PublicKey_error env_up
|}.

Definition env_deployed : Env :=
  with_history (Some upgradeable)
    [sig_at "sig5" 5; sig_at "sig2" 2; sig_at "sig9" 9]
    (λ sig, if String.eqb sig "sig2" then Ok (tx_with ["unrelated"])
            else Ok (tx_with ["Deployed program X"])).

(** The same program with no history at all, and with a history in which
    nothing tells a deployment. *)
Definition env_no_history : Env :=
  with_history (Some upgradeable) [] (λ _, Ok None).
Definition env_no_match : Env :=
  with_history (Some upgradeable) [sig_at "sig2" 2] (λ _, Ok (tx_with ["unrelated"])).

(** An address that is a wallet, not a program. *)
Definition env_wallet : Env := with_history (Some a_wallet) [] (λ _, Ok None).

Definition service (c : Cache.CacheService) : Program.ProgramService :=
  {| Program.rpcService := rpc2; Program.cacheService := c |}.

End Sample.

(** ** Notions used in the statements about the cache store *)

Module CacheSpec.
Import Entry Cache.

#[global] Instance CacheEntry_eq_dec : EqDecision CacheEntry.
Proof. solve_decision. Defined.

(** The age of a record at time [t] is within the validity period. *)
Definition fresh_at (t : Z) (entry : CacheEntry) : Prop :=
  (t - lastChecked entry ≤ cacheValidityPeriod)%Z.

#[global] Instance fresh_at_dec t entry : Decision (fresh_at t entry).
Proof. unfold fresh_at. apply _. Defined.

(** The record that [cacheDeployment] makes at time [t]. *)
Definition record_of (programId deploymentSignature : string)
    (deploymentSlot deploymentTimestamp : Z) (isProgramData : bool)
    (programDataAccount : option string) (t : Z) : CacheEntry :=
  {| programId := programId;
     deploymentSignature := deploymentSignature;
     deploymentSlot := deploymentSlot;
     deploymentTimestamp := deploymentTimestamp;
     lastChecked := t;
     isProgramData := Some isProgramData;
     programDataAccount := programDataAccount |}.

(** The disk once the cache directory is removed. *)
Definition no_cache_dir : Disk := {| dirExists := false; fileContent := None |}.

End CacheSpec.

(** ** Further notions about the endpoint manager *)

Module RpcSpec2.
Import Rpc RpcSpec.

Definition is_probe (ev : Event) : bool :=
  match ev with GetSlot _ => true | _ => false end.

(** What configuration gives an endpoint and no method changes. *)
Definition static (e : RpcEndpoint) : string * string * Z :=
  (url e, name e, priority e).

(** The primary endpoint as the constructor makes it. *)
Definition primary (u : string) : RpcEndpoint :=
  {| url := u; name := "Primary"; priority := 1; isHealthy := true; lastHealthCheck := 0 |}.

(** The endpoint declared by the entry [u] at position [index] of
    [BACKUP_RPC_URLS]: the URL without the white space around it, the name at
    the same position of [BACKUP_RPC_NAMES] (trimmed) unless it is missing or
    blank, and then "Backup" with the position counted from 1, and a priority
    that follows the position. *)
Definition backup_at (names : list string) (index : nat) (u : string) : RpcEndpoint :=
  {| url := trim u;
     name := match names !! index with
             | Some n => if truthy (trim n) then trim n
                         else "Backup " +:+ pretty (index + 1)
             | None => "Backup " +:+ pretty (index + 1)
             end;
     priority := Z.of_nat index + 2;
     isHealthy := true;
     lastHealthCheck := 0 |}.

(** The entries of [BACKUP_RPC_URLS] from position [index] on that are not
    blank, each with its position. *)
Fixpoint declared_from (index : nat) (urls : list string) : list (nat * string) :=
  match urls with
  | [] => []
  | u :: rest =>
      if truthy (trim u) then (index, u) :: declared_from (S index) rest
      else declared_from (S index) rest
  end.

(** The backup endpoints of a configuration, in the order of declaration. *)
Definition declared_backups (names urls : list string) : list RpcEndpoint :=
  (λ iu, backup_at names iu.1 iu.2) <$> declared_from 0 urls.

(** The effect of a selection that considers at most [n] endpoints: the
    history grows by probes only, at most [n] of them, the clock is read at
    most [n] times, the disk is left alone, and the endpoints keep their
    number and their configuration. *)
Definition probes_only (n : nat) (s s' : RpcService * World) : Prop :=
  (∃ probes, trace s'.2 = trace s.2 ++ probes ∧
             Forall (λ ev, is_probe ev = true) probes ∧
             length probes ≤ n) ∧
  ticks s.2 ≤ ticks s'.2 ≤ ticks s.2 + n ∧
  disk s'.2 = disk s.2 ∧
  static <$> endpoints s'.1 = static <$> endpoints s.1.

(** No endpoint is due for a health check during the next [k] readings of
    the clock. *)
Definition checked_recently (env : Env) (k : nat) (s : RpcService * World) : Prop :=
  ∀ n e, ticks s.2 ≤ n < ticks s.2 + k → e ∈ endpoints s.1 →
         (Date_now env n - lastHealthCheck e ≤ healthCheckInterval)%Z.

(** No endpoint is due for a health check during a selection that starts
    now: a selection reads the clock once for each endpoint it considers, so
    at most as many times as there are endpoints. *)
Definition all_checked_recently (env : Env) (s : RpcService * World) : Prop :=
  checked_recently env (length (endpoints s.1)) s.

(** The answer of the priority scan when it goes by the flags alone. *)
Definition first_flagged (l : list RpcEndpoint) : Result Web3.Connection :=
  match list_find (λ e, isHealthy e = true) l with
  | Some (_, e) => Ok (Web3.new_Connection (url e))
  | None => Throw NoHealthyEndpoint
  end.

End RpcSpec2.

(** ** Further notions about the detector *)

Module ProgramSpec2.
Import Program ProgramSpec.

(** [needle] occurs in [s]. *)
Definition contains (s needle : string) : Prop :=
  ∃ before after, s = String.append before (String.append needle after).

(** The account whose history an attempt scans. *)
Definition target_of (programId : string) (value : Web3.AccountInfo) : string :=
  if truthy_opt (Web3.parsed_info_programData value)
  then default "" (Web3.parsed_info_programData value)
  else programId.

Definition AccountNotFound : Thrown := Error "Account not found".

(** One attempt as the specification lists its steps: acquire a connection
    by the cursor policy; check the identifier; fetch the account and fail
    when it is absent, or when its owner is no loader; resolve the target;
    scan the history of the target and fail when it shows no deployment;
    write the result into the cache and return it. A failure at any step ends
    the attempt with the state reached. *)
Definition attempt_steps (env : Env) (programId : string) (s : ProgramService * World)
  : Result DeploymentInfo * (ProgramService * World) :=
  match on_rpc (Rpc.getNextHealthyConnection env) s with
  | (Throw e, s1) => (Throw e, s1)
  | (Ok c, s1) =>
      match PublicKey_error env programId with
      | Some e => (Throw e, s1)
      | None =>
          let u := Web3.rpcEndpoint c in
          let w2 := log_event (GetParsedAccountInfo u programId) s1.2 in
          match rpc_getParsedAccountInfo env (length (trace s1.2)) u programId with
          | Throw e => (Throw e, (s1.1, w2))
          | Ok None => (Throw AccountNotFound, (s1.1, w2))
          | Ok (Some value) =>
              if isProgramAccount (Web3.owner value) then
                match PublicKey_error env (target_of programId value) with
                | Some e => (Throw e, (s1.1, w2))
                | None =>
                    match findDeploymentTransaction env c (target_of programId value)
                            programId w2 with
                    | (Ok (Some info), w3) =>
                        match on_cache (Cache.cacheDeployment env programId
                                          (signature info) (slot info) (timestamp info)
                                          (truthy_opt (Web3.parsed_info_programData value))
                                          (Web3.parsed_info_programData value))
                                       (s1.1, w3) with
                        | (Ok _, s4) => (Ok info, s4)
                        | (Throw e, s4) => (Throw e, s4)
                        end
                    | (Ok None, w3) => (Throw NoDeployment, (s1.1, w3))
                    | (Throw e, w3) => (Throw e, (s1.1, w3))
                    end
                end
              else (Throw NotAProgramAccount, (s1.1, w2))
          end
      end
  end.

(** What an attempt may do after it has requested the history: fetch
    transactions on the same endpoint, and save the cache. *)
Definition follows_history (u : string) (ev : Event) : Prop :=
  match ev with
  | GetParsedTransaction u' _ => u' = u
  | MkdirSync | WriteFileSync _ => True
  | _ => False
  end.

End ProgramSpec2.

(** ** More sample environments *)

Module Sample2.
Import Sample.

(** Storage that refuses every call. *)
Definition env_no_storage : Env := {|
  Date_now := Date_now env_up;
  rpc_getSlot := rpc_getSlot env_up;
  rpc_getParsedAccountInfo := rpc_getParsedAccountInfo env_up;
  rpc_getSignaturesForAddress := rpc_getSignaturesForAddress env_up;
  rpc_getParsedTransaction := rpc_getParsedTransaction env_up;
  fs_fault := λ _, Some (Error "EACCES: permission denied");
  JSON_parse_entries := JSON_parse_entries env_up;
  JSON_stringify := JSON_stringify env_up;
  PublicKey_error := PublicKey_error env_up
|}.

(** A codec that knows the document of the empty cache and that of
    [cache_recent]. *)
Definition env_codec : Env := {|
  Date_now := Date_now env_up;
  rpc_getSlot := rpc_getSlot env_up;
  rpc_getParsedAccountInfo := rpc_getParsedAccountInfo env_up;
  rpc_getSignaturesForAddress := rpc_getSignaturesForAddress env_up;
  rpc_getParsedTransaction := rpc_getParsedTransaction env_up;
  fs_fault := fs_fault env_up;
  JSON_parse_entries :=
    λ data, if String.eqb data "{}" then Ok []
            else if String.eqb data "{recent}"
                 then Ok [(PROGRAM, entry_at (NOW - HOUR))]
                 else Throw (Error "Unexpected token in JSON");
  JSON_stringify :=
    λ m, if bool_decide (m = ∅) then "{}"
         else if bool_decide (m = Cache.cache cache_recent) then "{recent}"
              else "{...}";
  PublicKey_error := PublicKey_error env_up
|}.

(** The primary endpoint is down, the backups are up. *)
Definition env_primary_down : Env := {|
  Date_now := Date_now env_up;
  rpc_getSlot := λ _ u, if String.eqb u "http://main-endpoint.test"
                        then Throw (Error "fetch failed") else Ok 100%Z;
  rpc_getParsedAccountInfo := rpc_getParsedAccountInfo env_up;
  rpc_getSignaturesForAddress := rpc_getSignaturesForAddress env_up;
  rpc_getParsedTransaction := rpc_getParsedTransaction env_up;
  fs_fault := fs_fault env_up;
  JSON_parse_entries := JSON_parse_entries env_up;
  JSON_stringify := JSON_stringify env_up;
  PublicKey_error := PublicKey_error env_up
|}.

(** The two endpoints of [rpc2], both checked at [NOW]: the primary found
    down, the backup found up. *)
Definition rpc2_checked : Rpc.RpcService := {|
  Rpc.endpoints := [
    {| Rpc.url := "http://main-endpoint.test"; Rpc.name := "Primary";
       Rpc.priority := 1; Rpc.isHealthy := false; Rpc.lastHealthCheck := NOW |};
    {| Rpc.url := "http://fallback-endpoint.test"; Rpc.name := "Backup 1";
       Rpc.priority := 2; Rpc.isHealthy := true; Rpc.lastHealthCheck := NOW |} ];
  Rpc.currentEndpointIndex := 0
|}.

(** A configuration with blank entries: the second backup URL is a
    no-break space (U+00A0), the third a space; the second name is blank and
    there is no fourth name. *)
Definition NBSP : string := String "194" (String "160" "").
Definition penv_blanks : Rpc.ProcessEnv := {|
  Rpc.MAIN_RPC_URL := Some "http://main-endpoint.test";
  Rpc.BACKUP_RPC_URLS :=
    Some (" http://b1.test " +:+ NBSP +:+ "," +:+ NBSP +:+ ", ,http://b4.test");
  Rpc.BACKUP_RPC_NAMES := Some "One, ,Three"
|}.

(** The history of [env_deployed], with a server that fails on the
    transaction of slot 5. *)
Definition env_flaky : Env :=
  with_history (Some upgradeable)
    [sig_at "sig5" 5; sig_at "sig2" 2; sig_at "sig9" 9]
    (λ sig, if String.eqb sig "sig2" then Ok (tx_with ["unrelated"])
            else if String.eqb sig "sig5" then Throw (Error "429 Too Many Requests")
                 else Ok (tx_with ["Deployed program X"])).

(** A cache with a recent and a stale record. *)
Definition OTHER : string := "TokenkegQfeZyiNwAJbNbGKPFXCWuBvf9Ss623VQ5DA".
Definition cache_mixed : Cache.CacheService :=
  {| Cache.cache := <[ OTHER := entry_at (NOW - 30 * HOUR) ]>
                      {[ PROGRAM := entry_at (NOW - HOUR) ]} |}.

End Sample2.

(** * Properties *)

(** ** Generic facts *)

Lemma sort_insert_perm {A} (key : A → Z) x l :
  Permutation (sort_insert key x l) (x :: l).
Proof.
  induction l as [|y l IH]; simpl; [done|].
  destruct (key x <=? key y)%Z; [done|].
  rewrite IH. apply perm_swap.
Qed.

Lemma sort_by_perm {A} (key : A → Z) l : Permutation (sort_by key l) l.
Proof.
  induction l as [|x l IH]; simpl; [done|].
  rewrite sort_insert_perm. by constructor.
Qed.

Lemma sort_insert_sorted {A} (key : A → Z) x l :
  StronglySorted (λ a b, (key a ≤ key b)%Z) l →
  StronglySorted (λ a b, (key a ≤ key b)%Z) (sort_insert key x l).
Proof.
  induction 1 as [|y l Hl IH Hy]; simpl.
  - repeat constructor.
  - destruct (Z.leb_spec (key x) (key y)).
    + constructor; [by constructor|].
      constructor; [done|].
      eapply Forall_impl; [exact Hy|]. simpl. intros; lia.
    + constructor; [done|].
      rewrite sort_insert_perm. constructor; [lia|done].
Qed.

Lemma sort_by_sorted {A} (key : A → Z) l :
  StronglySorted (λ a b, (key a ≤ key b)%Z) (sort_by key l).
Proof.
  induction l; simpl; [constructor|]. by apply sort_insert_sorted.
Qed.

(** A list that is already in ascending order is left as it is. *)
Lemma sort_by_id {A} (key : A → Z) l :
  StronglySorted (λ a b, (key a ≤ key b)%Z) l → sort_by key l = l.
Proof.
  induction 1 as [|x l Hl IH Hx]; simpl; [done|].
  rewrite IH. destruct Hx as [|y l' Hy _]; simpl; [done|].
  destruct (Z.leb_spec (key x) (key y)); [done|lia].
Qed.

(** ** The history *)

Lemma account_fetches_log ev w :
  ProgramSpec.account_fetches (log_event ev w)
  = ProgramSpec.account_fetches w + (if ProgramSpec.is_account_fetch ev then 1 else 0).
Proof.
  unfold ProgramSpec.account_fetches, log_event. simpl.
  rewrite filter_app, length_app. f_equal.
  destruct (ProgramSpec.is_account_fetch ev) eqn:Hev.
  - by rewrite filter_cons_True.
  - rewrite filter_cons_False; [done|congruence].
Qed.

Lemma account_fetches_of_network w w' :
  network_requests w' = network_requests w →
  ProgramSpec.account_fetches w' = ProgramSpec.account_fetches w.
Proof.
  assert (Hnet : ∀ l : list Event,
    filter (λ ev, ProgramSpec.is_account_fetch ev = true) l
    = filter (λ ev, ProgramSpec.is_account_fetch ev = true)
             (filter (λ ev, is_network ev = true) l)).
  { intros l. rewrite list_filter_filter. apply list_filter_iff.
    intros ev. split; [|tauto]. intros Hev. split; [done|]. by destruct ev. }
  intros Heq. unfold ProgramSpec.account_fetches, network_requests in *.
  by rewrite (Hnet (trace w')), (Hnet (trace w)), Heq.
Qed.

Lemma account_fetches_set_ticks n w :
  ProgramSpec.account_fetches (set_ticks n w) = ProgramSpec.account_fetches w.
Proof. done. Qed.

(** ** The endpoint manager *)

Module RpcFacts.
Import Rpc RpcSpec.

Example constructor_penv2 : constructor Sample.penv2 = Ok Sample.rpc2.
Proof. reflexivity. Qed.

Lemma forEach_backup_fresh names urls acc index :
  Forall fresh acc → Forall fresh (forEach_backup names acc index urls).
Proof.
  revert acc index. induction urls as [|u urls IH]; intros acc index Hacc; simpl; [done|].
  apply IH. unfold push_backup. destruct (truthy (trim u)); [|done].
  apply Forall_app. split; [done|]. by repeat constructor.
Qed.

Lemma forEach_backup_length names urls acc index :
  length acc ≤ length (forEach_backup names acc index urls).
Proof.
  revert acc index. induction urls as [|u urls IH]; intros acc index; simpl; [done|].
  etrans; [|apply IH]. unfold push_backup. destruct (truthy (trim u)); [|done].
  rewrite length_app. lia.
Qed.

Lemma constructor_fresh penv svc :
  constructor penv = Ok svc →
  Forall fresh (endpoints svc) ∧ currentEndpointIndex svc = 0 ∧ 0 < length (endpoints svc).
Proof.
  unfold constructor. intros H.
  destruct (MAIN_RPC_URL penv) as [primaryUrl|]; [|done].
  destruct (truthy primaryUrl); [|done].
  injection H as <-. simpl.
  set (primary := Build_RpcEndpoint _ _ _ _ _).
  set (all := forEach_backup _ _ _ _).
  assert (Hall : Forall fresh all).
  { apply forEach_backup_fresh. by repeat constructor. }
  assert (Hlen : 0 < length all).
  { eapply Nat.lt_le_trans; [|apply forEach_backup_length]. simpl. lia. }
  split_and!.
  - by rewrite (sort_by_perm priority all).
  - done.
  - by rewrite (Permutation_length (sort_by_perm priority all)).
Qed.

Section WithEnv.
Context (env : Env).

Lemma checkEndpointHealth_eq e w :
  checkEndpointHealth env e w =
    (Ok (probe_answer env (length (trace w)) (url e)), log_event (GetSlot (url e)) w).
Proof.
  unfold checkEndpointHealth, try_catch, bind, getSlot, request, probe_answer. simpl.
  destruct (rpc_getSlot env _ _) as [r|]; [|done].
  by destruct (r <=? 0)%Z.
Qed.

Lemma updateEndpointHealth_eq i e s :
  endpoints s.1 !! i = Some e →
  updateEndpointHealth env i s = (Ok tt, updated env i e s).
Proof.
  destruct s as [svc w]. simpl. intros He.
  unfold updateEndpointHealth, updated, bind, on_snd, now, endpoint_at, modify, ret. simpl.
  rewrite He. destruct (_ >? _)%Z; [|done].
  by rewrite checkEndpointHealth_eq.
Qed.

Lemma updated_length i e s :
  length (endpoints (updated env i e s).1) = length (endpoints s.1).
Proof.
  unfold updated. destruct (_ >? _)%Z; simpl; [|done]. by rewrite length_insert.
Qed.

Lemma updated_cursor i e s :
  currentEndpointIndex (updated env i e s).1 = currentEndpointIndex s.1.
Proof. unfold updated. by destruct (_ >? _)%Z. Qed.

Lemma updated_lookup_ne i j e s :
  i ≠ j → endpoints (updated env i e s).1 !! j = endpoints s.1 !! j.
Proof.
  intros Hij. unfold updated. destruct (_ >? _)%Z; simpl; [|done].
  by rewrite list_lookup_insert_ne.
Qed.

Lemma updated_lookup i e s :
  endpoints s.1 !! i = Some e →
  ∃ e', endpoints (updated env i e s).1 !! i = Some e' ∧ url e' = url e.
Proof.
  intros He. unfold updated. destruct (_ >? _)%Z; simpl; [|by eauto].
  eexists. split; [apply list_lookup_insert_eq; by eapply lookup_lt_Some|done].
Qed.

Lemma updated_lookup_eq i e s :
  endpoints s.1 !! i = Some e →
  endpoints (updated env i e s).1 !! i =
    Some (if (Date_now env (ticks s.2) - lastHealthCheck e >? healthCheckInterval)%Z
          then probed (probe_answer env (length (trace s.2)) (url e))
                      (Date_now env (ticks s.2)) e
          else e).
Proof.
  intros He. unfold updated. destruct (_ >? _)%Z; simpl; [|done].
  apply list_lookup_insert_eq. by eapply lookup_lt_Some.
Qed.

(** One round of each loop. *)
Lemma getHealthyConnection_from_S n i s e :
  endpoints s.1 !! i = Some e →
  ∃ e', endpoints (updated env i e s).1 !! i = Some e' ∧ url e' = url e ∧
    getHealthyConnection_from env (S n) i s =
      if isHealthy e' then (Ok (Web3.new_Connection (url e')), updated env i e s)
      else getHealthyConnection_from env n (S i) (updated env i e s).
Proof.
  intros He. destruct (updated_lookup i e s He) as (e' & He' & Hurl).
  exists e'. split_and!; [done..|].
  simpl. unfold bind at 1. rewrite (updateEndpointHealth_eq i e s He).
  unfold bind, endpoint_at. rewrite He'. by destruct (isHealthy e').
Qed.

Lemma getNextHealthyConnection_loop_S n s e :
  endpoints s.1 !! currentEndpointIndex s.1 = Some e →
  let s1 := updated env (currentEndpointIndex s.1) e s in
  ∃ e', endpoints s1.1 !! currentEndpointIndex s.1 = Some e' ∧ url e' = url e ∧
    getNextHealthyConnection_loop env (S n) s =
      if isHealthy e' then (Ok (Web3.new_Connection (url e')), s1)
      else getNextHealthyConnection_loop env n
             (set_currentEndpointIndex
                ((currentEndpointIndex s.1 + 1) `mod` length (endpoints s.1)) s1.1, s1.2).
Proof.
  intros He s1. destruct (updated_lookup _ e s He) as (e' & He' & Hurl).
  exists e'. split_and!; [done..|].
  simpl. unfold bind at 1, gets at 1. unfold bind at 1.
  rewrite (updateEndpointHealth_eq _ e s He).
  unfold bind at 1, endpoint_at. fold s1 in He' |- *. rewrite He'.
  destruct (isHealthy e'); [done|].
  unfold bind, modify. subst s1.
  by rewrite updated_cursor, updated_length.
Qed.

Lemma wrap_succ N c : c < N → (c + 1) `mod` N = wrap N (c + 1).
Proof.
  intros Hc. unfold wrap. case_decide.
  - by apply Nat.mod_small.
  - replace (c + 1) with N by lia. rewrite Nat.Div0.mod_same. lia.
Qed.

(** The priority scan: it answers with a healthy endpoint, or fails with
    the one error after it has found every endpoint from [i] on unhealthy. *)
Lemma getHealthyConnection_from_spec n : ∀ i s r s',
  i + n = length (endpoints s.1) →
  getHealthyConnection_from env n i s = (r, s') →
  length (endpoints s'.1) = length (endpoints s.1) ∧
  currentEndpointIndex s'.1 = currentEndpointIndex s.1 ∧
  (∀ j, j < i → endpoints s'.1 !! j = endpoints s.1 !! j) ∧
  match r with
  | Ok c => ∃ j e, i ≤ j ∧ endpoints s'.1 !! j = Some e ∧ isHealthy e = true ∧
                   c = Web3.new_Connection (url e)
  | Throw err => err = NoHealthyEndpoint ∧
                 ∀ j e, i ≤ j → endpoints s'.1 !! j = Some e → isHealthy e = false
  end.
Proof.
  induction n as [|n IH]; intros i s r s' Hlen Hrun.
  - simpl in Hrun. injection Hrun as <- <-. split_and!; try done.
    intros j e Hj He. apply lookup_lt_Some in He. lia.
  - destruct (lookup_lt_is_Some_2 (endpoints s.1) i) as [e He]; [lia|].
    destruct (getHealthyConnection_from_S n i s e He) as (e' & He' & Hurl & Heq).
    rewrite Heq in Hrun. clear Heq.
    destruct (isHealthy e') eqn:Hh.
    + injection Hrun as <- <-. split_and!.
      * apply updated_length.
      * apply updated_cursor.
      * intros j Hj. apply updated_lookup_ne. lia.
      * exists i, e'. by split_and!.
    + apply IH in Hrun; [|rewrite updated_length; lia].
      destruct Hrun as (Hl & Hc & Hframe & Hr).
      rewrite updated_length in Hl. rewrite updated_cursor in Hc.
      split_and!; [done..| |].
      * intros j Hj. rewrite Hframe by lia. apply updated_lookup_ne. lia.
      * destruct r as [c|err].
        -- destruct Hr as (j & e'' & Hj & Hr). exists j, e''. split; [lia|done].
        -- destruct Hr as [-> Hr]. split; [done|]. intros j e'' Hj He''.
           destruct (decide (j = i)) as [->|Hne].
           ++ rewrite Hframe in He'' by lia. congruence.
           ++ eapply Hr; [|done]. lia.
Qed.

(** The cursor scan: it answers with the healthy endpoint under the cursor,
    or fails with the one error after it has found the [n] endpoints from
    the cursor on (wrapping around) unhealthy. *)
Lemma getNextHealthyConnection_loop_spec n : ∀ s r s',
  wf s.1 → n ≤ length (endpoints s.1) →
  getNextHealthyConnection_loop env n s = (r, s') →
  length (endpoints s'.1) = length (endpoints s.1) ∧
  wf s'.1 ∧
  match r with
  | Ok c => ∃ e, endpoints s'.1 !! currentEndpointIndex s'.1 = Some e ∧
                 isHealthy e = true ∧ c = Web3.new_Connection (url e)
  | Throw err =>
      err = NoHealthyEndpoint ∧
      (∀ k, k < n →
         ∃ e, endpoints s'.1 !! wrap (length (endpoints s.1)) (currentEndpointIndex s.1 + k)
                = Some e ∧ isHealthy e = false) ∧
      (∀ j, (∀ k, k < n → j ≠ wrap (length (endpoints s.1)) (currentEndpointIndex s.1 + k)) →
            endpoints s'.1 !! j = endpoints s.1 !! j)
  end.
Proof.
  induction n as [|n IH]; intros s r s' Hwf Hn Hrun.
  - simpl in Hrun. injection Hrun as <- <-. split_and!; try done.
    intros k Hk. lia.
  - unfold wf in Hwf.
    destruct (lookup_lt_is_Some_2 (endpoints s.1) (currentEndpointIndex s.1)) as [e He]; [done|].
    destruct (getNextHealthyConnection_loop_S n s e He) as (e' & He' & Hurl & Heq).
    rewrite Heq in Hrun. clear Heq.
    set (N := length (endpoints s.1)) in *.
    set (c := currentEndpointIndex s.1) in *.
    destruct (isHealthy e') eqn:Hh.
    + injection Hrun as <- <-. split_and!.
      * apply updated_length.
      * unfold wf. by rewrite updated_length, updated_cursor.
      * exists e'. rewrite updated_cursor. by split_and!.
    + rewrite wrap_succ in Hrun by done.
      apply IH in Hrun; simpl; [|unfold wf; simpl; rewrite updated_length; fold N; unfold wrap; case_decide; lia|rewrite updated_length; fold N; lia].
      simpl in Hrun. rewrite updated_length in Hrun. fold N in Hrun.
      destruct Hrun as (Hl & Hwf' & Hr).
      split_and!; [done..|].
      destruct r as [conn|err]; [done|].
      destruct Hr as (-> & Hvis & Hframe). split_and!; [done| |].
      * intros k Hk. destruct k as [|k].
        -- exists e'. split; [|done].
           replace (wrap N (c + 0)) with c by (unfold wrap; case_decide; lia).
           rewrite Hframe; [done|].
           intros k Hk'. unfold wrap. repeat case_decide; lia.
        -- destruct (Hvis k) as (e'' & He'' & Hh''); [lia|].
           exists e''. split; [|done]. rewrite <- He''. f_equal.
           unfold wrap. repeat case_decide; lia.
      * intros j Hj. rewrite Hframe.
        -- apply updated_lookup_ne. specialize (Hj 0). unfold wrap in Hj.
           case_decide; lia.
        -- intros k Hk. specialize (Hj (S k)). unfold wrap in *.
           repeat case_decide; lia.
Qed.

(** When the cursor scan answers, the cursor has moved from its start over
    the endpoints it found unhealthy, and over no other. *)
Lemma getNextHealthyConnection_loop_skips n : ∀ s c s',
  wf s.1 → n ≤ length (endpoints s.1) →
  getNextHealthyConnection_loop env n s = (Ok c, s') →
  ∃ j, j < n ∧
       currentEndpointIndex s'.1
         = wrap (length (endpoints s.1)) (currentEndpointIndex s.1 + j) ∧
       (∀ k, k < j →
          ∃ e, endpoints s'.1 !! wrap (length (endpoints s.1)) (currentEndpointIndex s.1 + k)
                 = Some e ∧ isHealthy e = false) ∧
       (∀ i, (∀ k, k ≤ j → i ≠ wrap (length (endpoints s.1)) (currentEndpointIndex s.1 + k)) →
             endpoints s'.1 !! i = endpoints s.1 !! i).
Proof.
  induction n as [|n IH]; intros s conn s' Hwf Hn Hrun; [done|].
  unfold wf in Hwf.
  destruct (lookup_lt_is_Some_2 (endpoints s.1) (currentEndpointIndex s.1)) as [e He]; [done|].
  destruct (getNextHealthyConnection_loop_S n s e He) as (e' & He' & Hurl & Heq).
  rewrite Heq in Hrun. clear Heq.
  set (N := length (endpoints s.1)) in *.
  set (c := currentEndpointIndex s.1) in *.
  destruct (isHealthy e') eqn:Hh.
  - injection Hrun as _ <-. exists 0. split_and!.
    + lia.
    + rewrite updated_cursor. fold c. unfold wrap. case_decide; lia.
    + intros k Hk. lia.
    + intros i Hi. apply updated_lookup_ne. specialize (Hi 0). unfold wrap in Hi.
      fold c. case_decide; lia.
  - rewrite wrap_succ in Hrun by done.
    apply IH in Hrun; simpl;
      [|unfold wf; simpl; rewrite updated_length; fold N; unfold wrap; case_decide; lia
       |rewrite updated_length; fold N; lia].
    simpl in Hrun. rewrite updated_length in Hrun. fold N in Hrun.
    destruct Hrun as (j & Hj & Hcur & Hvis & Hframe).
    exists (S j). split_and!.
    + lia.
    + rewrite Hcur. unfold wrap. repeat case_decide; lia.
    + intros k Hk. destruct k as [|k].
      * exists e'. split; [|done].
        replace (wrap N (c + 0)) with c by (unfold wrap; case_decide; lia).
        rewrite Hframe; [done|].
        intros k Hk'. unfold wrap. repeat case_decide; lia.
      * destruct (Hvis k) as (e'' & He'' & Hh''); [lia|].
        exists e''. split; [|done]. rewrite <- He''. f_equal.
        unfold wrap. repeat case_decide; lia.
    + intros i Hi. rewrite Hframe.
      * apply updated_lookup_ne. specialize (Hi 0). unfold wrap in Hi.
        fold c. case_decide; lia.
      * intros k Hk. specialize (Hi (S k)). unfold wrap in *.
        repeat case_decide; lia.
Qed.

Lemma getNextHealthyConnection_loop_wf n s c s' :
  getNextHealthyConnection_loop env n s = (Ok c, s') → n ≠ 0 ∧ wf s.1.
Proof.
  destruct n as [|n]; [done|]. intros Hrun. split; [done|].
  unfold wf. apply lookup_lt_is_Some.
  destruct (endpoints s.1 !! currentEndpointIndex s.1) as [e|] eqn:He; [by eexists|].
  exfalso. simpl in Hrun.
  unfold bind at 1, gets at 1 in Hrun. unfold bind at 1 in Hrun.
  unfold updateEndpointHealth, bind, on_snd, now, endpoint_at in Hrun.
  simpl in Hrun. by rewrite He in Hrun.
Qed.
End WithEnv.

Section Quiet.
Context (env : Env).

Lemma updated_account_fetches i e s :
  ProgramSpec.account_fetches (updated env i e s).2 = ProgramSpec.account_fetches s.2.
Proof.
  unfold updated. destruct (_ >? _)%Z; simpl; [|done].
  rewrite account_fetches_log. simpl. rewrite account_fetches_set_ticks. lia.
Qed.

(** A selection sends probes only. *)
Lemma getNextHealthyConnection_loop_account_fetches n : ∀ s r s',
  getNextHealthyConnection_loop env n s = (r, s') →
  ProgramSpec.account_fetches s'.2 = ProgramSpec.account_fetches s.2.
Proof.
  induction n as [|n IH]; intros s r s' Hrun.
  - simpl in Hrun. by injection Hrun as <- <-.
  - destruct (endpoints s.1 !! currentEndpointIndex s.1) as [e|] eqn:He.
    + destruct (getNextHealthyConnection_loop_S env n s e He) as (e' & He' & Hurl & Heq).
      rewrite Heq in Hrun. clear Heq.
      destruct (isHealthy e').
      * injection Hrun as <- <-. apply updated_account_fetches.
      * apply IH in Hrun. simpl in Hrun. by rewrite Hrun, updated_account_fetches.
    + simpl in Hrun. unfold bind at 1, gets at 1 in Hrun. unfold bind at 1 in Hrun.
      unfold updateEndpointHealth, bind, on_snd, now, endpoint_at in Hrun.
      simpl in Hrun. rewrite He in Hrun. by injection Hrun as <- <-.
Qed.
End Quiet.

Section Probing.
Context (env : Env).
(** The clock reads a date later than five minutes after the epoch. *)
Hypothesis clock : ∀ n, (healthCheckInterval < Date_now env n)%Z.

Lemma backed_mono w w' u :
  trace w `prefix_of` trace w' → backed env w u → backed env w' u.
Proof.
  intros Hpre (n & v & Hn & Hv). exists n, v. split; [|done].
  by eapply prefix_lookup_Some.
Qed.

Lemma updated_trace_prefix i e s :
  trace s.2 `prefix_of` trace (updated env i e s).2.
Proof.
  unfold updated. destruct (_ >? _)%Z; simpl; [|done]. by apply prefix_app_r.
Qed.

(** After its health check, the flag of the endpoint comes from a probe. *)
Lemma updated_backed i e s :
  endpoints s.1 !! i = Some e →
  vouched env s.2 e →
  ∃ e', endpoints (updated env i e s).1 !! i = Some e' ∧ url e' = url e ∧
        lastHealthCheck e' ≠ 0%Z ∧
        (isHealthy e' = true → backed env (updated env i e s).2 (url e')).
Proof.
  intros He Hv. rewrite (updated_lookup_eq env i e s He).
  eexists. split; [done|].
  pose proof (clock (ticks s.2)) as Hclock.
  unfold updated. destruct (Z.gtb_spec (Date_now env (ticks s.2) - lastHealthCheck e)
                              healthCheckInterval) as [Hopen|Hclosed]; simpl.
  - split_and!; [done|unfold healthCheckInterval in *; lia|].
    unfold probe_answer. intros Hh.
    destruct (rpc_getSlot env (length (trace s.2)) (url e)) as [v|] eqn:Hv'; [|done].
    exists (length (trace s.2)), v. split_and!; [|done|].
    + unfold log_event. simpl. rewrite lookup_app_r by done. by rewrite Nat.sub_diag.
    + destruct (Z.leb_spec v 0); [done|lia].
  - destruct Hv as [Hz|Hv]; [lia|]. split_and!; [done|lia|done].
Qed.

Lemma updated_vouched i e s :
  endpoints s.1 !! i = Some e →
  Forall (vouched env s.2) (endpoints s.1) →
  Forall (vouched env (updated env i e s).2) (endpoints (updated env i e s).1).
Proof.
  intros He Hall. apply Forall_lookup. intros j e' He'.
  destruct (decide (i = j)) as [<-|Hne].
  - destruct (updated_backed i e s He) as (e'' & He'' & _ & _ & Hb).
    { by eapply Forall_lookup_1. }
    rewrite He' in He''. injection He'' as <-. by right.
  - rewrite updated_lookup_ne in He' by done.
    rewrite Forall_lookup in Hall. destruct (Hall j e' He') as [Hz|Hb]; [by left|].
    right. intros Hh. eapply backed_mono; [apply updated_trace_prefix|by apply Hb].
Qed.

Lemma getHealthyConnection_from_backed n : ∀ i s r s',
  i + n = length (endpoints s.1) →
  Forall (vouched env s.2) (endpoints s.1) →
  getHealthyConnection_from env n i s = (r, s') →
  Forall (vouched env s'.2) (endpoints s'.1) ∧
  ∀ c, r = Ok c → backed env s'.2 (Web3.rpcEndpoint c).
Proof.
  induction n as [|n IH]; intros i s r s' Hlen Hall Hrun.
  - simpl in Hrun. by injection Hrun as <- <-.
  - destruct (lookup_lt_is_Some_2 (endpoints s.1) i) as [e He]; [lia|].
    destruct (getHealthyConnection_from_S env n i s e He) as (e' & He' & Hurl & Heq).
    rewrite Heq in Hrun. clear Heq.
    destruct (updated_backed i e s He) as (e'' & He'' & _ & _ & Hb).
    { by eapply Forall_lookup_1. }
    rewrite He' in He''. injection He'' as <-.
    pose proof (updated_vouched i e s He Hall) as Hall'.
    destruct (isHealthy e') eqn:Hh.
    + injection Hrun as <- <-. split; [done|]. intros c [= <-]. by apply Hb.
    + eapply IH; [|done..]. rewrite updated_length. lia.
Qed.

Lemma getNextHealthyConnection_loop_backed n : ∀ s r s',
  wf s.1 →
  Forall (vouched env s.2) (endpoints s.1) →
  getNextHealthyConnection_loop env n s = (r, s') →
  Forall (vouched env s'.2) (endpoints s'.1) ∧
  ∀ c, r = Ok c → backed env s'.2 (Web3.rpcEndpoint c).
Proof.
  induction n as [|n IH]; intros s r s' Hwf Hall Hrun.
  - simpl in Hrun. by injection Hrun as <- <-.
  - unfold wf in Hwf.
    destruct (lookup_lt_is_Some_2 (endpoints s.1) (currentEndpointIndex s.1)) as [e He]; [done|].
    destruct (getNextHealthyConnection_loop_S env n s e He) as (e' & He' & Hurl & Heq).
    rewrite Heq in Hrun. clear Heq.
    destruct (updated_backed _ e s He) as (e'' & He'' & _ & _ & Hb).
    { by eapply Forall_lookup_1. }
    rewrite He' in He''. injection He'' as <-.
    pose proof (updated_vouched _ e s He Hall) as Hall'.
    destruct (isHealthy e') eqn:Hh.
    + injection Hrun as <- <-. split; [done|]. intros c [= <-]. by apply Hb.
    + eapply IH; [| |done]; simpl; [|done].
      unfold wf. simpl. rewrite updated_length. apply Nat.mod_upper_bound. lia.
Qed.
End Probing.

(** C10. The constructor makes every endpoint with [isHealthy = true] and
    [lastHealthCheck = 0]. The test of [updateEndpointHealth] compares
    [now - lastHealthCheck] with five minutes, so, the clock reading a date
    later than five minutes after the epoch, the health check of an endpoint
    with [lastHealthCheck = 0] always sends a probe and sets the flag from its
    answer. Hence, from the state the constructor makes on, whichever calls
    are made: a connection that a selection policy returns is to an endpoint
    that a probe in the history found healthy; the initial flag alone is never
    acted on. *)
Theorem initial_health_flag_is_never_trusted (env : Env) :
  (∀ n, (healthCheckInterval < Date_now env n)%Z) →
  healthCheckInterval = 300000%Z ∧
  (∀ penv svc, constructor penv = Ok svc →
     Forall fresh (endpoints svc) ∧ wf svc ∧
     ∀ w, Forall (vouched env w) (endpoints svc)) ∧
  (∀ i s e, endpoints s.1 !! i = Some e → lastHealthCheck e = 0%Z →
     ∃ s', updateEndpointHealth env i s = (Ok tt, s') ∧
           trace s'.2 = trace s.2 ++ [GetSlot (url e)] ∧
           endpoints s'.1 !! i =
             Some (probed (probe_answer env (length (trace s.2)) (url e))
                          (Date_now env (ticks s.2)) e)) ∧
  (∀ s r s', wf s.1 → Forall (vouched env s.2) (endpoints s.1) →
     getHealthyConnection env s = (r, s') ∨ getNextHealthyConnection env s = (r, s') →
     wf s'.1 ∧ Forall (vouched env s'.2) (endpoints s'.1) ∧
     ∀ c, r = Ok c → backed env s'.2 (Web3.rpcEndpoint c)).
Proof.
  intros clock. split_and!.
  - done.
  - intros penv svc Hnew. destruct (constructor_fresh penv svc Hnew) as (Hfresh & Hcur & Hlen).
    split_and!; [done|unfold wf; lia|].
    intros w. eapply Forall_impl; [exact Hfresh|]. intros e [_ Hz]. by left.
  - intros i s e He Hz. eexists. split; [by apply updateEndpointHealth_eq|].
    pose proof (clock (ticks s.2)) as Hclock.
    rewrite (updated_lookup_eq env i e s He). unfold updated.
    destruct (Z.gtb_spec (Date_now env (ticks s.2) - lastHealthCheck e)
                healthCheckInterval) as [Hopen|Hclosed]; [done|lia].
  - intros s r s' Hwf Hall [Hrun|Hrun].
    + unfold getHealthyConnection in Hrun.
      pose proof (getHealthyConnection_from_spec env _ 0 s r s' eq_refl Hrun) as (Hl & Hc & _).
      split; [unfold wf in *; lia|].
      exact (getHealthyConnection_from_backed env clock _ 0 s r s' eq_refl Hall Hrun).
    + unfold getNextHealthyConnection in Hrun.
      pose proof (getNextHealthyConnection_loop_spec env _ _ _ _ Hwf (le_n _) Hrun) as (_ & Hwf' & _).
      split; [done|].
      exact (getNextHealthyConnection_loop_backed env clock _ s r s' Hwf Hall Hrun).
Qed.

Lemma initial_health_flag_is_never_trusted_witness :
  (∀ n, (healthCheckInterval < Date_now Sample.env_up n)%Z) ∧
  backed Sample.env_up
    (getNextHealthyConnection Sample.env_up (Sample.rpc2, Sample.world)).2.2
    "http://main-endpoint.test".
Proof.
  assert (Hclock : ∀ n, (healthCheckInterval < Date_now Sample.env_up n)%Z).
  { intros n. unfold healthCheckInterval, Sample.env_up, Sample.NOW. simpl. lia. }
  split; [exact Hclock|].
  destruct (initial_health_flag_is_never_trusted Sample.env_up Hclock)
    as (_ & Hnew & _ & Hsel).
  destruct (Hnew Sample.penv2 Sample.rpc2 eq_refl) as (_ & Hwf & Hv).
  destruct (getNextHealthyConnection Sample.env_up (Sample.rpc2, Sample.world))
    as [r s'] eqn:Hrun.
  destruct (Hsel (Sample.rpc2, Sample.world) r s' Hwf (Hv _) (or_intror Hrun))
    as (_ & _ & Hb).
  apply (Hb (Web3.new_Connection "http://main-endpoint.test")).
  vm_compute in Hrun. by injection Hrun as <- _.
Defined.

(** C2. When every endpoint has been tried and none is healthy, both
    selection policies, [getHealthyConnection] and [getNextHealthyConnection],
    fail, and with the same [Error] "No healthy RPC endpoints available": it
    is the only failure either of them has, it is raised exactly when all the
    endpoints are unhealthy after the call's health checks, and its message
    is that of no other error that the services raise, so a caller can tell
    it apart. *)
Theorem selection_fails_with_no_healthy_endpoint (env : Env) (s : RpcService * World) :
  wf s.1 →
  (∀ r s', getHealthyConnection env s = (r, s') →
     (r = Throw NoHealthyEndpoint ↔ Forall unhealthy (endpoints s'.1)) ∧
     (∀ err, r = Throw err → err = NoHealthyEndpoint)) ∧
  (∀ r s', getNextHealthyConnection env s = (r, s') →
     (r = Throw NoHealthyEndpoint ↔ Forall unhealthy (endpoints s'.1)) ∧
     (∀ err, r = Throw err → err = NoHealthyEndpoint)) ∧
  NoHealthyEndpoint ∉ other_errors.
Proof.
  intros Hwf. split_and!.
  - intros r s' Hrun. unfold getHealthyConnection in Hrun.
    apply getHealthyConnection_from_spec in Hrun; [|done].
    destruct Hrun as (_ & _ & _ & Hr). destruct r as [c|err].
    + destruct Hr as (j & e & _ & He & Hh & _). split; [|done].
      split; [done|]. intros Hall.
      rewrite Forall_lookup in Hall. specialize (Hall j e He).
      unfold unhealthy in Hall. congruence.
    + destruct Hr as [-> Hr]. split; [|by intros ? [= <-]].
      split; [|done]. intros _. apply Forall_lookup. intros j e He.
      eapply Hr; [|done]. lia.
  - intros r s' Hrun. unfold getNextHealthyConnection in Hrun.
    apply getNextHealthyConnection_loop_spec in Hrun; [|done..].
    destruct Hrun as (Hlen & Hwf' & Hr). destruct r as [c|err].
    + destruct Hr as (e & He & Hh & _). split; [|done].
      split; [done|]. intros Hall.
      rewrite Forall_lookup in Hall. specialize (Hall _ e He).
      unfold unhealthy in Hall. congruence.
    + destruct Hr as (-> & Hvis & _). split; [|by intros ? [= <-]].
      split; [|done]. intros _. apply Forall_lookup. intros j e He.
      unfold wf in Hwf.
      assert (Hj : j < length (endpoints s.1)).
      { rewrite <- Hlen. by eapply lookup_lt_Some. }
      set (N := length (endpoints s.1)) in *.
      set (c := currentEndpointIndex s.1) in *.
      destruct (Hvis (if decide (c ≤ j) then j - c else j + N - c)) as (e' & He' & Hh).
      { case_decide; lia. }
      replace (wrap N _) with j in He'; [congruence|].
      unfold wrap. repeat case_decide; lia.
  - unfold other_errors, NoHealthyEndpoint. intros H.
    repeat (apply elem_of_cons in H as [H|H]; [discriminate H|]).
    by apply elem_of_nil in H.
Qed.

Lemma selection_fails_with_no_healthy_endpoint_witness :
  wf Sample.rpc2 ∧
  getHealthyConnection Sample.env_down (Sample.rpc2, Sample.world)
    = (Throw NoHealthyEndpoint,
       (getHealthyConnection Sample.env_down (Sample.rpc2, Sample.world)).2) ∧
  getNextHealthyConnection Sample.env_down (Sample.rpc2, Sample.world)
    = (Throw NoHealthyEndpoint,
       (getNextHealthyConnection Sample.env_down (Sample.rpc2, Sample.world)).2).
Proof.
  assert (Hwf : wf Sample.rpc2) by (unfold wf; simpl; lia).
  destruct (selection_fails_with_no_healthy_endpoint
              Sample.env_down (Sample.rpc2, Sample.world) Hwf) as (H1 & H2 & _).
  split_and!; [exact Hwf| |].
  - destruct (getHealthyConnection _ _) as [r s'] eqn:Hrun.
    destruct (H1 r s' eq_refl) as [Hiff _]. simpl. f_equal. apply Hiff.
    injection Hrun as _ <-. vm_compute. repeat constructor.
  - destruct (getNextHealthyConnection _ _) as [r s'] eqn:Hrun.
    destruct (H2 r s' eq_refl) as [Hiff _]. simpl. f_equal. apply Hiff.
    injection Hrun as _ <-. vm_compute. repeat constructor.
Defined.

(** The extent of the defect of the cursor policy. [getNextHealthyConnection]
    advances the cursor only past an endpoint that it finds unhealthy (the
    increment comes after the [return], and the [startIndex] it records is
    never read): it returns the first endpoint found healthy and leaves the
    cursor on it, not after it. So the next call starts on that endpoint,
    and as long as its health check (the value kept for five minutes, or a
    new probe) still finds it healthy, returns it again. *)
Theorem next_healthy_is_sticky (env : Env) (s s1 : RpcService * World)
    (c : Web3.Connection) :
  getNextHealthyConnection env s = (Ok c, s1) →
  let N := length (endpoints s.1) in
  (∃ j, j < N ∧
        currentEndpointIndex s1.1 = wrap N (currentEndpointIndex s.1 + j) ∧
        ∀ k, k < j → ∃ e, endpoints s1.1 !! wrap N (currentEndpointIndex s.1 + k) = Some e ∧
                          isHealthy e = false) ∧
  ∃ e, endpoints s1.1 !! currentEndpointIndex s1.1 = Some e ∧
       isHealthy e = true ∧
       c = Web3.new_Connection (url e) ∧
       let s2 := updated env (currentEndpointIndex s1.1) e s1 in
       currentEndpointIndex s2.1 = currentEndpointIndex s1.1 ∧
       ∀ e', endpoints s2.1 !! currentEndpointIndex s1.1 = Some e' →
             isHealthy e' = true →
             getNextHealthyConnection env s1 = (Ok c, s2).
Proof.
  intros Hrun N. unfold getNextHealthyConnection in Hrun.
  destruct (getNextHealthyConnection_loop_wf env _ _ _ _ Hrun) as [HN Hwf].
  split.
  { destruct (getNextHealthyConnection_loop_skips env _ _ _ _ Hwf (le_n _) Hrun)
      as (j & Hj & Hcur & Hvis & _).
    exists j. by split_and!. }
  apply getNextHealthyConnection_loop_spec in Hrun; [|done..].
  destruct Hrun as (Hlen & Hwf1 & e & He & Hh & ->).
  exists e. split_and!; [done..|]. intros s2. split; [apply updated_cursor|].
  intros e' He' Hh'. unfold getNextHealthyConnection.
  destruct (length (endpoints s1.1)) as [|n] eqn:HN1; [subst N; lia|].
  destruct (getNextHealthyConnection_loop_S env n s1 e He) as (e'' & He'' & Hurl & ->).
  fold s2 in He''. rewrite He' in He''. injection He'' as <-.
  by rewrite Hh', Hurl.
Qed.

Lemma next_healthy_is_sticky_witness :
  getNextHealthyConnection Sample.env_up (Sample.rpc2, Sample.world)
    = (Ok (Web3.new_Connection "http://main-endpoint.test"),
       (getNextHealthyConnection Sample.env_up (Sample.rpc2, Sample.world)).2) ∧
  ∃ s1 s2,
    getNextHealthyConnection Sample.env_up (Sample.rpc2, Sample.world)
      = (Ok (Web3.new_Connection "http://main-endpoint.test"), s1) ∧
    getNextHealthyConnection Sample.env_up s1
      = (Ok (Web3.new_Connection "http://main-endpoint.test"), s2).
Proof.
  assert (Hrun : getNextHealthyConnection Sample.env_up (Sample.rpc2, Sample.world)
    = (Ok (Web3.new_Connection "http://main-endpoint.test"),
       (getNextHealthyConnection Sample.env_up (Sample.rpc2, Sample.world)).2))
    by (vm_compute; reflexivity).
  split; [exact Hrun|].
  destruct (next_healthy_is_sticky _ _ _ _ Hrun) as (_ & e & He & Hh & Hc & Hcur & Hnext).
  eexists _, _. split; [exact Hrun|].
  vm_compute in He. injection He as <-.
  eapply Hnext; vm_compute; reflexivity.
Defined.

(** C1. The selection that the README documents as round-robin does not
    rotate: with a primary and one backup, both healthy, two calls in a row
    of [getNextHealthyConnection] both return the primary, where the claim
    has the second call return the backup. *)
Lemma next_healthy_does_not_rotate :
  ¬ (∀ (env : Env) (s s1 s2 : RpcService * World) (c1 c2 : Web3.Connection),
       getNextHealthyConnection env s = (Ok c1, s1) →
       getNextHealthyConnection env s1 = (Ok c2, s2) →
       1 < length (filter (λ e, isHealthy e = true) (endpoints s2.1)) →
       c1 ≠ c2).
Proof.
  intros Hrot.
  pose (s0 := (Sample.rpc2, Sample.world)).
  pose (r1 := getNextHealthyConnection Sample.env_up s0).
  pose (r2 := getNextHealthyConnection Sample.env_up r1.2).
  apply (Hrot Sample.env_up s0 r1.2 r2.2
              (Web3.new_Connection "http://main-endpoint.test")
              (Web3.new_Connection "http://main-endpoint.test")).
  - vm_compute. reflexivity.
  - vm_compute. reflexivity.
  - vm_compute. lia.
  - reflexivity.
Qed.

End RpcFacts.

(** ** The cache store *)

Module CacheFacts.
Import Entry Cache.

Ltac run :=
  unfold bind, try_catch, on_snd, gets, modify, ret, throw, set_cache,
    existsSync_dir, existsSync_file, mkdirSync, readFileSync, writeFileSync,
    storage, now, log_event, set_disk, set_trace, set_ticks; simpl.

Section WithEnv.
Context (env : Env).

Lemma filter_network_snoc tr ev :
  is_network ev = false →
  filter (λ ev, is_network ev = true) (tr ++ [ev])
  = filter (λ ev, is_network ev = true) tr.
Proof.
  intros Hev. rewrite filter_app, filter_cons_False by congruence.
  by rewrite filter_nil, app_nil_r.
Qed.

(** [saveCache] never throws and leaves the map as it is. *)
Lemma saveCache_ok s :
  ∃ w', saveCache env s = (Ok tt, (s.1, w')) ∧ ticks w' = ticks s.2 ∧
        trace s.2 `prefix_of` trace w' ∧
        network_requests w' = network_requests s.2.
Proof.
  destruct s as [c [t tr [dir file]]]. unfold saveCache, network_requests. run.
  destruct dir; simpl.
  - destruct (fs_fault env (length tr)); simpl;
      (eexists; split_and!; [done|done|by apply prefix_app_r|]);
      simpl; by rewrite filter_network_snoc.
  - destruct (fs_fault env (length tr)); simpl.
    + eexists; split_and!; [done|done|by apply prefix_app_r|].
      simpl. by rewrite filter_network_snoc.
    + destruct (fs_fault env (length (tr ++ [MkdirSync]))); simpl;
        (eexists; split_and!;
         [done|done|by simpl; rewrite <- app_assoc; apply prefix_app_r|]);
        simpl; by rewrite !filter_network_snoc.
Qed.

(** Without storage faults, [saveCache] leaves the document of the map in
    the file, by one write, after making the directory if need be. *)
Lemma saveCache_persists s :
  (∀ n, fs_fault env n = None) →
  ∃ w', saveCache env s = (Ok tt, (s.1, w')) ∧
        fileContent (disk w') = Some (JSON_stringify env (cache s.1)) ∧
        trace w' = trace s.2 ++ (if dirExists (disk s.2) then [] else [MkdirSync])
                             ++ [WriteFileSync (JSON_stringify env (cache s.1))].
Proof.
  intros Hfs. destruct s as [c [t tr [dir file]]]. unfold saveCache. run.
  destruct dir; simpl; rewrite ?Hfs; simpl; rewrite ?Hfs; simpl.
  - by eexists.
  - eexists. split_and!; [done..|]. by rewrite <- app_assoc.
Qed.

(** [cacheDeployment] never throws and sends nothing. *)
Lemma cacheDeployment_ok pid sig sl ts isPD pda s :
  ∃ c' w', cacheDeployment env pid sig sl ts isPD pda s = (Ok tt, (c', w')) ∧
           network_requests w' = network_requests s.2.
Proof.
  unfold cacheDeployment.
  unfold bind at 1, on_snd at 1, now. simpl.
  unfold bind at 1, gets at 1. unfold bind at 1, set_cache at 1, modify. simpl.
  destruct (saveCache_ok (Build_CacheService
    (<[pid := Build_CacheEntry pid sig sl ts (Date_now env (ticks s.2)) (Some isPD) pda]>
       (cache s.1)), set_ticks (S (ticks s.2)) s.2)) as (w' & Hsave & _ & _ & Hnet).
  rewrite Hsave. by eexists _, _.
Qed.

(** A read of the cache never throws and sends nothing. *)
Lemma getCachedDeployment_ok pid s :
  ∃ o c' w', getCachedDeployment env pid s = (Ok o, (c', w')) ∧
             network_requests w' = network_requests s.2.
Proof.
  unfold getCachedDeployment. unfold bind at 1, gets at 1.
  destruct (cache s.1 !! pid) as [entry|]; [|destruct s; by eexists _, _, _].
  unfold bind at 1, on_snd at 1, now. simpl.
  destruct (_ >? _)%Z; [|destruct s; by eexists _, _, _].
  unfold bind at 1, set_cache at 1, modify. simpl.
  destruct (saveCache_ok (Build_CacheService (delete pid (cache s.1)),
                          set_ticks (S (ticks s.2)) s.2)) as (w' & Hsave & _ & _ & Hnet).
  unfold bind. rewrite Hsave. by eexists _, _, _.
Qed.

(** [loadCache] never throws. *)
Lemma loadCache_ok s : ∃ s', loadCache env s = (Ok tt, s').
Proof.
  destruct s as [c [t tr [dir file]]]. unfold loadCache. run.
  destruct dir; simpl.
  - destruct file as [data|]; simpl; [|by eexists].
    destruct (fs_fault env (length tr)); simpl; [by eexists|].
    destruct (JSON_parse_entries env data); by eexists.
  - destruct (fs_fault env (length tr)); simpl; [by eexists|].
    destruct file as [data|]; simpl; [|by eexists].
    destruct (fs_fault env (length (tr ++ [MkdirSync]))); simpl; [by eexists|].
    destruct (JSON_parse_entries env data); by eexists.
Qed.

(** On a file that does not parse, [loadCache] ends with the empty map. *)
Lemma loadCache_unparsable s data err :
  fileContent (disk s.2) = Some data →
  JSON_parse_entries env data = Throw err →
  ∃ w', loadCache env s = (Ok tt, ({| cache := ∅ |}, w')).
Proof.
  destruct s as [c [t tr [dir file]]]. simpl. intros -> Hparse.
  unfold loadCache. run.
  destruct dir; simpl.
  - destruct (fs_fault env (length tr)); simpl; [by eexists|].
    rewrite Hparse. by eexists.
  - destruct (fs_fault env (length tr)); simpl; [by eexists|].
    destruct (fs_fault env (length (tr ++ [MkdirSync]))); simpl; [by eexists|].
    rewrite Hparse. by eexists.
Qed.
End WithEnv.

(** C9. Constructing the cache service never raises, whatever the file holds
    and whatever the storage does. When the content of the file does not
    parse (the text "not json", say), the service starts with an empty cache,
    and [getCacheStats] then reports a total of 0 (and 0 valid, 0 expired). *)
Theorem corrupted_cache_file_is_discarded (env : Env) (w : World) :
  (∃ c w', constructor env w = (Ok c, w')) ∧
  ∀ data err,
    fileContent (disk w) = Some data →
    JSON_parse_entries env data = Throw err →
    ∃ w', constructor env w = (Ok {| cache := ∅ |}, w') ∧
          ∀ w'', ∃ w3, getCacheStats env ({| cache := ∅ |}, w'')
                       = (Ok {| total := 0; valid := 0; expired := 0 |}, w3).
Proof.
  split.
  - unfold constructor.
    destruct (loadCache_ok env ({| cache := ∅ |}, w)) as [[c w'] ->]. by eexists _, _.
  - intros data err Hfile Hparse. unfold constructor.
    destruct (loadCache_unparsable env ({| cache := ∅ |}, w) data err Hfile Hparse)
      as [w' ->].
    exists w'. split; [done|]. intros w''. unfold getCacheStats. run.
    rewrite map_fold_empty, map_size_empty. by eexists.
Qed.

Lemma corrupted_cache_file_is_discarded_witness :
  fileContent (disk Sample.world_corrupted) = Some "not json" ∧
  JSON_parse_entries Sample.env_up "not json" = Throw (Error "Unexpected token in JSON") ∧
  ∃ w', constructor Sample.env_up Sample.world_corrupted = (Ok {| cache := ∅ |}, w').
Proof.
  assert (Hfile : fileContent (disk Sample.world_corrupted) = Some "not json")
    by reflexivity.
  assert (Hparse : JSON_parse_entries Sample.env_up "not json"
                   = Throw (Error "Unexpected token in JSON")) by reflexivity.
  split_and!; [exact Hfile|exact Hparse|].
  destruct (corrupted_cache_file_is_discarded Sample.env_up Sample.world_corrupted)
    as [_ Hbad].
  destruct (Hbad _ _ Hfile Hparse) as (w' & Hnew & _). by exists w'.
Defined.

(** C8. A read of a record whose age [now - lastChecked] exceeds the 24 hours
    of [cacheValidityPeriod] returns nothing; the read removes the record
    from the map and calls [saveCache] at once, with no network request:
    storage permitting, the file then holds the document of the map without
    the record, written by this very read. *)
Theorem expired_entry_is_evicted (env : Env) (programId : string)
    (s : CacheService * World) (entry : CacheEntry) :
  cache s.1 !! programId = Some entry →
  (Date_now env (ticks s.2) - lastChecked entry > cacheValidityPeriod)%Z →
  let evicted := {| cache := delete programId (cache s.1) |} in
  cacheValidityPeriod = 86400000%Z ∧
  ∃ w', getCachedDeployment env programId s = (Ok None, (evicted, w')) ∧
        cache evicted !! programId = None ∧
        saveCache env (evicted, set_ticks (S (ticks s.2)) s.2) = (Ok tt, (evicted, w')) ∧
        network_requests w' = network_requests s.2 ∧
        ((∀ n, fs_fault env n = None) →
           fileContent (disk w') = Some (JSON_stringify env (cache evicted)) ∧
           trace w' = trace s.2 ++ (if dirExists (disk s.2) then [] else [MkdirSync])
                                ++ [WriteFileSync (JSON_stringify env (cache evicted))]).
Proof.
  intros Hentry Hold evicted. split; [done|].
  destruct (saveCache_ok env (evicted, set_ticks (S (ticks s.2)) s.2))
    as (w' & Hsave & _ & _ & Hnet).
  exists w'. split_and!.
  - unfold getCachedDeployment. unfold bind at 1, gets at 1. rewrite Hentry.
    unfold bind at 1, on_snd at 1, now. simpl.
    destruct (Z.gtb_spec (Date_now env (ticks s.2) - lastChecked entry)
                cacheValidityPeriod) as [_|]; [|lia].
    unfold bind at 1, set_cache at 1, modify. simpl.
    unfold bind. fold evicted. simpl in Hsave. by rewrite Hsave.
  - apply lookup_delete_eq.
  - exact Hsave.
  - exact Hnet.
  - intros Hfs.
    destruct (saveCache_persists env (evicted, set_ticks (S (ticks s.2)) s.2) Hfs)
      as (w'' & Hsave' & Hfile & Htrace).
    rewrite Hsave in Hsave'. injection Hsave' as <-. by split.
Qed.

Lemma expired_entry_is_evicted_witness :
  cache Sample.cache_stale !! Sample.PROGRAM
    = Some (Sample.entry_at (Sample.NOW - 25 * Sample.HOUR)) ∧
  (Date_now Sample.env_up 0 - (Sample.NOW - 25 * Sample.HOUR) > cacheValidityPeriod)%Z ∧
  ∃ w', getCachedDeployment Sample.env_up Sample.PROGRAM
          (Sample.cache_stale, Sample.world)
        = (Ok None, ({| cache := delete Sample.PROGRAM (cache Sample.cache_stale) |}, w')) ∧
        fileContent (disk w') = Some "{}".
Proof.
  assert (Hentry : cache Sample.cache_stale !! Sample.PROGRAM
                   = Some (Sample.entry_at (Sample.NOW - 25 * Sample.HOUR)))
    by (vm_compute; reflexivity).
  assert (Hold : (Date_now Sample.env_up 0 - (Sample.NOW - 25 * Sample.HOUR)
                  > cacheValidityPeriod)%Z) by (vm_compute; reflexivity).
  split_and!; [exact Hentry|exact Hold|].
  destruct (expired_entry_is_evicted Sample.env_up Sample.PROGRAM
              (Sample.cache_stale, Sample.world) _ Hentry Hold)
    as (_ & w' & Hget & _ & _ & _ & Hfile).
  exists w'. split; [exact Hget|].
  destruct (Hfile (λ _, eq_refl)) as [-> _]. vm_compute. reflexivity.
Defined.

End CacheFacts.

(** ** The deployment detector *)

Module ProgramFacts.
Import Program ProgramSpec.

Section Scan.
Context (env : Env) (connection : Web3.Connection) (programId : string).

Lemma scan_cons sig rest w :
  scan env connection programId (sig :: rest) w =
    match rpc_getParsedTransaction env (length (trace w))
            (Web3.rpcEndpoint connection) (Web3.signature sig) with
    | Ok tx => if is_deployment_tx programId tx
               then (Ok (Some (found sig)), log_event (fetch_event connection sig) w)
               else scan env connection programId rest (log_event (fetch_event connection sig) w)
    | Throw e => (Throw e, log_event (fetch_event connection sig) w)
    end.
Proof.
  simpl. unfold bind, getParsedTransaction, request, is_deployment_tx.
  destruct (rpc_getParsedTransaction _ _ _ _) as [tx|]; [|done].
  destruct (tx_logMessages tx) as [logs|]; [|done].
  by destruct (existsb _ logs).
Qed.

(** The walk over the sorted signatures: it passes the transactions that
    are not classified as a deployment and stops at the first that is. *)
Lemma scan_first_match l1 : ∀ sig l2 w,
  (∀ i s, l1 !! i = Some s →
     ∃ tx, rpc_getParsedTransaction env (length (trace w) + i)
             (Web3.rpcEndpoint connection) (Web3.signature s) = Ok tx ∧
           is_deployment_tx programId tx = false) →
  (∃ tx, rpc_getParsedTransaction env (length (trace w) + length l1)
           (Web3.rpcEndpoint connection) (Web3.signature sig) = Ok tx ∧
         is_deployment_tx programId tx = true) →
  scan env connection programId (l1 ++ sig :: l2) w
    = (Ok (Some (found sig)),
       set_trace (trace w ++ map (fetch_event connection) (l1 ++ [sig])) w).
Proof.
  induction l1 as [|s l1 IH]; intros sig l2 w Hpass Hhit.
  - destruct Hhit as (tx & Htx & Hdep). simpl in Htx. rewrite Nat.add_0_r in Htx.
    simpl app. rewrite scan_cons, Htx, Hdep. done.
  - destruct (Hpass 0 s eq_refl) as (tx & Htx & Hdep). rewrite Nat.add_0_r in Htx.
    simpl app. rewrite scan_cons, Htx, Hdep.
    rewrite IH.
    + unfold log_event, set_trace. simpl. by rewrite <- app_assoc.
    + intros i s' Hs'. destruct (Hpass (S i) s' Hs') as (tx' & Htx' & Hdep').
      exists tx'. split; [|done]. rewrite <- Htx'. f_equal.
      unfold log_event. simpl. rewrite length_app. simpl. lia.
    + destruct Hhit as (tx' & Htx' & Hdep'). exists tx'. split; [|done].
      rewrite <- Htx'. f_equal. unfold log_event. simpl. rewrite length_app. simpl. lia.
Qed.

(** The walk over a history in which nothing is classified as a
    deployment fetches every transaction and returns [null]. *)
Lemma scan_no_match l : ∀ w,
  (∀ i s, l !! i = Some s →
     ∃ tx, rpc_getParsedTransaction env (length (trace w) + i)
             (Web3.rpcEndpoint connection) (Web3.signature s) = Ok tx ∧
           is_deployment_tx programId tx = false) →
  scan env connection programId l w
    = (Ok None, set_trace (trace w ++ map (fetch_event connection) l) w).
Proof.
  induction l as [|s l IH]; intros w Hpass.
  - simpl. unfold ret, set_trace. rewrite app_nil_r. by destruct w.
  - destruct (Hpass 0 s eq_refl) as (tx & Htx & Hdep). rewrite Nat.add_0_r in Htx.
    rewrite scan_cons, Htx, Hdep. rewrite IH.
    + unfold log_event, set_trace. simpl. by rewrite <- app_assoc.
    + intros i s' Hs'. destruct (Hpass (S i) s' Hs') as (tx' & Htx' & Hdep').
      exists tx'. split; [|done]. rewrite <- Htx'. f_equal.
      unfold log_event. simpl. rewrite length_app. simpl. lia.
Qed.

Lemma scan_account_fetches l : ∀ w r w',
  scan env connection programId l w = (r, w') →
  account_fetches w' = account_fetches w ∧ ticks w' = ticks w ∧ disk w' = disk w.
Proof.
  induction l as [|s l IH]; intros w r w' Hrun.
  - simpl in Hrun. by injection Hrun as <- <-.
  - rewrite scan_cons in Hrun.
    assert (Hlog : account_fetches (log_event (fetch_event connection s) w) = account_fetches w).
    { unfold account_fetches, log_event. simpl.
      rewrite filter_app, filter_cons_False by done.
      by rewrite filter_nil, app_nil_r. }
    destruct (rpc_getParsedTransaction _ _ _ _) as [tx|].
    + destruct (is_deployment_tx programId tx).
      * by injection Hrun as <- <-.
      * apply IH in Hrun as (Ha & Ht & Hd). by rewrite Ha, Ht, Hd.
    + by injection Hrun as <- <-.
Qed.

(** [findDeploymentTransaction] never throws: every failure is a [null]. *)
Lemma findDeploymentTransaction_ok target w :
  ∃ o w', findDeploymentTransaction env connection target programId w = (Ok o, w') ∧
          account_fetches w' = account_fetches w ∧ ticks w' = ticks w ∧ disk w' = disk w.
Proof.
  unfold findDeploymentTransaction, try_catch, bind, getSignaturesForAddress, request.
  assert (Hlog : ∀ ev, is_account_fetch ev = false →
                       account_fetches (log_event ev w) = account_fetches w).
  { intros ev Hev. unfold account_fetches, log_event. simpl.
    rewrite filter_app, filter_cons_False by congruence.
    by rewrite filter_nil, app_nil_r. }
  destruct (rpc_getSignaturesForAddress _ _ _ _) as [sigs|].
  - destruct (length sigs =? 0).
    + eexists _, _. split; [done|]. by rewrite Hlog.
    + destruct (scan _ _ _ _ _) as [[o|e] w'] eqn:Hscan;
        apply scan_account_fetches in Hscan as (Ha & Ht & Hd);
        eexists _, _; (split; [done|]); rewrite Ha, Ht, Hd; by rewrite Hlog.
  - eexists _, _. split; [done|]. by rewrite Hlog.
Qed.
End Scan.

Section Attempt.
Context (env : Env).

(** An attempt fetches the account at most once. *)
Lemma attempt_account_fetches programId s r s' :
  attempt env programId s = (r, s') →
  account_fetches s'.2 ≤ account_fetches s.2 + 1.
Proof.
  intros Hrun. unfold attempt in Hrun. unfold bind at 1, on_rpc in Hrun.
  destruct (Rpc.getNextHealthyConnection env (rpcService s.1, s.2))
    as [[c|e] [rpc' w1]] eqn:Hc;
    apply RpcFacts.getNextHealthyConnection_loop_account_fetches in Hc;
    simpl in Hc; [|injection Hrun as <- <-; simpl; lia].
  unfold new_PublicKey at 1 in Hrun.
  destruct (PublicKey_error env programId); [injection Hrun as <- <-; simpl; lia|].
  unfold bind at 1, ret at 1 in Hrun.
  unfold bind at 1, on_snd at 1, getParsedAccountInfo, request in Hrun. simpl in Hrun.
  pose proof (account_fetches_log
                (GetParsedAccountInfo (Web3.rpcEndpoint c) programId) w1) as Hlog.
  simpl in Hlog.
  set (w2 := log_event _ w1) in *.
  destruct (rpc_getParsedAccountInfo env _ _ _) as [[value|]|e];
    [|injection Hrun as <- <-; simpl; lia..].
  destruct (isProgramAccount (Web3.owner value)); simpl in Hrun;
    [|injection Hrun as <- <-; simpl; lia].
  set (target := if truthy_opt _ then _ else _) in Hrun.
  assert (Htarget : ∀ S, (if truthy_opt (Web3.parsed_info_programData value)
                     then new_PublicKey env (default "" (Web3.parsed_info_programData value))
                     else new_PublicKey env programId)
                    = new_PublicKey (S := S) env
                        (if truthy_opt (Web3.parsed_info_programData value)
                         then default "" (Web3.parsed_info_programData value)
                         else programId)).
  { intros S. by destruct (truthy_opt _). }
  subst target. rewrite Htarget in Hrun. clear Htarget.
  set (target := if truthy_opt _ then _ else _) in Hrun.
  unfold new_PublicKey in Hrun.
  destruct (PublicKey_error env target); [injection Hrun as <- <-; simpl; lia|].
  unfold bind at 1, ret at 1 in Hrun.
  unfold bind at 1, on_snd at 1 in Hrun. simpl in Hrun.
  destruct (findDeploymentTransaction_ok env c programId target w2)
    as (o & w3 & Hfind & Hacc & _ & _).
  rewrite Hfind in Hrun. destruct o as [info|];
    [|injection Hrun as <- <-; simpl; lia].
  unfold bind at 1, on_cache in Hrun. simpl in Hrun.
  destruct (CacheFacts.cacheDeployment_ok env programId (signature info) (slot info)
              (timestamp info) (truthy_opt (Web3.parsed_info_programData value))
              (Web3.parsed_info_programData value) (cacheService s.1, w3))
    as (c' & w4 & Hcache & Hnet).
  rewrite Hcache in Hrun. injection Hrun as <- <-. simpl.
  apply account_fetches_of_network in Hnet. simpl in Hnet. lia.
Qed.

Lemma attempts_loop_account_fetches n programId : ∀ lastError s r s',
  attempts_loop env n programId lastError s = (r, s') →
  account_fetches s'.2 ≤ account_fetches s.2 + n.
Proof.
  induction n as [|n IH]; intros lastError s r s' Hrun.
  - simpl in Hrun. injection Hrun as <- <-. lia.
  - simpl in Hrun. unfold try_catch, bind in Hrun.
    destruct (attempt env programId s) as [[info|e] s1] eqn:Hatt;
      apply attempt_account_fetches in Hatt.
    + injection Hrun as <- <-. lia.
    + apply IH in Hrun. lia.
Qed.
(** One attempt, laid out by its successive checks. *)
Lemma attempt_unfold programId s :
  attempt env programId s =
    match on_rpc (Rpc.getNextHealthyConnection env) s with
    | (Throw e, s1) => (Throw e, s1)
    | (Ok c, s1) =>
        match PublicKey_error env programId with
        | Some e => (Throw e, s1)
        | None =>
            let u := Web3.rpcEndpoint c in
            let w2 := log_event (GetParsedAccountInfo u programId) s1.2 in
            match rpc_getParsedAccountInfo env (length (trace s1.2)) u programId with
            | Throw e => (Throw e, (s1.1, w2))
            | Ok None => (Throw ProgramSpec2.AccountNotFound, (s1.1, w2))
            | Ok (Some value) =>
                if isProgramAccount (Web3.owner value) then
                  match PublicKey_error env (ProgramSpec2.target_of programId value) with
                  | Some e => (Throw e, (s1.1, w2))
                  | None =>
                      match findDeploymentTransaction env c (ProgramSpec2.target_of programId value)
                              programId w2 with
                      | (Ok (Some info), w3) =>
                          match on_cache (Cache.cacheDeployment env programId
                                            (signature info) (slot info) (timestamp info)
                                            (truthy_opt (Web3.parsed_info_programData value))
                                            (Web3.parsed_info_programData value))
                                         (s1.1, w3) with
                          | (Ok _, s4) => (Ok info, s4)
                          | (Throw e, s4) => (Throw e, s4)
                          end
                      | (Ok None, w3) => (Throw NoDeployment, (s1.1, w3))
                      | (Throw e, w3) => (Throw e, (s1.1, w3))
                      end
                  end
                else (Throw NotAProgramAccount, (s1.1, w2))
            end
        end
    end.
Proof.
  unfold attempt. unfold bind at 1.
  destruct (on_rpc _ s) as [[c|e] s1]; [|done].
  unfold new_PublicKey at 1. destruct (PublicKey_error env programId); [done|].
  unfold bind at 1, ret at 1.
  unfold bind at 1, on_snd at 1, getParsedAccountInfo, request. simpl.
  destruct (rpc_getParsedAccountInfo env _ _ _) as [[value|]|e]; [|done..].
  destruct (isProgramAccount (Web3.owner value)); simpl; [|done].
  assert (Hnew : ∀ S, (if truthy_opt (Web3.parsed_info_programData value)
                   then new_PublicKey env (default "" (Web3.parsed_info_programData value))
                   else new_PublicKey env programId)
                  = new_PublicKey (S := S) env (ProgramSpec2.target_of programId value)).
  { intros S. unfold ProgramSpec2.target_of. by destruct (truthy_opt _). }
  rewrite Hnew. unfold new_PublicKey.
  destruct (PublicKey_error env (ProgramSpec2.target_of programId value)); [done|].
  unfold bind at 1, ret at 1. unfold bind at 1, on_snd at 1. simpl.
  destruct (findDeploymentTransaction _ _ _ _ _) as [[[info|]|e] w3]; [|done..].
  unfold bind at 1. by destruct (on_cache _ _) as [[[]|e] s4].
Qed.
End Attempt.

(** C4. The history scan sorts the signatures by ascending slot: the order
    of the scan is a rearrangement of the fetched list in which slots never
    decrease. It then walks that order from the oldest on, fetching one
    transaction after the other; it passes those classified as no deployment
    (no log output, or no log line with a deployment marker or with both the
    program identifier and "success") and returns signature, slot and block
    time of the first one classified as a deployment, without fetching any
    later one. (Stated for a walk in which the fetches up to the match
    answer; a fetch that throws ends the scan with [null].) *)
Theorem scan_returns_earliest_deployment (env : Env) (connection : Web3.Connection)
    (targetAccount programId : string) (w : World)
    (signatures l1 l2 : list Web3.ConfirmedSignatureInfo)
    (sig : Web3.ConfirmedSignatureInfo) :
  let u := Web3.rpcEndpoint connection in
  let n := length (trace w) in
  rpc_getSignaturesForAddress env n u targetAccount = Ok signatures →
  sort_by (λ s, or0 (Web3.slot s)) signatures = l1 ++ sig :: l2 →
  (∀ i s, l1 !! i = Some s →
     ∃ tx, rpc_getParsedTransaction env (n + 1 + i) u (Web3.signature s) = Ok tx ∧
           is_deployment_tx programId tx = false) →
  (∃ tx, rpc_getParsedTransaction env (n + 1 + length l1) u (Web3.signature sig) = Ok tx ∧
         is_deployment_tx programId tx = true) →
  Permutation (l1 ++ sig :: l2) signatures ∧
  StronglySorted (λ a b, (or0 (Web3.slot a) ≤ or0 (Web3.slot b))%Z) (l1 ++ sig :: l2) ∧
  Forall (λ s, (or0 (Web3.slot s) ≤ or0 (Web3.slot sig))%Z) l1 ∧
  findDeploymentTransaction env connection targetAccount programId w
    = (Ok (Some (found sig)),
       set_trace (trace w ++ GetSignaturesForAddress u targetAccount
                    :: map (λ s, GetParsedTransaction u (Web3.signature s)) (l1 ++ [sig])) w).
Proof.
  intros u n Hsigs Hsort Hpass Hhit.
  pose proof (sort_by_perm (λ s, or0 (Web3.slot s)) signatures) as Hperm.
  pose proof (sort_by_sorted (λ s, or0 (Web3.slot s)) signatures) as Hsorted.
  rewrite Hsort in Hperm, Hsorted.
  split_and!; [done|done| |].
  - clear -Hsorted. induction l1 as [|s l1 IH]; [constructor|].
    simpl in Hsorted. apply StronglySorted_inv in Hsorted as [Hl1 Hs].
    constructor; [|by apply IH].
    rewrite Forall_app, Forall_cons in Hs. by destruct Hs as (_ & ? & _).
  - unfold findDeploymentTransaction, try_catch, bind, getSignaturesForAddress, request.
    fold u n. rewrite Hsigs.
    destruct signatures as [|s0 signatures]; [by destruct l1|].
    replace (length (s0 :: signatures) =? 0) with false by done.
    rewrite Hsort, (scan_first_match env connection programId l1 sig l2).
    + unfold log_event, set_trace. simpl. by rewrite <- app_assoc.
    + intros i s Hs. destruct (Hpass i s Hs) as (tx & Htx & Hdep).
      exists tx. split; [|done]. rewrite <- Htx. f_equal.
      unfold log_event. simpl. rewrite length_app. simpl. lia.
    + destruct Hhit as (tx & Htx & Hdep). exists tx. split; [|done].
      rewrite <- Htx. f_equal. unfold log_event. simpl. rewrite length_app. simpl. lia.
Qed.

(** The two examples of the specification at once: the server lists slots
    5, 2, 9; they are scanned as 2, 5, ...; the logs in slot order are
    ["unrelated"], ["Deployed program X"], ...; the second is returned. *)
Lemma scan_returns_earliest_deployment_witness :
  let c := Web3.new_Connection "http://main-endpoint.test" in
  sort_by (λ s, or0 (Web3.slot s))
          [Sample.sig_at "sig5" 5; Sample.sig_at "sig2" 2; Sample.sig_at "sig9" 9]
    = [Sample.sig_at "sig2" 2] ++ Sample.sig_at "sig5" 5 :: [Sample.sig_at "sig9" 9] ∧
  findDeploymentTransaction Sample.env_deployed c Sample.PROGRAM_DATA Sample.PROGRAM Sample.world
    = (Ok (Some {| signature := "sig5"; slot := 5; timestamp := 1600000005;
                   programDataAccount := None |}),
       set_trace [GetSignaturesForAddress "http://main-endpoint.test" Sample.PROGRAM_DATA;
                  GetParsedTransaction "http://main-endpoint.test" "sig2";
                  GetParsedTransaction "http://main-endpoint.test" "sig5"] Sample.world).
Proof.
  intros c.
  assert (Hsort : sort_by (λ s, or0 (Web3.slot s))
            [Sample.sig_at "sig5" 5; Sample.sig_at "sig2" 2; Sample.sig_at "sig9" 9]
          = [Sample.sig_at "sig2" 2] ++ Sample.sig_at "sig5" 5 :: [Sample.sig_at "sig9" 9])
    by reflexivity.
  split; [exact Hsort|].
  refine (proj2 (proj2 (proj2 (scan_returns_earliest_deployment Sample.env_deployed c
            Sample.PROGRAM_DATA Sample.PROGRAM Sample.world _ _ _ _ eq_refl Hsort _ _)))).
  - intros [|i] s Hs; [|done]. injection Hs as <-.
    eexists. split; [reflexivity|]. vm_compute. reflexivity.
  - eexists. split; [reflexivity|]. vm_compute. reflexivity.
Defined.

(** Without a match the whole history is fetched, in the order of the slots. *)
Example history_is_scanned_in_slot_order :
  findDeploymentTransaction
    (Sample.with_history (Some Sample.upgradeable)
       [Sample.sig_at "sig5" 5; Sample.sig_at "sig2" 2; Sample.sig_at "sig9" 9]
       (λ _, Ok (Sample.tx_with ["unrelated"])))
    (Web3.new_Connection "http://main-endpoint.test")
    Sample.PROGRAM_DATA Sample.PROGRAM Sample.world
  = (Ok None,
     set_trace [GetSignaturesForAddress "http://main-endpoint.test" Sample.PROGRAM_DATA;
                GetParsedTransaction "http://main-endpoint.test" "sig2";
                GetParsedTransaction "http://main-endpoint.test" "sig5";
                GetParsedTransaction "http://main-endpoint.test" "sig9"] Sample.world).
Proof. vm_compute. reflexivity. Qed.

(** C6. For every identifier of the native set, [getDeploymentInfo] returns
    the native sentinel ([null]) and leaves the services and the world as
    they are: no request is sent, the clock is not read, the cache (map and
    file) is neither changed nor, were there a stale record for that
    identifier, purged. *)
Theorem native_program_is_answered_offline (env : Env) (programId : string)
    (s : ProgramService * World) :
  programId ∈ NATIVE_PROGRAMS →
  getDeploymentInfo env programId s = (Ok None, s).
Proof.
  intros Hnative. unfold getDeploymentInfo, isNativeProgram.
  by rewrite bool_decide_eq_true_2.
Qed.

Lemma native_program_is_answered_offline_witness :
  "11111111111111111111111111111111" ∈ NATIVE_PROGRAMS ∧
  getDeploymentInfo Sample.env_wallet "11111111111111111111111111111111"
    (Sample.service Sample.cache_stale, Sample.world)
  = (Ok None, (Sample.service Sample.cache_stale, Sample.world)).
Proof.
  assert (Hnative : "11111111111111111111111111111111" ∈ NATIVE_PROGRAMS).
  { apply (bool_decide_eq_true_1 _). vm_compute. reflexivity. }
  split; [exact Hnative|].
  exact (native_program_is_answered_offline _ _ _ Hnative).
Defined.

(** C7. For an identifier that is not native and has a record in the cache
    of age at most 24 hours, [getDeploymentInfo] returns that record in the
    public shape (signature, slot, timestamp, programDataAccount). It reads
    the clock once and does nothing else: the history, hence the list of
    network requests, the disk, the endpoints and the cache are unchanged. *)
Theorem cache_hit_is_answered_offline (env : Env) (programId : string)
    (s : ProgramService * World) (entry : Entry.CacheEntry) :
  programId ∉ NATIVE_PROGRAMS →
  Cache.cache (cacheService s.1) !! programId = Some entry →
  (Date_now env (ticks s.2) - Entry.lastChecked entry ≤ Cache.cacheValidityPeriod)%Z →
  getDeploymentInfo env programId s
    = (Ok (Some (of_entry entry)), (s.1, set_ticks (S (ticks s.2)) s.2)) ∧
  network_requests (getDeploymentInfo env programId s).2.2 = network_requests s.2.
Proof.
  intros Hnative Hentry Hage.
  assert (Hrun : getDeploymentInfo env programId s
                 = (Ok (Some (of_entry entry)), (s.1, set_ticks (S (ticks s.2)) s.2))).
  { unfold getDeploymentInfo, isNativeProgram.
    rewrite bool_decide_eq_false_2 by done.
    unfold bind at 1, on_cache, Cache.getCachedDeployment.
    unfold bind at 1, gets at 1. simpl. rewrite Hentry.
    unfold bind, on_snd, now, ret. simpl.
    destruct (Z.gtb_spec (Date_now env (ticks s.2) - Entry.lastChecked entry)
                Cache.cacheValidityPeriod) as [|_]; [lia|].
    destruct s as [[rpc c] w]. by destruct c. }
  split; [exact Hrun|]. by rewrite Hrun.
Qed.

Lemma cache_hit_is_answered_offline_witness :
(Sample.PROGRAM ∉ NATIVE_PROGRAMS) ∧
  getDeploymentInfo Sample.env_wallet Sample.PROGRAM
    (Sample.service Sample.cache_recent, Sample.world)
  = (Ok (Some {| signature := "test-signature"; slot := 1000;
                 timestamp := 1600000000;
                 programDataAccount := Some Sample.PROGRAM_DATA |}),
     (Sample.service Sample.cache_recent, set_ticks 1 Sample.world)).
Proof.
  assert (Hnative : Sample.PROGRAM ∉ NATIVE_PROGRAMS).
  { apply (bool_decide_eq_false_1 _). vm_compute. reflexivity. }
  split; [exact Hnative|].
  refine (proj1 (cache_hit_is_answered_offline Sample.env_wallet Sample.PROGRAM
            (Sample.service Sample.cache_recent, Sample.world)
            (Sample.entry_at (Sample.NOW - Sample.HOUR)) Hnative _ _)).
  - vm_compute. reflexivity.
  - vm_compute. discriminate.
Defined.

(** C3, as the code has it. In an attempt that gets as far as the history
    (a connection, an account owned by a loader, a valid target address), an
    empty list of signatures makes [findDeploymentTransaction] return [null]
    at once, and the attempt fails with the error "Could not find deployment
    transaction". This is the error of every [null] of
    [findDeploymentTransaction], so also of a full scan of a history that is
    not empty and holds no deployment: the two failures are one and the same
    error. *)
Theorem empty_history_fails_like_no_match (env : Env) (programId : string)
    (s s1 : ProgramService * World) (c : Web3.Connection) (value : Web3.AccountInfo) :
  let u := Web3.rpcEndpoint c in
  let w2 := log_event (GetParsedAccountInfo u programId) s1.2 in
  let target := if truthy_opt (Web3.parsed_info_programData value)
                then default "" (Web3.parsed_info_programData value)
                else programId in
  on_rpc (Rpc.getNextHealthyConnection env) s = (Ok c, s1) →
  PublicKey_error env programId = None →
  rpc_getParsedAccountInfo env (length (trace s1.2)) u programId = Ok (Some value) →
  isProgramAccount (Web3.owner value) = true →
  PublicKey_error env target = None →
  (rpc_getSignaturesForAddress env (length (trace w2)) u target = Ok [] →
     findDeploymentTransaction env c target programId w2
       = (Ok None, log_event (GetSignaturesForAddress u target) w2) ∧
     attempt env programId s
       = (Throw NoDeployment, (s1.1, log_event (GetSignaturesForAddress u target) w2))) ∧
  (∀ w3, findDeploymentTransaction env c target programId w2 = (Ok None, w3) →
         attempt env programId s = (Throw NoDeployment, (s1.1, w3))).
Proof.
  intros u w2 target Hconn Hpid Haccount Howner Htarget.
  assert (Hnull : ∀ w3, findDeploymentTransaction env c target programId w2 = (Ok None, w3) →
                        attempt env programId s = (Throw NoDeployment, (s1.1, w3))).
  { intros w3 Hfind. unfold attempt. unfold bind at 1. rewrite Hconn.
    unfold new_PublicKey at 1. rewrite Hpid. unfold bind at 1, ret at 1.
    unfold bind at 1, on_snd at 1, getParsedAccountInfo, request. simpl.
    fold u. rewrite Haccount, Howner. simpl.
    assert (Hnew : ∀ S, (if truthy_opt (Web3.parsed_info_programData value)
                     then new_PublicKey env (default "" (Web3.parsed_info_programData value))
                     else new_PublicKey env programId)
                    = ret (S := S) target).
    { intros S. subst target. unfold new_PublicKey in *.
      destruct (truthy_opt _); by rewrite Htarget. }
    rewrite Hnew. unfold bind at 1, ret at 1.
    unfold bind at 1, on_snd at 1. simpl. fold w2. by rewrite Hfind. }
  split; [|exact Hnull].
  intros Hempty.
  assert (Hfind : findDeploymentTransaction env c target programId w2
                  = (Ok None, log_event (GetSignaturesForAddress u target) w2)).
  { unfold findDeploymentTransaction, try_catch, bind, getSignaturesForAddress, request.
    fold u. by rewrite Hempty. }
  split; [exact Hfind|]. by apply Hnull.
Qed.

Lemma empty_history_fails_like_no_match_witness :
  let s := (Sample.service Sample.cache_empty, Sample.world) in
  let c := Web3.new_Connection "http://main-endpoint.test" in
  (on_rpc (Rpc.getNextHealthyConnection Sample.env_no_history) s).1 = Ok c ∧
  (attempt Sample.env_no_history Sample.PROGRAM s).1 = Throw NoDeployment.
Proof.
  intros s c.
  pose (s1 := (on_rpc (Rpc.getNextHealthyConnection Sample.env_no_history) s).2).
  assert (Hconn : on_rpc (Rpc.getNextHealthyConnection Sample.env_no_history) s = (Ok c, s1))
    by (vm_compute; reflexivity).
  split; [by rewrite Hconn|].
  destruct (empty_history_fails_like_no_match Sample.env_no_history Sample.PROGRAM
              s s1 c Sample.upgradeable Hconn eq_refl eq_refl) as [Hempty _].
  - vm_compute. reflexivity.
  - reflexivity.
  - destruct (Hempty eq_refl) as [_ ->]. reflexivity.
Defined.

(** C3, as the specification words it, fails: the error for a program whose
    target account has no signature at all is the very error for a program
    whose history was scanned in full without a match. *)
Lemma empty_history_error_is_not_distinct :
  let s := (Sample.service Sample.cache_empty, Sample.world) in
  rpc_getSignaturesForAddress Sample.env_no_history 2
    "http://main-endpoint.test" Sample.PROGRAM_DATA = Ok [] ∧
  rpc_getSignaturesForAddress Sample.env_no_match 2
    "http://main-endpoint.test" Sample.PROGRAM_DATA = Ok [Sample.sig_at "sig2" 2] ∧
  ∃ err, (getDeploymentInfo Sample.env_no_history Sample.PROGRAM s).1 = Throw err ∧
         (getDeploymentInfo Sample.env_no_match Sample.PROGRAM s).1 = Throw err.
Proof.
  intros s. split_and!; [reflexivity..|].
  exists NoDeployment. split; vm_compute; reflexivity.
Qed.

(** C5. On a cache miss, [getDeploymentInfo] makes at most three attempts.
    Each attempt goes through all the steps anew, on the state the previous
    one left: it acquires a connection by the cursor policy, fetches the
    account, checks its owner, resolves the target and scans the history. An
    attempt that fails, at whatever step and with whatever error ("Not a
    program account" like any other), is followed by the next one while
    attempts remain; the result is that of the first attempt that succeeds,
    and if all three fail, the error of the third one is thrown. At most
    three account fetches are sent. *)
Theorem detection_retries_three_times (env : Env) (programId : string)
    (s s0 : ProgramService * World) :
  programId ∉ NATIVE_PROGRAMS →
  on_cache (Cache.getCachedDeployment env programId) s = (Ok None, s0) →
  let a1 := ProgramSpec2.attempt_steps env programId s0 in
  let a2 := or_else a1 (ProgramSpec2.attempt_steps env programId) in
  let a3 := or_else a2 (ProgramSpec2.attempt_steps env programId) in
  getDeploymentInfo env programId s
    = match a3 with
      | (Ok info, s') => (Ok (Some info), s')
      | (Throw e, s') => (Throw (as_Error e), s')
      end ∧
  account_fetches (getDeploymentInfo env programId s).2.2 ≤ account_fetches s.2 + 3.
Proof.
  intros Hnative Hmiss a1 a2 a3.
  assert (Hloop : getDeploymentInfo env programId s
                  = attempts_loop env maxAttempts programId None s0).
  { unfold getDeploymentInfo, isNativeProgram.
    rewrite bool_decide_eq_false_2 by done.
    unfold bind. by rewrite Hmiss. }
  assert (Hstep : ∀ st, attempt env programId st
                        = ProgramSpec2.attempt_steps env programId st).
  { intros st. apply attempt_unfold. }
  split.
  - rewrite Hloop. subst a3 a2 a1. unfold maxAttempts. simpl.
    unfold try_catch, bind, ret, throw, or_else.
    rewrite Hstep.
    destruct (ProgramSpec2.attempt_steps env programId s0) as [[i1|e1] s1]; [done|].
    rewrite Hstep.
    destruct (ProgramSpec2.attempt_steps env programId s1) as [[i2|e2] s2]; [done|].
    rewrite Hstep.
    by destruct (ProgramSpec2.attempt_steps env programId s2) as [[i3|e3] s3].
  - rewrite Hloop.
    destruct (attempts_loop env maxAttempts programId None s0) as [r s'] eqn:Hrun.
    apply attempts_loop_account_fetches in Hrun. simpl.
    assert (Hs0 : account_fetches s0.2 = account_fetches s.2).
    { unfold on_cache in Hmiss.
      destruct (CacheFacts.getCachedDeployment_ok env programId (cacheService s.1, s.2))
        as (o & c' & w' & Hget & Hnet).
      rewrite Hget in Hmiss. injection Hmiss as _ <-.
      by apply account_fetches_of_network. }
    unfold maxAttempts in Hrun. lia.
Qed.

(** An address that is a wallet: each of the three attempts acquires the
    primary, fetches the account and fails with "Not a program account",
    which is then thrown; no history is requested. *)
Lemma detection_retries_three_times_witness :
  let s := (Sample.service Sample.cache_empty, Sample.world) in
  (Sample.PROGRAM ∉ NATIVE_PROGRAMS) ∧
  on_cache (Cache.getCachedDeployment Sample.env_wallet Sample.PROGRAM) s = (Ok None, s) ∧
  (getDeploymentInfo Sample.env_wallet Sample.PROGRAM s).1 = Throw NotAProgramAccount ∧
  trace (getDeploymentInfo Sample.env_wallet Sample.PROGRAM s).2.2
    = [GetSlot "http://main-endpoint.test";
       GetParsedAccountInfo "http://main-endpoint.test" Sample.PROGRAM;
       GetParsedAccountInfo "http://main-endpoint.test" Sample.PROGRAM;
       GetParsedAccountInfo "http://main-endpoint.test" Sample.PROGRAM].
Proof.
  intros s.
  assert (Hnative : Sample.PROGRAM ∉ NATIVE_PROGRAMS).
  { apply (bool_decide_eq_false_1 _). vm_compute. reflexivity. }
  assert (Hmiss : on_cache (Cache.getCachedDeployment Sample.env_wallet Sample.PROGRAM) s
                  = (Ok None, s)) by (vm_compute; reflexivity).
  split_and!; [exact Hnative|exact Hmiss| |].
  - destruct (detection_retries_three_times Sample.env_wallet Sample.PROGRAM s s
                Hnative Hmiss) as [-> _].
    vm_compute. reflexivity.
  - destruct (detection_retries_three_times Sample.env_wallet Sample.PROGRAM s s
                Hnative Hmiss) as [-> _].
    vm_compute. reflexivity.
Defined.

End ProgramFacts.

(** * Further properties of the three services *)

(** ** The cache store *)

Module CacheMore.
Import Entry Cache CacheSpec.

Lemma new_Map_fold {V} (l : list (string * V)) : ∀ m0 : gmap string V,
  NoDup (l.*1) →
  fold_left (λ m kv, <[kv.1 := kv.2]> m) l m0 = list_to_map l ∪ m0.
Proof.
  induction l as [|[k v] l IH]; intros m0 Hnd.
  - simpl. by rewrite (left_id_L ∅ (∪)).
  - rewrite fmap_cons in Hnd. apply NoDup_cons in Hnd as [Hk Hnd].
    rewrite list_to_map_cons. simpl fold_left. rewrite IH by done. simpl.
    rewrite <- insert_union_l. symmetry. apply insert_union_r.
    by apply not_elem_of_list_to_map_1.
Qed.

(** [new Map(Object.entries(o))] of the entries of a map is that map. *)
Lemma new_Map_to_list {V} (m : gmap string V) : new_Map (map_to_list m) = m.
Proof.
  unfold new_Map. rewrite new_Map_fold by apply NoDup_fst_map_to_list.
  by rewrite (right_id_L ∅ (∪)), list_to_map_to_list.
Qed.

Section WithEnv.
Context (env : Env).

Lemma cacheDeployment_eq pid sig sl ts isPD pda s :
  ∃ w', cacheDeployment env pid sig sl ts isPD pda s
        = (Ok tt, ({| cache := <[pid := record_of pid sig sl ts isPD pda
                                            (Date_now env (ticks s.2))]> (cache s.1) |}, w')) ∧
        ticks w' = S (ticks s.2) ∧
        network_requests w' = network_requests s.2 ∧
        saveCache env ({| cache := <[pid := record_of pid sig sl ts isPD pda
                                              (Date_now env (ticks s.2))]> (cache s.1) |},
                       set_ticks (S (ticks s.2)) s.2)
        = (Ok tt, ({| cache := <[pid := record_of pid sig sl ts isPD pda
                                            (Date_now env (ticks s.2))]> (cache s.1) |}, w')).
Proof.
  unfold cacheDeployment.
  unfold bind at 1, on_snd at 1, now. simpl.
  unfold bind at 1, gets at 1. unfold bind at 1, set_cache at 1, modify. simpl.
  destruct (CacheFacts.saveCache_ok env (Build_CacheService
    (<[pid := record_of pid sig sl ts isPD pda (Date_now env (ticks s.2))]> (cache s.1)),
     set_ticks (S (ticks s.2)) s.2)) as (w' & Hsave & Ht & _ & Hnet).
  unfold record_of in *. rewrite Hsave. by exists w'.
Qed.

Lemma getCachedDeployment_hit pid entry s :
  cache s.1 !! pid = Some entry →
  fresh_at (Date_now env (ticks s.2)) entry →
  getCachedDeployment env pid s = (Ok (Some entry), (s.1, set_ticks (S (ticks s.2)) s.2)).
Proof.
  intros Hentry Hfresh. unfold getCachedDeployment.
  unfold bind at 1, gets at 1. rewrite Hentry.
  unfold bind, on_snd, now, ret. simpl.
  destruct (Z.gtb_spec (Date_now env (ticks s.2) - lastChecked entry) cacheValidityPeriod)
    as [|_]; [unfold fresh_at in Hfresh; lia|done].
Qed.
End WithEnv.

(** X1. A record written by [cacheDeployment] is read back by
    [getCachedDeployment]: when the read happens within the validity period
    of the write, it returns the record with the fields given, the time of
    the write as [lastChecked] and the [programDataAccount] as given (absent
    when it was absent). The write replaces the record of that key only, and
    neither call throws, whatever the storage does. *)
Theorem cached_record_is_read_back (env : Env) (programId sig : string) (sl ts : Z)
    (isPD : bool) (pda : option string) (s : CacheService * World) :
  let t := Date_now env (ticks s.2) in
  let entry := record_of programId sig sl ts isPD pda t in
  (Date_now env (S (ticks s.2)) - t ≤ cacheValidityPeriod)%Z →
  ∃ w1, cacheDeployment env programId sig sl ts isPD pda s
        = (Ok tt, ({| cache := <[programId := entry]> (cache s.1) |}, w1)) ∧
        getCachedDeployment env programId ({| cache := <[programId := entry]> (cache s.1) |}, w1)
        = (Ok (Some entry),
           ({| cache := <[programId := entry]> (cache s.1) |}, set_ticks (S (ticks w1)) w1)).
Proof.
  intros t entry Hsoon.
  destruct (cacheDeployment_eq env programId sig sl ts isPD pda s)
    as (w1 & Hput & Hticks & _ & _).
  exists w1. split; [exact Hput|].
  apply getCachedDeployment_hit; simpl.
  - apply lookup_insert_eq.
  - unfold fresh_at. rewrite Hticks. exact Hsoon.
Qed.

Lemma cached_record_is_read_back_witness :
  (Date_now Sample2.env_no_storage 1 - Date_now Sample2.env_no_storage 0
   ≤ cacheValidityPeriod)%Z ∧
  ∃ c1 w1 w2,
    cacheDeployment Sample2.env_no_storage Sample.PROGRAM "sig" 1000 1600000000 false None
      (Sample.cache_empty, Sample.world) = (Ok tt, (c1, w1)) ∧
    getCachedDeployment Sample2.env_no_storage Sample.PROGRAM (c1, w1)
      = (Ok (Some (record_of Sample.PROGRAM "sig" 1000 1600000000 false None Sample.NOW)),
         (c1, w2)).
Proof.
  assert (Hsoon : (Date_now Sample2.env_no_storage 1 - Date_now Sample2.env_no_storage 0
                   ≤ cacheValidityPeriod)%Z) by (vm_compute; discriminate).
  split; [exact Hsoon|].
  destruct (cached_record_is_read_back Sample2.env_no_storage Sample.PROGRAM "sig"
              1000 1600000000 false None (Sample.cache_empty, Sample.world) Hsoon)
    as (w1 & Hput & Hget).
  eexists _, w1, _. split; [exact Hput|]. rewrite Hget. reflexivity.
Defined.

(** X2. [cacheDeployment] persists at once: when the storage does not fail,
    the file holds the document of the map with the new record when the call
    returns, written by one [writeFileSync] (after [mkdirSync] when the
    directory was missing), and no network request is sent. *)
Theorem cacheDeployment_persists (env : Env) (programId sig : string) (sl ts : Z)
    (isPD : bool) (pda : option string) (s : CacheService * World) :
  let m := <[programId := record_of programId sig sl ts isPD pda
                            (Date_now env (ticks s.2))]> (cache s.1) in
  (∀ n, fs_fault env n = None) →
  ∃ w', cacheDeployment env programId sig sl ts isPD pda s = (Ok tt, ({| cache := m |}, w')) ∧
        fileContent (disk w') = Some (JSON_stringify env m) ∧
        trace w' = trace s.2 ++ (if dirExists (disk s.2) then [] else [MkdirSync])
                             ++ [WriteFileSync (JSON_stringify env m)].
Proof.
  intros m Hfs.
  destruct (cacheDeployment_eq env programId sig sl ts isPD pda s)
    as (w' & Hput & _ & _ & Hsave).
  exists w'. split; [exact Hput|].
  destruct (CacheFacts.saveCache_persists env
              ({| cache := m |}, set_ticks (S (ticks s.2)) s.2) Hfs)
    as (w'' & Hsave' & Hfile & Htrace).
  fold m in Hsave. rewrite Hsave in Hsave'. injection Hsave' as <-. by split.
Qed.

Lemma cacheDeployment_persists_witness :
  (∀ n, fs_fault Sample2.env_codec n = None) ∧
  ∃ c' w', cacheDeployment Sample2.env_codec Sample.PROGRAM "test-signature" 1000
             1600000000 true (Some Sample.PROGRAM_DATA)
             (Sample.cache_empty, set_ticks 0 Sample.world) = (Ok tt, (c', w')) ∧
           disk w' = {| dirExists := true; fileContent := Some "{...}" |}.
Proof.
  split; [done|].
  destruct (cacheDeployment_persists Sample2.env_codec Sample.PROGRAM "test-signature" 1000
              1600000000 true (Some Sample.PROGRAM_DATA)
              (Sample.cache_empty, set_ticks 0 Sample.world) (λ _, eq_refl))
    as (w' & Hput & _ & _).
  eexists _, w'. split; [exact Hput|].
  vm_compute in Hput. by injection Hput as <-.
Defined.

(** X3. [clearCache] never throws and sends nothing; it leaves the map empty,
    so that [getCacheStats] reports 0 records, 0 valid, 0 expired. When the
    storage does not fail it writes the empty document and then removes the
    file and the directory: nothing of the cache is left on the disk. *)
Theorem clearCache_leaves_nothing (env : Env) (s : CacheService * World) :
  ∃ w', clearCache env s = (Ok tt, ({| cache := ∅ |}, w')) ∧
        ticks w' = ticks s.2 ∧
        network_requests w' = network_requests s.2 ∧
        (∀ w'', ∃ w3, getCacheStats env ({| cache := ∅ |}, w'')
                      = (Ok {| total := 0; valid := 0; expired := 0 |}, w3)) ∧
        ((∀ n, fs_fault env n = None) →
           disk w' = no_cache_dir ∧
           trace w' = trace s.2 ++ (if dirExists (disk s.2) then [] else [MkdirSync])
                                ++ [WriteFileSync (JSON_stringify env ∅); UnlinkSync; RmdirSync]).
Proof.
  assert (Hstats : ∀ w'', ∃ w3, getCacheStats env ({| cache := ∅ |}, w'')
                      = (Ok {| total := 0; valid := 0; expired := 0 |}, w3)).
  { intros w''. unfold getCacheStats. CacheFacts.run.
    rewrite map_fold_empty, map_size_empty. by eexists. }
  destruct s as [c [t tr [dir file]]].
  unfold clearCache, saveCache, network_requests. CacheFacts.run.
  unfold unlinkSync, rmdirSync, storage, log_event, set_disk, set_trace. simpl.
  destruct dir; simpl.
  - destruct (fs_fault env (length tr)) eqn:F1; simpl.
    + destruct file; simpl.
      * destruct (fs_fault env (length (tr ++ _))) eqn:F2; simpl.
        -- eexists. split_and!; [done|done| |done|intros Hfs; by rewrite Hfs in F1].
           simpl. by rewrite !CacheFacts.filter_network_snoc.
        -- destruct (fs_fault env (length ((tr ++ _) ++ _))) eqn:F3; simpl;
             (eexists; split_and!; [done|done| |done|intros Hfs; by rewrite Hfs in F1]);
             simpl; by rewrite !CacheFacts.filter_network_snoc.
      * destruct (fs_fault env (length (tr ++ _))) eqn:F2; simpl;
          (eexists; split_and!; [done|done| |done|intros Hfs; by rewrite Hfs in F1]);
          simpl; by rewrite !CacheFacts.filter_network_snoc.
    + destruct (fs_fault env (length (tr ++ _))) eqn:F2; simpl.
      * eexists. split_and!; [done|done| |done|intros Hfs; by rewrite Hfs in F2].
        simpl. by rewrite !CacheFacts.filter_network_snoc.
      * destruct (fs_fault env (length ((tr ++ _) ++ _))) eqn:F3; simpl.
        -- eexists. split_and!; [done|done| |done|intros Hfs; by rewrite Hfs in F3].
           simpl. by rewrite !CacheFacts.filter_network_snoc.
        -- eexists. split_and!; [done|done| |done|].
           ++ simpl. by rewrite !CacheFacts.filter_network_snoc.
           ++ intros _. simpl. split; [done|]. by rewrite <- !app_assoc.
  - destruct (fs_fault env (length tr)) eqn:F1; simpl.
    + destruct file; simpl.
      * destruct (fs_fault env (length (tr ++ _))) eqn:F2; simpl;
          (eexists; split_and!; [done|done| |done|intros Hfs; by rewrite Hfs in F1]);
          simpl; by rewrite !CacheFacts.filter_network_snoc.
      * eexists. split_and!; [done|done| |done|intros Hfs; by rewrite Hfs in F1].
        simpl. by rewrite !CacheFacts.filter_network_snoc.
    + destruct (fs_fault env (length (tr ++ _))) eqn:F2; simpl.
      * destruct file; simpl.
        -- destruct (fs_fault env (length ((tr ++ _) ++ _))) eqn:F3; simpl.
           ++ eexists. split_and!; [done|done| |done|intros Hfs; by rewrite Hfs in F2].
              simpl. by rewrite !CacheFacts.filter_network_snoc.
           ++ destruct (fs_fault env (length (((tr ++ _) ++ _) ++ _))) eqn:F4; simpl;
                (eexists; split_and!; [done|done| |done|intros Hfs; by rewrite Hfs in F2]);
                simpl; by rewrite !CacheFacts.filter_network_snoc.
        -- destruct (fs_fault env (length ((tr ++ _) ++ _))) eqn:F3; simpl;
             (eexists; split_and!; [done|done| |done|intros Hfs; by rewrite Hfs in F2]);
             simpl; by rewrite !CacheFacts.filter_network_snoc.
      * destruct (fs_fault env (length ((tr ++ _) ++ _))) eqn:F3; simpl.
        -- eexists. split_and!; [done|done| |done|intros Hfs; by rewrite Hfs in F3].
           simpl. by rewrite !CacheFacts.filter_network_snoc.
        -- destruct (fs_fault env (length (((tr ++ _) ++ _) ++ _))) eqn:F4; simpl.
           ++ eexists. split_and!; [done|done| |done|intros Hfs; by rewrite Hfs in F4].
              simpl. by rewrite !CacheFacts.filter_network_snoc.
           ++ eexists. split_and!; [done|done| |done|].
              ** simpl. by rewrite !CacheFacts.filter_network_snoc.
              ** intros _. simpl. split; [done|]. by rewrite <- !app_assoc.
Qed.

Lemma clearCache_leaves_nothing_witness :
  (∀ n, fs_fault Sample.env_up n = None) ∧
  ∃ w', clearCache Sample.env_up (Sample.cache_recent, Sample.world_corrupted)
        = (Ok tt, ({| cache := ∅ |}, w')) ∧
        disk w' = no_cache_dir ∧
        trace w' = [WriteFileSync "{}"; UnlinkSync; RmdirSync].
Proof.
  split; [done|].
  destruct (clearCache_leaves_nothing Sample.env_up
              (Sample.cache_recent, Sample.world_corrupted))
    as (w' & Hclear & _ & _ & _ & Hdisk).
  exists w'. split; [exact Hclear|].
  destruct (Hdisk (λ _, eq_refl)) as [-> ->]. by split.
Defined.

(** X4. [getCacheStats] is a snapshot: it reads the clock once and changes
    neither the map nor the disk, and sends nothing. Its total is the number
    of records, its valid count the number of records of age at most the
    validity period at that reading of the clock, and valid and expired add
    up to the total. *)
Theorem getCacheStats_counts (env : Env) (s : CacheService * World) :
  let t := Date_now env (ticks s.2) in
  ∃ st, getCacheStats env s = (Ok st, (s.1, set_ticks (S (ticks s.2)) s.2)) ∧
        total st = size (cache s.1) ∧
        valid st = size (filter (λ kv, fresh_at t kv.2) (cache s.1)) ∧
        expired st = size (filter (λ kv, ¬ fresh_at t kv.2) (cache s.1)) ∧
        total st = valid st + expired st.
Proof.
  intros t. unfold getCacheStats. CacheFacts.run. fold t.
  eexists. split; [done|]. simpl.
  pose proof (map_fold_weak_ind
    (λ (acc : nat * nat) (m : gmap string CacheEntry),
       acc.1 = size (filter (λ kv, fresh_at t kv.2) m) ∧
       acc.2 = size (filter (λ kv, ¬ fresh_at t kv.2) m) ∧
       size m = acc.1 + acc.2)
    (λ _ entry acc, count_entry t entry acc) (0, 0)) as Hind.
  simpl in Hind. destruct (Hind) with (m := cache s.1) as (Hv & He & Ht).
  - by rewrite !map_filter_empty, map_size_empty.
  - intros i x m r Hi (Hv & He & Ht). unfold count_entry.
    destruct (Z.leb_spec (t - lastChecked x) cacheValidityPeriod) as [Hx|Hx]; simpl.
    + rewrite map_filter_insert_True by done.
      rewrite map_size_insert_None by (by apply map_lookup_filter_None_2; left).
      rewrite map_filter_insert_not' by (simpl; unfold fresh_at; first [tauto|congruence]).
      rewrite map_size_insert_None by done. lia.
    + rewrite map_filter_insert_not' by (simpl; unfold fresh_at; first [lia|congruence]).
      rewrite (map_filter_insert_True (λ kv, ¬ fresh_at t kv.2))
        by (simpl; unfold fresh_at; lia).
      rewrite map_size_insert_None by (by apply map_lookup_filter_None_2; left).
      rewrite map_size_insert_None by done. lia.
  - by split_and!.
Qed.

(** X5. The whole behaviour of a read. [getCachedDeployment] never throws
    and sends nothing; it returns a record exactly when the map holds one for
    the key whose age, at the reading of the clock, is at most the validity
    period (an age of exactly 24 hours still counts), and then it is that
    record; after a [null] the map holds nothing for the key; the records of
    the other keys are never touched. A key without record is answered
    without reading the clock and without any change. *)
Theorem getCachedDeployment_returns_only_fresh (env : Env) (programId : string)
    (s : CacheService * World) :
  ∃ o s', getCachedDeployment env programId s = (Ok o, s') ∧
    (∀ entry, o = Some entry ↔
              cache s.1 !! programId = Some entry ∧
              fresh_at (Date_now env (ticks s.2)) entry) ∧
    (o = None → cache s'.1 !! programId = None) ∧
    (∀ k, k ≠ programId → cache s'.1 !! k = cache s.1 !! k) ∧
    (cache s.1 !! programId = None → s' = s) ∧
    network_requests s'.2 = network_requests s.2.
Proof.
  destruct (cache s.1 !! programId) as [entry|] eqn:Hentry.
  - destruct (decide (fresh_at (Date_now env (ticks s.2)) entry)) as [Hfresh|Hold].
    + rewrite (getCachedDeployment_hit env programId entry s Hentry Hfresh).
      eexists _, _. split; [done|]. simpl. split_and!; try done.
      intros e. split; [by intros [= <-]|by intros [[= <-] _]].
    + assert (Hgt : (Date_now env (ticks s.2) - lastChecked entry > cacheValidityPeriod)%Z)
        by (unfold fresh_at in Hold; lia).
      unfold getCachedDeployment. unfold bind at 1, gets at 1. rewrite Hentry.
      unfold bind at 1, on_snd at 1, now. simpl.
      destruct (Z.gtb_spec (Date_now env (ticks s.2) - lastChecked entry)
                  cacheValidityPeriod) as [_|]; [|lia].
      unfold bind at 1, set_cache at 1, modify. simpl.
      destruct (CacheFacts.saveCache_ok env
                  ({| cache := delete programId (cache s.1) |},
                   set_ticks (S (ticks s.2)) s.2)) as (w' & Hsave & _ & _ & Hnet).
      unfold bind. rewrite Hsave. simpl.
      eexists _, _. split; [done|]. simpl. split_and!; try done.
      * intros e. split; [done|]. by intros [[= <-] ?].
      * intros _. apply lookup_delete_eq.
      * intros k Hk. by apply lookup_delete_ne.
  - unfold getCachedDeployment. unfold bind at 1, gets at 1. rewrite Hentry.
    eexists _, _. split; [done|]. simpl. split_and!; try done.
    intros e. split; [done|]. by intros [? _].
Qed.

(** X6. Constructing the service when there is no cache file is no error:
    the cache is empty, the file is not read, and the only storage call is
    the [mkdirSync] of a missing directory (whose failure is swallowed). *)
Theorem missing_cache_file_is_an_empty_cache (env : Env) (w : World) :
  fileContent (disk w) = None →
  ∃ w', constructor env w = (Ok {| cache := ∅ |}, w') ∧
        trace w' = trace w ++ (if dirExists (disk w) then [] else [MkdirSync]) ∧
        fileContent (disk w') = None.
Proof.
  destruct w as [t tr [dir file]]. simpl. intros ->.
  unfold constructor, loadCache. CacheFacts.run.
  destruct dir; simpl.
  - eexists. split_and!; [done| |done]. simpl. by rewrite app_nil_r.
  - destruct (fs_fault env (length tr)); simpl; by eexists.
Qed.

Lemma missing_cache_file_is_an_empty_cache_witness :
  fileContent (disk Sample.world) = None ∧
  constructor Sample2.env_no_storage Sample.world
  = (Ok {| cache := ∅ |}, set_trace [MkdirSync] Sample.world).
Proof.
  split; [done|].
  destruct (missing_cache_file_is_an_empty_cache Sample2.env_no_storage Sample.world eq_refl)
    as (w' & Hnew & _ & _).
  pose proof Hnew as Hrun. rewrite Hnew. vm_compute in Hrun. by injection Hrun as <-.
Defined.

(** X7. What [saveCache] writes, a new service reads: when the storage does
    not fail and [JSON.parse] gives back the entries of the document that
    [JSON.stringify] made of the map, a service constructed after a
    [saveCache] starts with the very same map. *)
Theorem saved_cache_is_loaded_back (env : Env) (s : CacheService * World) :
  (∀ n, fs_fault env n = None) →
  JSON_parse_entries env (JSON_stringify env (cache s.1)) = Ok (map_to_list (cache s.1)) →
  ∃ w1 w2, saveCache env s = (Ok tt, (s.1, w1)) ∧
           constructor env w1 = (Ok {| cache := cache s.1 |}, w2) ∧
           trace w2 = trace w1 ++ [ReadFileSync].
Proof.
  intros Hfs Hcodec.
  destruct (CacheFacts.saveCache_persists env s Hfs) as (w1 & Hsave & Hfile & Htrace).
  exists w1.
  assert (Hdir : dirExists (disk w1) = true).
  { destruct s as [c [t tr [dir file]]]. unfold saveCache in Hsave.
    revert Hsave. CacheFacts.run.
    destruct dir; simpl; rewrite ?Hfs; simpl; rewrite ?Hfs; simpl; intros Heq; injection Heq as <-; reflexivity. }
  destruct w1 as [t1 tr1 [dir1 file1]]. simpl in *. subst dir1 file1.
  unfold constructor, loadCache. CacheFacts.run. rewrite Hfs. simpl.
  rewrite Hcodec. simpl. rewrite new_Map_to_list.
  eexists. split_and!; [done|done|]. done.
Qed.

Lemma saved_cache_is_loaded_back_witness :
  (∀ n, fs_fault Sample2.env_codec n = None) ∧
  JSON_parse_entries Sample2.env_codec
    (JSON_stringify Sample2.env_codec (cache Sample.cache_recent))
  = Ok (map_to_list (cache Sample.cache_recent)) ∧
  ∃ w1 w2, saveCache Sample2.env_codec (Sample.cache_recent, Sample.world)
           = (Ok tt, (Sample.cache_recent, w1)) ∧
           constructor Sample2.env_codec w1 = (Ok Sample.cache_recent, w2).
Proof.
  assert (Hcodec : JSON_parse_entries Sample2.env_codec
            (JSON_stringify Sample2.env_codec (cache Sample.cache_recent))
          = Ok (map_to_list (cache Sample.cache_recent))) by (vm_compute; reflexivity).
  split_and!; [done|exact Hcodec|].
  destruct (saved_cache_is_loaded_back Sample2.env_codec (Sample.cache_recent, Sample.world)
              (λ _, eq_refl) Hcodec) as (w1 & w2 & Hsave & Hload & _).
  exists w1, w2. split; [exact Hsave|exact Hload].
Defined.

End CacheMore.

(** ** The endpoint manager *)

Module RpcMore.
Import Rpc RpcSpec RpcSpec2.

Lemma StronglySorted_snoc {A} (R : A → A → Prop) l x :
  StronglySorted R l → Forall (λ y, R y x) l → StronglySorted R (l ++ [x]).
Proof.
  induction 1 as [|y l Hl IH Hy]; intros Hx; simpl.
  - repeat constructor.
  - apply Forall_cons in Hx as [Hyx Hx]. constructor; [by apply IH|].
    apply Forall_app. split; [done|]. by constructor.
Qed.

Lemma forEach_backup_sorted names urls : ∀ acc index,
  StronglySorted (λ a b, (priority a < priority b)%Z) acc →
  Forall (λ e, (priority e < Z.of_nat index + 2)%Z) acc →
  StronglySorted (λ a b, (priority a < priority b)%Z) (forEach_backup names acc index urls).
Proof.
  induction urls as [|u urls IH]; intros acc index Hs Hb; simpl; [done|].
  apply IH.
  - unfold push_backup. destruct (truthy (trim u)); [|done].
    apply StronglySorted_snoc; [done|]. eapply Forall_impl; [exact Hb|]. done.
  - unfold push_backup. destruct (truthy (trim u)).
    + apply Forall_app. split.
      * eapply Forall_impl; [exact Hb|]. simpl. intros; lia.
      * repeat constructor. simpl. lia.
    + eapply Forall_impl; [exact Hb|]. simpl. intros; lia.
Qed.

Lemma forEach_backup_declared names urls : ∀ acc index,
  forEach_backup names acc index urls
  = acc ++ ((λ iu, backup_at names iu.1 iu.2) <$> declared_from index urls).
Proof.
  induction urls as [|u urls IH]; intros acc index; simpl.
  - by rewrite app_nil_r.
  - rewrite IH. unfold push_backup. destruct (truthy (trim u)); [|done].
    by rewrite <- app_assoc.
Qed.

Lemma declared_from_length urls : ∀ index,
  length (declared_from index urls)
  = length (filter (λ u, truthy (trim u) = true) urls).
Proof.
  induction urls as [|u urls IH]; intros index; simpl; [done|].
  destruct (truthy (trim u)) eqn:Hu.
  - rewrite filter_cons_True by done. simpl. by rewrite IH.
  - rewrite filter_cons_False by congruence. apply IH.
Qed.

Lemma declared_from_elem urls : ∀ index i u,
  (i, u) ∈ declared_from index urls
  ↔ ∃ j, i = index + j ∧ urls !! j = Some u ∧ truthy (trim u) = true.
Proof.
  induction urls as [|u0 urls IH]; intros index i u; simpl.
  - split; [by intros ?%elem_of_nil|by intros (j & _ & ? & _)].
  - assert (Hrest : (i, u) ∈ declared_from (S index) urls
                    ↔ ∃ j, i = index + S j ∧ urls !! j = Some u ∧ truthy (trim u) = true).
    { rewrite IH. split; intros (j & -> & Hj); exists j; (split; [lia|done]). }
    destruct (truthy (trim u0)) eqn:Hu0.
    + rewrite elem_of_cons, Hrest. split.
      * intros [[= -> ->]|(j & -> & Hj & Hu)].
        -- exists 0. by rewrite Nat.add_0_r.
        -- by exists (S j).
      * intros ([|j] & -> & Hj & Hu).
        -- left. simpl in Hj. injection Hj as ->. by rewrite Nat.add_0_r.
        -- right. by exists j.
    + rewrite Hrest. split.
      * intros (j & -> & Hj & Hu). by exists (S j).
      * intros ([|j] & -> & Hj & Hu).
        -- simpl in Hj. injection Hj as ->. congruence.
        -- by exists j.
Qed.

Lemma constructor_needs_primary (penv : ProcessEnv) :
  (truthy_opt (MAIN_RPC_URL penv) = false →
   constructor penv = Throw (Error "MAIN_RPC_URL environment variable is not set")) ∧
  (truthy_opt (MAIN_RPC_URL penv) = true → ∃ svc, constructor penv = Ok svc).
Proof.
  unfold constructor, truthy_opt.
  destruct (MAIN_RPC_URL penv) as [u|]; [|by split].
  destruct (truthy u); split; try done. intros _. by eexists.
Qed.

(** X8. The constructor fails, with "MAIN_RPC_URL environment variable is
    not set", exactly when that variable is missing or empty. Otherwise it
    makes the primary endpoint first, under the name "Primary" and with
    priority 1, followed by the declared backups and nothing else: one
    endpoint for each entry of [BACKUP_RPC_URLS] that is not blank, in the
    order of declaration, with the trimmed entry as URL, the trimmed name at
    the same position of [BACKUP_RPC_NAMES] (or "Backup" and the position
    when that name is missing or blank) and the position plus 2 as priority.
    Priorities are strictly increasing along the list (the sort changes
    nothing), and the cursor starts on the primary. *)
Theorem constructor_keeps_declared_order (penv : ProcessEnv) :
  let names := split_list (BACKUP_RPC_NAMES penv) in
  let urls := split_list (BACKUP_RPC_URLS penv) in
  (constructor penv = Throw (Error "MAIN_RPC_URL environment variable is not set")
   ↔ truthy_opt (MAIN_RPC_URL penv) = false) ∧
  ∀ svc, constructor penv = Ok svc →
    ∃ u backups,
      MAIN_RPC_URL penv = Some u ∧
      endpoints svc = primary u :: backups ∧
      backups = declared_backups names urls ∧
      (∀ e, e ∈ backups ↔ ∃ i b, urls !! i = Some b ∧ truthy (trim b) = true ∧
                                 e = backup_at names i b) ∧
      length backups = length (filter (λ b, truthy (trim b) = true) urls) ∧
      StronglySorted (λ a b, (priority a < priority b)%Z) (endpoints svc) ∧
      currentEndpointIndex svc = 0.
Proof.
  intros names urls. unfold constructor, truthy_opt.
  destruct (MAIN_RPC_URL penv) as [u|]; [|by split].
  destruct (truthy u) eqn:Hu; [|by split].
  split; [by split|]. intros svc [= <-]. simpl.
  fold names urls.
  assert (Hsorted : StronglySorted (λ a b, (priority a < priority b)%Z)
            (forEach_backup names [primary u] 0 urls)).
  { apply forEach_backup_sorted; repeat constructor. }
  fold (primary u). rewrite sort_by_id.
  - rewrite forEach_backup_declared in Hsorted |- *.
    exists u, (declared_backups names urls). split_and!; try done.
    + intros e. unfold declared_backups. rewrite list_elem_of_fmap. split.
      * intros ([i b] & -> & Hin). apply declared_from_elem in Hin as (j & -> & Hj & Hb).
        by exists j, b.
      * intros (i & b & Hi & Hb & ->). exists (i, b). split; [done|].
        apply declared_from_elem. by exists i.
    + unfold declared_backups. by rewrite length_fmap, declared_from_length.
  - clear -Hsorted. induction Hsorted as [|x l Hl IH Hx]; constructor; [done|].
    eapply Forall_impl; [exact Hx|]. simpl. intros; lia.
Qed.

(** A configuration with blank entries: an entry that is white space only,
    be it a no-break space, declares no endpoint but keeps its position. *)
Lemma constructor_keeps_declared_order_witness :
  constructor Sample2.penv_blanks
  = Ok {| endpoints := [
            primary "http://main-endpoint.test";
            {| url := "http://b1.test"; name := "One"; priority := 2;
               isHealthy := true; lastHealthCheck := 0 |};
            {| url := "http://b4.test"; name := "Backup 4"; priority := 5;
               isHealthy := true; lastHealthCheck := 0 |} ];
          currentEndpointIndex := 0 |}.
Proof.
  destruct (constructor_keeps_declared_order Sample2.penv_blanks) as [_ Hok].
  destruct (constructor Sample2.penv_blanks) as [svc|e] eqn:Hc; [|by vm_compute in Hc].
  destruct (Hok svc eq_refl) as (u & backups & Hu & He & -> & _ & _ & _ & Hcur).
  injection Hu as <-. destruct svc as [l c]. simpl in He, Hcur. subst l c.
  vm_compute. reflexivity.
Defined.

Section Selection.
Context (env : Env).

Lemma probes_only_refl s : probes_only 0 s s.
Proof.
  unfold probes_only. split_and!; try done; try lia.
  exists []. split_and!; [by rewrite app_nil_r|done|done].
Qed.

Lemma probes_only_trans n m s s1 s2 :
  probes_only n s s1 → probes_only m s1 s2 → probes_only (n + m) s s2.
Proof.
  intros ((p1 & Ht1 & Hp1 & Hl1) & Hk1 & Hd1 & Hs1) ((p2 & Ht2 & Hp2 & Hl2) & Hk2 & Hd2 & Hs2).
  unfold probes_only. split_and!; try lia; [|congruence..].
  exists (p1 ++ p2). split_and!.
  - by rewrite Ht2, Ht1, app_assoc.
  - by apply Forall_app.
  - rewrite length_app. lia.
Qed.

Lemma updated_probes_only i e s :
  endpoints s.1 !! i = Some e → probes_only 1 s (updated env i e s).
Proof.
  intros He. unfold probes_only, updated.
  destruct (_ >? _)%Z; simpl.
  - split_and!; try lia; try done.
    + exists [GetSlot (url e)]. split_and!; [done|by repeat constructor|done].
    + rewrite list_fmap_insert. apply list_insert_id.
      by rewrite list_lookup_fmap, He.
  - split_and!; try lia; try done.
    exists []. split_and!; [by rewrite app_nil_r|done|simpl; lia].
Qed.

Lemma getHealthyConnection_from_probes n : ∀ i s r s',
  i + n = length (endpoints s.1) →
  getHealthyConnection_from env n i s = (r, s') → probes_only n s s'.
Proof.
  induction n as [|n IH]; intros i s r s' Hlen Hrun.
  - simpl in Hrun. injection Hrun as <- <-. apply probes_only_refl.
  - destruct (lookup_lt_is_Some_2 (endpoints s.1) i) as [e He]; [lia|].
    destruct (RpcFacts.getHealthyConnection_from_S env n i s e He) as (e' & He' & Hurl & Heq).
    rewrite Heq in Hrun. clear Heq.
    pose proof (updated_probes_only i e s He) as Hup.
    destruct (isHealthy e').
    + injection Hrun as <- <-.
      destruct Hup as ((p & Ht & Hp & Hl) & Hk & Hd & Hs).
      unfold probes_only. split_and!; try lia; try done.
      exists p. split_and!; [done..|lia].
    + apply IH in Hrun; [|rewrite RpcFacts.updated_length; lia].
      exact (probes_only_trans 1 n _ _ _ Hup Hrun).
Qed.

Lemma getNextHealthyConnection_loop_probes n : ∀ s r s',
  getNextHealthyConnection_loop env n s = (r, s') → probes_only n s s'.
Proof.
  induction n as [|n IH]; intros s r s' Hrun.
  - simpl in Hrun. injection Hrun as <- <-. apply probes_only_refl.
  - destruct (endpoints s.1 !! currentEndpointIndex s.1) as [e|] eqn:He.
    + destruct (RpcFacts.getNextHealthyConnection_loop_S env n s e He)
        as (e' & He' & Hurl & Heq).
      rewrite Heq in Hrun. clear Heq.
      pose proof (updated_probes_only _ e s He) as Hup.
      destruct (isHealthy e').
      * injection Hrun as <- <-.
        destruct Hup as ((p & Ht & Hp & Hl) & Hk & Hd & Hs).
        unfold probes_only. split_and!; try lia; try done.
        exists p. split_and!; [done..|lia].
      * apply IH in Hrun.
        refine (probes_only_trans 1 n _ _ _ Hup _).
        unfold probes_only in Hrun |- *. simpl in Hrun.
        destruct Hrun as (Hp & Hk & Hd & Hs).
        exact (conj Hp (conj Hk (conj Hd Hs))).
    + simpl in Hrun. unfold bind at 1, gets at 1 in Hrun. unfold bind at 1 in Hrun.
      unfold updateEndpointHealth, bind, on_snd, now, endpoint_at in Hrun.
      simpl in Hrun. rewrite He in Hrun. injection Hrun as <- <-.
      unfold probes_only. simpl. split_and!; try lia; try done.
      exists []. split_and!; [by rewrite app_nil_r|done|simpl; lia].
Qed.

Lemma getHealthyConnection_from_first n : ∀ i s c s',
  i + n = length (endpoints s.1) →
  getHealthyConnection_from env n i s = (Ok c, s') →
  ∃ j e, i ≤ j ∧ endpoints s'.1 !! j = Some e ∧ isHealthy e = true ∧
         c = Web3.new_Connection (url e) ∧
         (∀ k e', i ≤ k < j → endpoints s'.1 !! k = Some e' → isHealthy e' = false) ∧
         (∀ k, j < k → endpoints s'.1 !! k = endpoints s.1 !! k).
Proof.
  induction n as [|n IH]; intros i s c s' Hlen Hrun; [done|].
  destruct (lookup_lt_is_Some_2 (endpoints s.1) i) as [e He]; [lia|].
  destruct (RpcFacts.getHealthyConnection_from_S env n i s e He) as (e' & He' & Hurl & Heq).
  rewrite Heq in Hrun. clear Heq.
  destruct (isHealthy e') eqn:Hh.
  - injection Hrun as <- <-. exists i, e'. split_and!; try done.
    + intros k e'' Hk. lia.
    + intros k Hk. apply RpcFacts.updated_lookup_ne. lia.
  - assert (Hlen' : S i + n = length (endpoints (updated env i e s).1))
      by (rewrite RpcFacts.updated_length; lia).
    pose proof (RpcFacts.getHealthyConnection_from_spec env n (S i) _ _ _ Hlen' Hrun)
      as (_ & _ & Hframe & _).
    apply IH in Hrun; [|done].
    destruct Hrun as (j & e'' & Hj & He'' & Hh'' & Hc & Hbefore & Hafter).
    exists j, e''. split_and!; try done; [lia| |].
    + intros k e0 Hk He0. destruct (decide (k = i)) as [->|Hne].
      * rewrite Hframe in He0 by lia. congruence.
      * eapply Hbefore; [|done]. lia.
    + intros k Hk. rewrite Hafter by done. apply RpcFacts.updated_lookup_ne. lia.
Qed.
End Selection.

(** X9. [getHealthyConnection] prefers the best priority: the endpoint it
    returns is healthy, every endpoint before it in the list has just been
    found unhealthy, and the endpoints after it are not even looked at (their
    flags and times are as before). It never moves the cursor of the other
    policy. *)
Theorem getHealthyConnection_returns_first_healthy (env : Env)
    (s s' : RpcService * World) (c : Web3.Connection) :
  getHealthyConnection env s = (Ok c, s') →
  ∃ j e, endpoints s'.1 !! j = Some e ∧ isHealthy e = true ∧
         c = Web3.new_Connection (url e) ∧
         (∀ k e', k < j → endpoints s'.1 !! k = Some e' → isHealthy e' = false) ∧
         (∀ k, j < k → endpoints s'.1 !! k = endpoints s.1 !! k) ∧
         currentEndpointIndex s'.1 = currentEndpointIndex s.1.
Proof.
  intros Hrun. unfold getHealthyConnection in Hrun.
  pose proof (RpcFacts.getHealthyConnection_from_spec env _ 0 s _ s' eq_refl Hrun)
    as (_ & Hcur & _).
  apply getHealthyConnection_from_first in Hrun; [|done].
  destruct Hrun as (j & e & _ & He & Hh & Hc & Hbefore & Hafter).
  exists j, e. split_and!; try done.
  intros k e' Hk. apply Hbefore. lia.
Qed.

Lemma getHealthyConnection_returns_first_healthy_witness :
  ∃ s', getHealthyConnection Sample2.env_primary_down (Sample.rpc2, Sample.world)
        = (Ok (Web3.new_Connection "http://fallback-endpoint.test"), s') ∧
        isHealthy <$> endpoints s'.1 = [false; true].
Proof.
  destruct (getHealthyConnection Sample2.env_primary_down (Sample.rpc2, Sample.world))
    as [r s'] eqn:Hrun.
  assert (Hr : r = Ok (Web3.new_Connection "http://fallback-endpoint.test")).
  { vm_compute in Hrun. by injection Hrun as <- _. }
  subst r. exists s'. split; [done|].
  destruct (getHealthyConnection_returns_first_healthy _ _ _ _ Hrun)
    as (j & e & He & Hh & Hc & Hbefore & _).
  vm_compute in Hrun. by injection Hrun as <-.
Defined.

(** X10. A selection, by either policy, talks to the endpoints by probes
    only and at most once to each: the history grows by [getSlot] requests,
    at most as many as there are endpoints; the disk is not touched; the
    endpoints keep their number, order, URLs, names and priorities (nothing
    but the health flag and the time of the check changes). *)
Theorem selection_sends_probes_only (env : Env) (s s' : RpcService * World)
    (r : Result Web3.Connection) :
  getHealthyConnection env s = (r, s') ∨ getNextHealthyConnection env s = (r, s') →
  probes_only (length (endpoints s.1)) s s'.
Proof.
  intros [Hrun|Hrun].
  - exact (getHealthyConnection_from_probes env _ 0 s r s' eq_refl Hrun).
  - exact (getNextHealthyConnection_loop_probes env _ s r s' Hrun).
Qed.

Lemma selection_sends_probes_only_witness :
  ∃ s', getNextHealthyConnection Sample.env_down (Sample.rpc2, Sample.world)
        = (Throw NoHealthyEndpoint, s') ∧
        trace s'.2 = [GetSlot "http://main-endpoint.test";
                      GetSlot "http://fallback-endpoint.test"] ∧
        probes_only 2 (Sample.rpc2, Sample.world) s'.
Proof.
  destruct (getNextHealthyConnection Sample.env_down (Sample.rpc2, Sample.world))
    as [r s'] eqn:Hrun.
  pose proof (selection_sends_probes_only _ _ _ _ (or_intror Hrun)) as Hp.
  vm_compute in Hrun. injection Hrun as <- <-. eexists. split_and!; [done|done|exact Hp].
Defined.

Section Trusting.
Context (env : Env).

Lemma updated_closed i e s :
  (Date_now env (ticks s.2) - lastHealthCheck e ≤ healthCheckInterval)%Z →
  updated env i e s = (s.1, set_ticks (S (ticks s.2)) s.2).
Proof.
  intros Hclosed. unfold updated.
  destruct (Z.gtb_spec (Date_now env (ticks s.2) - lastHealthCheck e) healthCheckInterval);
    [lia|done].
Qed.

Lemma checked_recently_later svc w n :
  checked_recently env (S n) (svc, w) →
  checked_recently env n (svc, set_ticks (S (ticks w)) w).
Proof. intros Hall k e Hk He. apply Hall; [simpl in *; lia|done]. Qed.

Lemma first_flagged_cons e l :
  first_flagged (e :: l)
  = if isHealthy e then Ok (Web3.new_Connection (url e)) else first_flagged l.
Proof.
  unfold first_flagged. simpl. destruct (isHealthy e) eqn:Hh.
  - by rewrite decide_True.
  - rewrite decide_False by congruence.
    by destruct (list_find _ l) as [[j e']|].
Qed.

Lemma getHealthyConnection_from_trusting n : ∀ i svc w,
  i + n = length (endpoints svc) →
  checked_recently env n (svc, w) →
  ∃ k, k ≤ n ∧
       getHealthyConnection_from env n i (svc, w)
       = (first_flagged (drop i (endpoints svc)), (svc, set_ticks (ticks w + k) w)).
Proof.
  induction n as [|n IH]; intros i svc w Hlen Hall.
  - exists 0. split; [done|]. simpl. rewrite drop_ge by lia.
    unfold throw, first_flagged. simpl. rewrite Nat.add_0_r. by destruct w.
  - destruct (lookup_lt_is_Some_2 (endpoints svc) i) as [e He]; [lia|].
    destruct (RpcFacts.getHealthyConnection_from_S env n i (svc, w) e He)
      as (e' & He' & Hurl & ->).
    assert (Hclosed : (Date_now env (ticks w) - lastHealthCheck e ≤ healthCheckInterval)%Z).
    { apply (Hall (ticks w) e); [simpl; lia|]. by eapply list_elem_of_lookup_2. }
    rewrite (updated_closed i e (svc, w) Hclosed) in *. simpl in He'.
    rewrite He in He'. injection He' as <-.
    rewrite (drop_S _ _ _ He), first_flagged_cons.
    destruct (isHealthy e).
    + exists 1. split; [lia|]. by rewrite Nat.add_1_r.
    + cbn [fst snd].
      destruct (IH (S i) svc (set_ticks (S (ticks w)) w)) as (k & Hk & Hrun); [lia| |].
      { by apply checked_recently_later. }
      exists (S k). split; [lia|]. rewrite Hrun. unfold set_ticks. simpl.
      do 3 f_equal. lia.
Qed.

Lemma getNextHealthyConnection_loop_trusting n : ∀ s r s',
  checked_recently env n s →
  getNextHealthyConnection_loop env n s = (r, s') →
  endpoints s'.1 = endpoints s.1 ∧ trace s'.2 = trace s.2 ∧ disk s'.2 = disk s.2.
Proof.
  induction n as [|n IH]; intros s r s' Hall Hrun.
  - simpl in Hrun. by injection Hrun as <- <-.
  - destruct (endpoints s.1 !! currentEndpointIndex s.1) as [e|] eqn:He.
    + destruct (RpcFacts.getNextHealthyConnection_loop_S env n s e He)
        as (e' & He' & Hurl & Heq).
      rewrite Heq in Hrun. clear Heq.
      assert (Hclosed : (Date_now env (ticks s.2) - lastHealthCheck e
                         ≤ healthCheckInterval)%Z).
      { apply (Hall (ticks s.2) e); [lia|]. by eapply list_elem_of_lookup_2. }
      rewrite (updated_closed _ e s Hclosed) in *. simpl in *.
      destruct (isHealthy e').
      * by injection Hrun as <- <-.
      * apply IH in Hrun; [done|].
        intros k e0 Hk He0. apply Hall; [simpl in *; lia|done].
    + simpl in Hrun. unfold bind at 1, gets at 1 in Hrun. unfold bind at 1 in Hrun.
      unfold updateEndpointHealth, bind, on_snd, now, endpoint_at in Hrun.
      simpl in Hrun. rewrite He in Hrun. by injection Hrun as <- <-.
Qed.

Lemma getNextHealthyConnection_loop_fails_at n : ∀ s e s',
  wf s.1 → n ≤ length (endpoints s.1) →
  getNextHealthyConnection_loop env n s = (Throw e, s') →
  currentEndpointIndex s'.1 = wrap (length (endpoints s.1)) (currentEndpointIndex s.1 + n).
Proof.
  induction n as [|n IH]; intros s err s' Hwf Hn Hrun; unfold wf in Hwf.
  - simpl in Hrun. injection Hrun as _ <-. unfold wrap. case_decide; lia.
  - destruct (lookup_lt_is_Some_2 (endpoints s.1) (currentEndpointIndex s.1)) as [e He];
      [done|].
    destruct (RpcFacts.getNextHealthyConnection_loop_S env n s e He)
      as (e' & He' & Hurl & Heq).
    rewrite Heq in Hrun. clear Heq.
    destruct (isHealthy e'); [done|].
    rewrite RpcFacts.wrap_succ in Hrun by done.
    apply IH in Hrun; simpl;
      [|unfold wf; simpl; rewrite RpcFacts.updated_length; unfold wrap; case_decide; lia
       |rewrite RpcFacts.updated_length; lia].
    simpl in Hrun. rewrite RpcFacts.updated_length in Hrun.
    rewrite Hrun. unfold wrap. repeat case_decide; lia.
Qed.
End Trusting.

(** X11. Between checks the last known health is trusted: when no endpoint
    is due for a check during the call (each was checked within the five
    minutes before every reading of the clock that the call makes, one for
    each endpoint it considers), a selection sends no request and changes no
    endpoint. [getHealthyConnection] then answers by the flags alone, with
    the first endpoint flagged healthy, or with the failure when none is. *)
Theorem selection_trusts_recent_checks (env : Env) (s : RpcService * World) :
  all_checked_recently env s →
  (∃ k, k ≤ length (endpoints s.1) ∧
        getHealthyConnection env s
        = (first_flagged (endpoints s.1), (s.1, set_ticks (ticks s.2 + k) s.2))) ∧
  (∀ r s', getNextHealthyConnection env s = (r, s') →
           endpoints s'.1 = endpoints s.1 ∧ trace s'.2 = trace s.2 ∧ disk s'.2 = disk s.2).
Proof.
  unfold all_checked_recently. intros Hall. split.
  - destruct s as [svc w].
    destruct (getHealthyConnection_from_trusting env (length (endpoints svc)) 0 svc w
                eq_refl Hall) as (k & Hk & Hrun).
    exists k. split; [done|]. unfold getHealthyConnection. simpl. by rewrite Hrun.
  - intros r s' Hrun. by eapply getNextHealthyConnection_loop_trusting.
Qed.

(** With the clock of [env_up], which advances by a millisecond at each
    reading: both endpoints were checked at [NOW], the primary found down;
    the backup is returned after two readings of the clock and no probe. *)
Lemma selection_trusts_recent_checks_witness :
  all_checked_recently Sample.env_up (Sample2.rpc2_checked, Sample.world) ∧
  getHealthyConnection Sample.env_up (Sample2.rpc2_checked, Sample.world)
  = (Ok (Web3.new_Connection "http://fallback-endpoint.test"),
     (Sample2.rpc2_checked, set_ticks 2 Sample.world)).
Proof.
  assert (Hall : all_checked_recently Sample.env_up
                   (Sample2.rpc2_checked, Sample.world)).
  { intros n e [_ Hn] He. simpl in Hn |- *.
    assert (Hchecked : lastHealthCheck e = Sample.NOW).
    { simpl in He. repeat (apply elem_of_cons in He as [->|He]; [done|]).
      by apply elem_of_nil in He. }
    rewrite Hchecked. unfold healthCheckInterval. lia. }
  split; [exact Hall|].
  destruct (selection_trusts_recent_checks _ _ Hall) as [(k & Hk & Hrun) _].
  assert (Hk2 : k = 2).
  { pose proof Hrun as Heq. vm_compute in Heq. congruence. }
  subst k. rewrite Hrun. reflexivity.
Defined.

(** X12. A selection by the cursor policy that fails has gone once round
    all the endpoints: it leaves the cursor where it found it. *)
Theorem failed_selection_keeps_the_cursor (env : Env) (s s' : RpcService * World)
    (e : Thrown) :
  wf s.1 →
  getNextHealthyConnection env s = (Throw e, s') →
  currentEndpointIndex s'.1 = currentEndpointIndex s.1.
Proof.
  intros Hwf Hrun. unfold getNextHealthyConnection in Hrun.
  apply getNextHealthyConnection_loop_fails_at in Hrun; [|done..].
  rewrite Hrun. unfold wf in Hwf. unfold wrap. case_decide; lia.
Qed.

Lemma failed_selection_keeps_the_cursor_witness :
  wf (set_currentEndpointIndex 1 Sample.rpc2) ∧
  ∃ s', getNextHealthyConnection Sample.env_down
          (set_currentEndpointIndex 1 Sample.rpc2, Sample.world)
        = (Throw NoHealthyEndpoint, s') ∧
        currentEndpointIndex s'.1 = 1 ∧
        trace s'.2 = [GetSlot "http://fallback-endpoint.test";
                      GetSlot "http://main-endpoint.test"].
Proof.
  assert (Hwf : wf (set_currentEndpointIndex 1 Sample.rpc2)) by (unfold wf; simpl; lia).
  split; [exact Hwf|].
  destruct (getNextHealthyConnection Sample.env_down
              (set_currentEndpointIndex 1 Sample.rpc2, Sample.world)) as [r s'] eqn:Hrun.
  assert (Hr : r = Throw NoHealthyEndpoint).
  { vm_compute in Hrun. by injection Hrun as <- _. }
  subst r. exists s'. split; [done|].
  split; [exact (failed_selection_keeps_the_cursor Sample.env_down
                   (set_currentEndpointIndex 1 Sample.rpc2, Sample.world) s' _ Hwf Hrun)|].
  vm_compute in Hrun. by injection Hrun as <-.
Defined.

End RpcMore.

(** ** The deployment detector *)

Module ProgramMore.
Import Program ProgramSpec ProgramSpec2.

Lemma append_nil (t : string) : String.append "" t = t.
Proof. reflexivity. Qed.

Lemma append_cons (a : ascii) (s t : string) :
  String.append (String a s) t = String a (String.append s t).
Proof. reflexivity. Qed.

Lemma prefix_spec (p s : string) :
  String.prefix p s = true ↔ ∃ rest, s = String.append p rest.
Proof.
  revert p. induction s as [|b s IH]; intros [|a p]; simpl.
  - split; [intros _; by exists ""|done].
  - split; [done|]. intros [rest Hrest]. by rewrite append_cons in Hrest.
  - split; [intros _; by exists (String b s)|done].
  - destruct (Ascii.ascii_dec a b) as [->|Hne].
    + rewrite IH. split; intros [rest Hrest]; exists rest.
      * rewrite append_cons. by f_equal.
      * rewrite append_cons in Hrest. by injection Hrest.
    + split; [done|]. intros [rest Hrest]. rewrite append_cons in Hrest.
      injection Hrest as ? _. congruence.
Qed.

Lemma includes_spec (s needle : string) :
  includes s needle = true ↔ contains s needle.
Proof.
  unfold contains. induction s as [|a s IH].
  - unfold includes. destruct (String.prefix needle "") eqn:Hp.
    + split; [intros _|done]. apply prefix_spec in Hp as [rest Hrest].
      by exists "", rest.
    + split; [done|]. intros (before & after & Heq).
      destruct before; [|by rewrite append_cons in Heq].
      rewrite append_nil in Heq.
      assert (String.prefix needle "" = true) by (apply prefix_spec; by exists after).
      congruence.
  - change (includes (String a s) needle)
      with (if String.prefix needle (String a s) then true else includes s needle).
    destruct (String.prefix needle (String a s)) eqn:Hp.
    + split; [intros _|done]. apply prefix_spec in Hp as [rest Hrest].
      by exists "", rest.
    + rewrite IH. split.
      * intros (before & after & ->). exists (String a before), after.
        by rewrite append_cons.
      * intros (before & after & Heq). destruct before as [|b before].
        -- rewrite append_nil in Heq.
           assert (String.prefix needle (String a s) = true)
             by (apply prefix_spec; by exists after).
           congruence.
        -- rewrite append_cons in Heq. injection Heq as _ ->. by exists before, after.
Qed.

(** X13. The classification of a log line: a line tells a deployment exactly
    when "Deployed program" or "Deploy with ID" occurs in it, or both the
    program identifier and "success" occur in it, anywhere in the line and in
    any order. *)
Theorem deployment_log_is_a_substring_test (programId log : string) :
  is_deployment_log programId log = true ↔
  contains log "Deployed program" ∨ contains log "Deploy with ID" ∨
  (contains log programId ∧ contains log "success").
Proof.
  unfold is_deployment_log.
  rewrite !orb_true_iff, andb_true_iff, !includes_spec. tauto.
Qed.

Section Detector.
Context (env : Env).

Lemma scan_trace connection programId l : ∀ w r w',
  scan env connection programId l w = (r, w') →
  ∃ k, k ≤ length l ∧
       trace w' = trace w ++ (fetch_event connection <$> take k l).
Proof.
  induction l as [|sig l IH]; intros w r w' Hrun.
  - simpl in Hrun. injection Hrun as <- <-. exists 0. by rewrite app_nil_r.
  - rewrite ProgramFacts.scan_cons in Hrun.
    destruct (rpc_getParsedTransaction _ _ _ _) as [tx|].
    + destruct (is_deployment_tx programId tx).
      * injection Hrun as <- <-. exists 1. split; [simpl; lia|done].
      * apply IH in Hrun as (k & Hk & ->). exists (S k). split; [simpl; lia|].
        unfold log_event. simpl. by rewrite <- app_assoc.
    + injection Hrun as <- <-. exists 1. split; [simpl; lia|done].
Qed.

(** The requests of [findDeploymentTransaction]: the list of signatures,
    then transactions. *)
Lemma findDeploymentTransaction_trace connection target programId w :
  ∃ o w' rest,
    findDeploymentTransaction env connection target programId w = (Ok o, w') ∧
    trace w' = trace w ++ GetSignaturesForAddress (Web3.rpcEndpoint connection) target :: rest ∧
    Forall (λ ev, ∃ sig, ev = GetParsedTransaction (Web3.rpcEndpoint connection) sig) rest ∧
    ticks w' = ticks w ∧ disk w' = disk w.
Proof.
  unfold findDeploymentTransaction, try_catch, bind, getSignaturesForAddress, request.
  destruct (rpc_getSignaturesForAddress _ _ _ _) as [sigs|].
  - destruct (length sigs =? 0).
    + by eexists _, _, [].
    + destruct (scan _ _ _ _ _) as [r w'] eqn:Hscan.
      pose proof (ProgramFacts.scan_account_fetches _ _ _ _ _ _ _ Hscan) as (_ & Ht & Hd).
      apply scan_trace in Hscan as (k & _ & Htr).
      assert (Hrest : Forall (λ ev, ∃ sig, ev = GetParsedTransaction
                                      (Web3.rpcEndpoint connection) sig)
                        (fetch_event connection <$>
                           take k (sort_by (λ sig, or0 (Web3.slot sig)) sigs))).
      { apply Forall_fmap, Forall_forall. intros sig _. by eexists. }
      destruct r as [o|e]; eexists _, _, _; (split; [done|]);
        rewrite Htr; unfold log_event; simpl; rewrite <- app_assoc; by split_and!.
  - by eexists _, _, [].
Qed.

Lemma scan_throw connection programId l1 : ∀ sig l2 w e,
  (∀ i s, l1 !! i = Some s →
     ∃ tx, rpc_getParsedTransaction env (length (trace w) + i)
             (Web3.rpcEndpoint connection) (Web3.signature s) = Ok tx ∧
           is_deployment_tx programId tx = false) →
  rpc_getParsedTransaction env (length (trace w) + length l1)
    (Web3.rpcEndpoint connection) (Web3.signature sig) = Throw e →
  scan env connection programId (l1 ++ sig :: l2) w
    = (Throw e, set_trace (trace w ++ (fetch_event connection <$> (l1 ++ [sig]))) w).
Proof.
  induction l1 as [|s l1 IH]; intros sig l2 w e Hpass Hthrow.
  - simpl in Hthrow. rewrite Nat.add_0_r in Hthrow.
    simpl app. by rewrite ProgramFacts.scan_cons, Hthrow.
  - destruct (Hpass 0 s eq_refl) as (tx & Htx & Hdep). rewrite Nat.add_0_r in Htx.
    simpl app. rewrite ProgramFacts.scan_cons, Htx, Hdep.
    rewrite (IH sig l2 _ e).
    + unfold log_event, set_trace. simpl. by rewrite <- app_assoc.
    + intros i s' Hs'. destruct (Hpass (S i) s' Hs') as (tx' & Htx' & Hdep').
      exists tx'. split; [|done]. rewrite <- Htx'. f_equal.
      unfold log_event. simpl. rewrite length_app. simpl. lia.
    + rewrite <- Hthrow. f_equal. unfold log_event. simpl. rewrite length_app. simpl. lia.
Qed.

Lemma attempt_throw_keeps_cache programId s e s' :
  attempt env programId s = (Throw e, s') →
  cacheService s'.1 = cacheService s.1.
Proof.
  rewrite ProgramFacts.attempt_unfold. unfold on_rpc.
  destruct (Rpc.getNextHealthyConnection env (rpcService s.1, s.2)) as [[c|e0] [rpc' w1]];
    [|by intros [= _ <-]].
  destruct (PublicKey_error env programId); [by intros [= _ <-]|]. simpl.
  destruct (rpc_getParsedAccountInfo env _ _ _) as [[value|]|e0]; [|by intros [= _ <-]..].
  destruct (isProgramAccount (Web3.owner value)); [|by intros [= _ <-]].
  destruct (PublicKey_error env (target_of programId value)); [by intros [= _ <-]|].
  destruct (findDeploymentTransaction _ _ _ _ _) as [[[info|]|e0] w3];
    [|by intros [= _ <-]..].
  unfold on_cache. simpl.
  destruct (CacheFacts.cacheDeployment_ok env programId (signature info) (slot info)
              (timestamp info) (truthy_opt (Web3.parsed_info_programData value))
              (Web3.parsed_info_programData value) (cacheService s.1, w3))
    as (c' & w4 & -> & _).
  done.
Qed.

Lemma attempt_ok_caches programId s info s' :
  attempt env programId s = (Ok info, s') →
  ∃ entry, Cache.cache (cacheService s'.1) !! programId = Some entry ∧
           Entry.deploymentSignature entry = signature info ∧
           Entry.deploymentSlot entry = slot info ∧
           Entry.deploymentTimestamp entry = timestamp info.
Proof.
  rewrite ProgramFacts.attempt_unfold. unfold on_rpc.
  destruct (Rpc.getNextHealthyConnection env (rpcService s.1, s.2)) as [[c|e0] [rpc' w1]];
    [|done].
  destruct (PublicKey_error env programId); [done|]. simpl.
  destruct (rpc_getParsedAccountInfo env _ _ _) as [[value|]|e0]; [|done..].
  destruct (isProgramAccount (Web3.owner value)); [|done].
  destruct (PublicKey_error env (target_of programId value)); [done|].
  destruct (findDeploymentTransaction _ _ _ _ _) as [[[info'|]|e0] w3]; [|done..].
  unfold on_cache. simpl.
  destruct (CacheMore.cacheDeployment_eq env programId (signature info') (slot info')
              (timestamp info') (truthy_opt (Web3.parsed_info_programData value))
              (Web3.parsed_info_programData value) (cacheService s.1, w3))
    as (w4 & -> & _).
  intros [= <- <-]. simpl. eexists. split; [apply lookup_insert_eq|done].
Qed.

Lemma attempts_loop_throw_keeps_cache n programId : ∀ lastError s e s',
  attempts_loop env n programId lastError s = (Throw e, s') →
  cacheService s'.1 = cacheService s.1.
Proof.
  induction n as [|n IH]; intros lastError s e s' Hrun.
  - simpl in Hrun. by injection Hrun as _ <-.
  - simpl in Hrun. unfold try_catch, bind in Hrun.
    destruct (attempt env programId s) as [[info|e0] s1] eqn:Hatt; [done|].
    apply attempt_throw_keeps_cache in Hatt. apply IH in Hrun. congruence.
Qed.

Lemma attempts_loop_ok_caches n programId : ∀ lastError s o s',
  attempts_loop env n programId lastError s = (Ok o, s') →
  ∃ info entry, o = Some info ∧
    Cache.cache (cacheService s'.1) !! programId = Some entry ∧
    Entry.deploymentSignature entry = signature info ∧
    Entry.deploymentSlot entry = slot info ∧
    Entry.deploymentTimestamp entry = timestamp info.
Proof.
  induction n as [|n IH]; intros lastError s o s' Hrun; [done|].
  simpl in Hrun. unfold try_catch, bind in Hrun.
  destruct (attempt env programId s) as [[info|e0] s1] eqn:Hatt.
  - injection Hrun as <- <-. apply attempt_ok_caches in Hatt as (entry & Hentry).
    by exists info, entry.
  - by apply IH in Hrun.
Qed.

(** [getDeploymentInfo] by its three ways out. *)
Lemma getDeploymentInfo_unfold programId s :
  getDeploymentInfo env programId s =
    if isNativeProgram programId then (Ok None, s)
    else match Cache.getCachedDeployment env programId (cacheService s.1, s.2) with
         | (Ok (Some entry), (c', w')) =>
             (Ok (Some (of_entry entry)),
              ({| rpcService := rpcService s.1; cacheService := c' |}, w'))
         | (Ok None, (c', w')) =>
             attempts_loop env maxAttempts programId None
               ({| rpcService := rpcService s.1; cacheService := c' |}, w')
         | (Throw e, (c', w')) =>
             (Throw e, ({| rpcService := rpcService s.1; cacheService := c' |}, w'))
         end.
Proof.
  unfold getDeploymentInfo. destruct (isNativeProgram programId); [done|].
  unfold bind, on_cache.
  by destruct (Cache.getCachedDeployment _ _ _) as [[[entry|]|e] [c' w']].
Qed.
End Detector.

(** X14. [findDeploymentTransaction] never throws: whatever the server
    answers, it returns a result or [null]. It sends the request for the
    signatures of the target first and then only requests for transactions,
    all on the connection it was given; it reads no clock and touches no
    file. When the request for the signatures fails, it returns [null] with
    nothing else sent. *)
Theorem findDeploymentTransaction_swallows_errors (env : Env) (connection : Web3.Connection)
    (target programId : string) (w : World) :
  let u := Web3.rpcEndpoint connection in
  ∃ o w' rest,
    findDeploymentTransaction env connection target programId w = (Ok o, w') ∧
    trace w' = trace w ++ GetSignaturesForAddress u target :: rest ∧
    Forall (λ ev, ∃ sig, ev = GetParsedTransaction u sig) rest ∧
    ticks w' = ticks w ∧ disk w' = disk w ∧
    (∀ e, rpc_getSignaturesForAddress env (length (trace w)) u target = Throw e →
          o = None ∧ rest = []).
Proof.
  intros u.
  destruct (findDeploymentTransaction_trace env connection target programId w)
    as (o & w' & rest & Hfind & Htrace & Hrest & Ht & Hd).
  exists o, w', rest. split_and!; try done.
  intros e He. revert Hfind.
  unfold findDeploymentTransaction, try_catch, bind, getSignaturesForAddress, request.
  fold u. rewrite He. intros [= <- <-]. split; [done|].
  unfold log_event in Htrace. simpl in Htrace.
  apply app_inv_head in Htrace. by injection Htrace as <-.
Qed.

(** X15. A transaction fetch that throws ends the scan: the transactions
    before it having been passed, [findDeploymentTransaction] returns [null]
    and fetches none of the later transactions, whatever they hold. *)
Theorem failed_fetch_ends_the_scan (env : Env) (connection : Web3.Connection)
    (targetAccount programId : string) (w : World)
    (signatures l1 l2 : list Web3.ConfirmedSignatureInfo)
    (sig : Web3.ConfirmedSignatureInfo) (e : Thrown) :
  let u := Web3.rpcEndpoint connection in
  let n := length (trace w) in
  rpc_getSignaturesForAddress env n u targetAccount = Ok signatures →
  sort_by (λ s, or0 (Web3.slot s)) signatures = l1 ++ sig :: l2 →
  (∀ i s, l1 !! i = Some s →
     ∃ tx, rpc_getParsedTransaction env (n + 1 + i) u (Web3.signature s) = Ok tx ∧
           is_deployment_tx programId tx = false) →
  rpc_getParsedTransaction env (n + 1 + length l1) u (Web3.signature sig) = Throw e →
  findDeploymentTransaction env connection targetAccount programId w
    = (Ok None,
       set_trace (trace w ++ GetSignaturesForAddress u targetAccount
                    :: (fetch_event connection <$> (l1 ++ [sig]))) w).
Proof.
  intros u n Hsigs Hsort Hpass Hthrow.
  unfold findDeploymentTransaction, try_catch, bind, getSignaturesForAddress, request.
  fold u n. rewrite Hsigs.
  destruct signatures as [|s0 signatures]; [by destruct l1|].
  replace (length (s0 :: signatures) =? 0) with false by done.
  rewrite Hsort, (scan_throw env connection programId l1 sig l2 _ e).
  - unfold ret, log_event, set_trace. simpl. by rewrite <- app_assoc.
  - intros i s Hs. destruct (Hpass i s Hs) as (tx & Htx & Hdep).
    exists tx. split; [|done]. rewrite <- Htx. f_equal.
    unfold log_event. simpl. rewrite length_app. simpl. lia.
  - rewrite <- Hthrow. f_equal. unfold log_event. simpl. rewrite length_app. simpl. lia.
Qed.

Lemma failed_fetch_ends_the_scan_witness :
  findDeploymentTransaction Sample2.env_flaky
    (Web3.new_Connection "http://main-endpoint.test")
    Sample.PROGRAM_DATA Sample.PROGRAM Sample.world
  = (Ok None,
     set_trace [GetSignaturesForAddress "http://main-endpoint.test" Sample.PROGRAM_DATA;
                GetParsedTransaction "http://main-endpoint.test" "sig2";
                GetParsedTransaction "http://main-endpoint.test" "sig5"] Sample.world).
Proof.
  refine (failed_fetch_ends_the_scan Sample2.env_flaky
            (Web3.new_Connection "http://main-endpoint.test")
            Sample.PROGRAM_DATA Sample.PROGRAM Sample.world _
            [Sample.sig_at "sig2" 2] [Sample.sig_at "sig9" 9] (Sample.sig_at "sig5" 5)
            (Error "429 Too Many Requests") eq_refl eq_refl _ eq_refl).
  intros [|i] s Hs; [|done]. injection Hs as <-.
  eexists. split; [reflexivity|]. vm_compute. reflexivity.
Defined.

Section Outcomes.
Context (env : Env).

Lemma getCachedDeployment_cases programId c w :
  ∃ o c' w', Cache.getCachedDeployment env programId (c, w) = (Ok o, (c', w')) ∧
    match o with
    | Some entry => c' = c ∧ w' = set_ticks (S (ticks w)) w ∧
                    Cache.cache c !! programId = Some entry ∧
                    CacheSpec.fresh_at (Date_now env (ticks w)) entry
    | None => Cache.cache c' !! programId = None ∧
              ∀ k, k ≠ programId → Cache.cache c' !! k = Cache.cache c !! k
    end.
Proof.
  destruct (Cache.cache c !! programId) as [entry|] eqn:Hentry.
  - destruct (decide (CacheSpec.fresh_at (Date_now env (ticks w)) entry)) as [Hfresh|Hold].
    + rewrite (CacheMore.getCachedDeployment_hit env programId entry (c, w) Hentry Hfresh).
      by eexists (Some entry), _, _.
    + unfold Cache.getCachedDeployment. unfold bind at 1, gets at 1. simpl. rewrite Hentry.
      unfold bind at 1, on_snd at 1, now. simpl.
      destruct (Z.gtb_spec (Date_now env (ticks w) - Entry.lastChecked entry)
                  Cache.cacheValidityPeriod) as [_|]; [|unfold CacheSpec.fresh_at in Hold; lia].
      unfold bind at 1, Cache.set_cache at 1, modify. simpl.
      destruct (CacheFacts.saveCache_ok env
                  ({| Cache.cache := delete programId (Cache.cache c) |},
                   set_ticks (S (ticks w)) w)) as (w' & Hsave & _).
      unfold bind. rewrite Hsave. simpl. eexists None, _, _. split; [done|]. simpl.
      split; [apply lookup_delete_eq|]. intros k Hk. by apply lookup_delete_ne.
  - unfold Cache.getCachedDeployment. unfold bind at 1, gets at 1. simpl. rewrite Hentry.
    by eexists None, _, _.
Qed.

Lemma getDeploymentInfo_hit programId s entry :
  isNativeProgram programId = false →
  Cache.cache (cacheService s.1) !! programId = Some entry →
  CacheSpec.fresh_at (Date_now env (ticks s.2)) entry →
  getDeploymentInfo env programId s
  = (Ok (Some (of_entry entry)), (s.1, set_ticks (S (ticks s.2)) s.2)).
Proof.
  intros Hnative Hentry Hfresh. rewrite getDeploymentInfo_unfold, Hnative.
  rewrite (CacheMore.getCachedDeployment_hit env programId entry
             (cacheService s.1, s.2) Hentry Hfresh).
  simpl. destruct s as [[rpc c] w]. done.
Qed.
End Outcomes.

(** X16. The checks of an attempt come before any scan. Once a connection is
    acquired and the identifier is an address, an attempt sends one account
    fetch; when the account does not exist it fails with "Account not found",
    when its owner is not one of the three loaders it fails with "Not a
    program account...", and when the fetch itself throws it fails with that
    error. In the three cases nothing else is sent (no history is requested)
    and the cache is not touched. *)
Theorem attempt_rejects_before_scanning (env : Env) (programId : string)
    (s s1 : ProgramService * World) (c : Web3.Connection) :
  let u := Web3.rpcEndpoint c in
  let w2 := log_event (GetParsedAccountInfo u programId) s1.2 in
  on_rpc (Rpc.getNextHealthyConnection env) s = (Ok c, s1) →
  PublicKey_error env programId = None →
  cacheService s1.1 = cacheService s.1 ∧
  match rpc_getParsedAccountInfo env (length (trace s1.2)) u programId with
  | Throw e => attempt env programId s = (Throw e, (s1.1, w2))
  | Ok None => attempt env programId s = (Throw AccountNotFound, (s1.1, w2))
  | Ok (Some value) =>
      isProgramAccount (Web3.owner value) = false →
      attempt env programId s = (Throw NotAProgramAccount, (s1.1, w2))
  end.
Proof.
  intros u w2 Hconn Hpid. split.
  - unfold on_rpc in Hconn.
    destruct (Rpc.getNextHealthyConnection env _) as [r [rpc' w']].
    by injection Hconn as _ <-.
  - rewrite ProgramFacts.attempt_unfold, Hconn, Hpid. simpl. fold u w2.
    destruct (rpc_getParsedAccountInfo env _ _ _) as [[value|]|e]; [|done..].
    by intros ->.
Qed.

Lemma attempt_rejects_before_scanning_witness :
  let s := (Sample.service Sample.cache_recent, Sample.world) in
  ∃ s', attempt Sample.env_wallet Sample.PROGRAM s = (Throw NotAProgramAccount, s') ∧
        trace s'.2 = [GetSlot "http://main-endpoint.test";
                      GetParsedAccountInfo "http://main-endpoint.test" Sample.PROGRAM] ∧
        cacheService s'.1 = Sample.cache_recent.
Proof.
  intros s.
  pose (s1 := (on_rpc (Rpc.getNextHealthyConnection Sample.env_wallet) s).2).
  assert (Hconn : on_rpc (Rpc.getNextHealthyConnection Sample.env_wallet) s
                  = (Ok (Web3.new_Connection "http://main-endpoint.test"), s1))
    by (vm_compute; reflexivity).
  destruct (attempt_rejects_before_scanning Sample.env_wallet Sample.PROGRAM s s1 _
              Hconn eq_refl) as [Hcache Hrun].
  simpl in Hrun. specialize (Hrun eq_refl).
  eexists. split; [exact Hrun|]. split; [vm_compute; reflexivity|]. simpl. exact Hcache.
Defined.

(** X17. A detection that fails leaves no record: when [getDeploymentInfo]
    throws, the cache holds nothing for the identifier afterwards (a stale
    record has been purged, none has been written), and the records of the
    other programs are as they were. *)
Theorem failed_detection_caches_nothing (env : Env) (programId : string)
    (s s' : ProgramService * World) (e : Thrown) :
  getDeploymentInfo env programId s = (Throw e, s') →
  Cache.cache (cacheService s'.1) !! programId = None ∧
  ∀ k, k ≠ programId →
       Cache.cache (cacheService s'.1) !! k = Cache.cache (cacheService s.1) !! k.
Proof.
  rewrite getDeploymentInfo_unfold. destruct (isNativeProgram programId); [done|].
  destruct (getCachedDeployment_cases env programId (cacheService s.1) s.2)
    as (o & c' & w' & Hget & Ho).
  rewrite Hget. destruct o as [entry|]; [done|]. intros Hrun.
  apply attempts_loop_throw_keeps_cache in Hrun. simpl in Hrun. by rewrite Hrun.
Qed.

Lemma failed_detection_caches_nothing_witness :
  ∃ s', getDeploymentInfo Sample.env_wallet Sample.PROGRAM
          (Sample.service Sample.cache_stale, Sample.world)
        = (Throw NotAProgramAccount, s') ∧
        Cache.cache (cacheService s'.1) !! Sample.PROGRAM = None.
Proof.
  destruct (getDeploymentInfo Sample.env_wallet Sample.PROGRAM
              (Sample.service Sample.cache_stale, Sample.world)) as [r s'] eqn:Hrun.
  assert (Hr : r = Throw NotAProgramAccount).
  { vm_compute in Hrun. by injection Hrun as <- _. }
  subst r. exists s'. split; [done|].
  exact (proj1 (failed_detection_caches_nothing _ _ _ _ _ Hrun)).
Defined.

(** X18. A detection that succeeds is remembered: when [getDeploymentInfo]
    returns a deployment, the cache holds a record for the identifier with
    the signature, slot and timestamp returned; and a further call made while
    that record is within its validity period returns the record (with its
    [programDataAccount], which the first answer of a fresh detection does
    not carry) by one reading of the clock, without any request. *)
Theorem successful_detection_is_cached (env : Env) (programId : string)
    (s s' : ProgramService * World) (info : DeploymentInfo) :
  getDeploymentInfo env programId s = (Ok (Some info), s') →
  ∃ entry,
    Cache.cache (cacheService s'.1) !! programId = Some entry ∧
    Entry.deploymentSignature entry = signature info ∧
    Entry.deploymentSlot entry = slot info ∧
    Entry.deploymentTimestamp entry = timestamp info ∧
    (CacheSpec.fresh_at (Date_now env (ticks s'.2)) entry →
     getDeploymentInfo env programId s'
     = (Ok (Some (of_entry entry)), (s'.1, set_ticks (S (ticks s'.2)) s'.2))).
Proof.
  intros Hrun.
  assert (Hnative : isNativeProgram programId = false).
  { rewrite getDeploymentInfo_unfold in Hrun.
    by destruct (isNativeProgram programId). }
  assert (Hentry : ∃ entry,
            Cache.cache (cacheService s'.1) !! programId = Some entry ∧
            Entry.deploymentSignature entry = signature info ∧
            Entry.deploymentSlot entry = slot info ∧
            Entry.deploymentTimestamp entry = timestamp info).
  { rewrite getDeploymentInfo_unfold, Hnative in Hrun.
    destruct (getCachedDeployment_cases env programId (cacheService s.1) s.2)
      as (o & c' & w' & Hget & Ho).
    rewrite Hget in Hrun. destruct o as [entry|].
    - destruct Ho as (-> & -> & Hentry & _). injection Hrun as <- <-.
      exists entry. split; [exact Hentry|]. split_and!; reflexivity.
    - apply attempts_loop_ok_caches in Hrun
        as (info' & entry & [= <-] & Hentry). by exists entry. }
  destruct Hentry as (entry & Hentry & Hfields). exists entry.
  split_and!; try tauto. intros Hfresh. by apply getDeploymentInfo_hit.
Qed.

Lemma successful_detection_is_cached_witness :
  let s := (Sample.service Sample.cache_empty, Sample.world) in
  ∃ s' s'',
    getDeploymentInfo Sample.env_deployed Sample.PROGRAM s
    = (Ok (Some {| signature := "sig5"; slot := 5; timestamp := 1600000005;
                   programDataAccount := None |}), s') ∧
    getDeploymentInfo Sample.env_deployed Sample.PROGRAM s'
    = (Ok (Some {| signature := "sig5"; slot := 5; timestamp := 1600000005;
                   programDataAccount := Some Sample.PROGRAM_DATA |}), s'') ∧
    network_requests s''.2 = network_requests s'.2.
Proof.
  intros s.
  destruct (getDeploymentInfo Sample.env_deployed Sample.PROGRAM s) as [r s'] eqn:Hrun.
  assert (Hr : r = Ok (Some {| signature := "sig5"; slot := 5; timestamp := 1600000005;
                               programDataAccount := None |})).
  { vm_compute in Hrun. by injection Hrun as <- _. }
  subst r.
  destruct (successful_detection_is_cached _ _ _ _ _ Hrun)
    as (entry & Hentry & _ & _ & _ & Hagain).
  assert (Hs' : s' = (getDeploymentInfo Sample.env_deployed Sample.PROGRAM s).2)
    by (by rewrite Hrun).
  assert (Heq : entry = CacheSpec.record_of Sample.PROGRAM "sig5" 5 1600000005 true
                          (Some Sample.PROGRAM_DATA) (Sample.NOW + 1)).
  { rewrite Hs' in Hentry. vm_compute in Hentry. by injection Hentry as <-. }
  exists s'. eexists. split; [done|]. rewrite Hagain.
  - rewrite Heq. split; reflexivity.
  - rewrite Heq, Hs'. vm_compute. discriminate.
Defined.

Lemma cache_constructor_ok (env : Env) (w : World) :
  ∃ c w', Cache.constructor env w = (Ok c, w') ∧
          network_requests w' = network_requests w.
Proof.
  destruct w as [t tr [dir file]].
  unfold Cache.constructor, Cache.loadCache, network_requests. CacheFacts.run.
  destruct dir; simpl.
  - destruct file as [data|]; simpl; [|by eexists _, _].
    destruct (fs_fault env (length tr)); simpl.
    + eexists _, _. split; [done|]. simpl. by rewrite CacheFacts.filter_network_snoc.
    + destruct (JSON_parse_entries env data); simpl;
        (eexists _, _; split; [done|]); simpl; by rewrite CacheFacts.filter_network_snoc.
  - destruct (fs_fault env (length tr)); simpl.
    + eexists _, _. split; [done|]. simpl. by rewrite CacheFacts.filter_network_snoc.
    + destruct file as [data|]; simpl.
      * destruct (fs_fault env (length (tr ++ [MkdirSync]))); simpl.
        -- eexists _, _. split; [done|]. simpl. by rewrite !CacheFacts.filter_network_snoc.
        -- destruct (JSON_parse_entries env data); simpl;
             (eexists _, _; split; [done|]); simpl;
             by rewrite !CacheFacts.filter_network_snoc.
      * eexists _, _. split; [done|]. simpl. by rewrite CacheFacts.filter_network_snoc.
Qed.

Lemma saveCache_events (env : Env) s :
  ∃ w' evs, Cache.saveCache env s = (Ok tt, (s.1, w')) ∧
            trace w' = trace s.2 ++ evs ∧
            Forall (λ ev, ev = MkdirSync ∨ ∃ data, ev = WriteFileSync data) evs.
Proof.
  assert (Hwrite : ∀ data, (λ ev, ev = MkdirSync ∨ ∃ data, ev = WriteFileSync data)
                             (WriteFileSync data)) by (intros data; right; by exists data).
  destruct s as [c [t tr [dir file]]]. unfold Cache.saveCache. CacheFacts.run.
  destruct dir; simpl.
  - destruct (fs_fault env (length tr)); simpl;
      eexists _, [_]; (split_and!; [done|done|]);
      (apply Forall_cons_2; [apply Hwrite|apply Forall_nil_2]).
  - destruct (fs_fault env (length tr)); simpl.
    + eexists _, [_]. split_and!; [done|done|].
      apply Forall_cons_2; [by left|apply Forall_nil_2].
    + destruct (fs_fault env (length (tr ++ [MkdirSync]))); simpl;
        eexists _, [_; _]; (split_and!; [done|by rewrite <- app_assoc|]);
        (apply Forall_cons_2; [by left|]);
        (apply Forall_cons_2; [apply Hwrite|apply Forall_nil_2]).
Qed.

(** X19. The account whose history is scanned. In an attempt that passes
    the checks (a connection, an account owned by a loader), the history is
    requested once, right after the account fetch and on the same endpoint:
    for the program-data account named by the account's parsed data when
    there is one (and it is not the empty string), otherwise for the program
    account itself. After it the attempt only fetches transactions on that
    endpoint and saves the cache. *)
Theorem history_is_that_of_the_program_data (env : Env) (programId : string)
    (s s1 s' : ProgramService * World) (c : Web3.Connection)
    (value : Web3.AccountInfo) (r : Result DeploymentInfo) :
  let u := Web3.rpcEndpoint c in
  on_rpc (Rpc.getNextHealthyConnection env) s = (Ok c, s1) →
  PublicKey_error env programId = None →
  rpc_getParsedAccountInfo env (length (trace s1.2)) u programId = Ok (Some value) →
  isProgramAccount (Web3.owner value) = true →
  PublicKey_error env (target_of programId value) = None →
  attempt env programId s = (r, s') →
  target_of programId value
    = match Web3.parsed_info_programData value with
      | Some programData => if String.eqb programData "" then programId else programData
      | None => programId
      end ∧
  ∃ rest, trace s'.2 = trace s1.2 ++ GetParsedAccountInfo u programId
                         :: GetSignaturesForAddress u (target_of programId value) :: rest ∧
          Forall (follows_history u) rest.
Proof.
  intros u Hconn Hpid Haccount Howner Htarget Hrun. split.
  { unfold target_of, truthy_opt, truthy.
    destruct (Web3.parsed_info_programData value) as [p|]; [|done]. simpl.
    by destruct (String.eqb p ""). }
  rewrite ProgramFacts.attempt_unfold, Hconn, Hpid in Hrun. simpl in Hrun. fold u in Hrun.
  rewrite Haccount, Howner, Htarget in Hrun.
  destruct (findDeploymentTransaction_trace env c (target_of programId value) programId
              (log_event (GetParsedAccountInfo u programId) s1.2))
    as (o & w3 & rest & Hfind & Htrace & Hrest & _).
  rewrite Hfind in Hrun. fold u in Htrace, Hrest.
  assert (Hrest' : Forall (follows_history u) rest).
  { eapply Forall_impl; [exact Hrest|]. by intros ev [sig ->]. }
  unfold log_event in Htrace. simpl in Htrace. rewrite <- app_assoc in Htrace. simpl in Htrace.
  destruct o as [info|].
  - unfold on_cache in Hrun. simpl in Hrun.
    destruct (CacheMore.cacheDeployment_eq env programId (signature info) (slot info)
                (timestamp info) (truthy_opt (Web3.parsed_info_programData value))
                (Web3.parsed_info_programData value) (cacheService s1.1, w3))
      as (w4 & Hput & _ & _ & Hsave).
    rewrite Hput in Hrun. injection Hrun as _ <-. simpl.
    match type of Hsave with
    | Cache.saveCache _ ?st = _ =>
        destruct (saveCache_events env st) as (w4' & evs & Hsave' & Hevs & Hall)
    end.
    rewrite Hsave in Hsave'. injection Hsave' as <-.
    exists (rest ++ evs). split.
    + rewrite Hevs. simpl. rewrite Htrace, <- app_assoc. done.
    + apply Forall_app. split; [done|].
      eapply Forall_impl; [exact Hall|]. by intros ev [->|[data ->]].
  - injection Hrun as _ <-. simpl. by exists rest.
Qed.

Lemma history_is_that_of_the_program_data_witness :
  let s := (Sample.service Sample.cache_empty, Sample.world) in
  target_of Sample.PROGRAM Sample.upgradeable = Sample.PROGRAM_DATA ∧
  ∃ rest, trace (attempt Sample.env_deployed Sample.PROGRAM s).2.2
          = [GetSlot "http://main-endpoint.test";
             GetParsedAccountInfo "http://main-endpoint.test" Sample.PROGRAM;
             GetSignaturesForAddress "http://main-endpoint.test" Sample.PROGRAM_DATA]
            ++ rest.
Proof.
  intros s. split; [reflexivity|].
  pose (s1 := (on_rpc (Rpc.getNextHealthyConnection Sample.env_deployed) s).2).
  assert (Hconn : on_rpc (Rpc.getNextHealthyConnection Sample.env_deployed) s
                  = (Ok (Web3.new_Connection "http://main-endpoint.test"), s1))
    by (vm_compute; reflexivity).
  destruct (attempt Sample.env_deployed Sample.PROGRAM s) as [r s'] eqn:Hrun.
  destruct (history_is_that_of_the_program_data Sample.env_deployed Sample.PROGRAM
              s s1 s' _ Sample.upgradeable r Hconn eq_refl eq_refl) as [_ (rest & Htrace & _)].
  - vm_compute. reflexivity.
  - reflexivity.
  - exact Hrun.
  - exists rest. simpl. rewrite Htrace. reflexivity.
Defined.

(** X20. Constructing the program service fails exactly when the endpoint
    manager cannot be configured (no primary URL), and then before the cache
    is loaded: nothing on the disk is read or made. Otherwise it succeeds,
    whatever the state of the cache file. *)
Theorem service_needs_only_the_primary_url (env : Env) (penv : Rpc.ProcessEnv) (w : World) :
  (truthy_opt (Rpc.MAIN_RPC_URL penv) = false →
   constructor env penv w
   = (Throw (Error "MAIN_RPC_URL environment variable is not set"), w)) ∧
  (truthy_opt (Rpc.MAIN_RPC_URL penv) = true →
   ∃ rpc c w', constructor env penv w
               = (Ok {| rpcService := rpc; cacheService := c |}, w') ∧
               Rpc.constructor penv = Ok rpc ∧
               Cache.constructor env w = (Ok c, w') ∧
               network_requests w' = network_requests w).
Proof.
  unfold constructor.
  destruct (RpcMore.constructor_needs_primary penv) as [Hfail Hok].
  split; intros Hmain.
  - by rewrite (Hfail Hmain).
  - destruct (Hok Hmain) as [rpc ->].
    destruct (cache_constructor_ok env w) as (c & w' & -> & Hnet).
    by exists rpc, c, w'.
Qed.

Lemma service_needs_only_the_primary_url_witness :
  truthy_opt (Rpc.MAIN_RPC_URL Sample.penv2) = true ∧
  constructor Sample.env_up Sample.penv2 Sample.world_corrupted
  = (Ok (Sample.service Sample.cache_empty),
     set_trace [ReadFileSync] Sample.world_corrupted).
Proof.
  split; [reflexivity|].
  destruct (service_needs_only_the_primary_url Sample.env_up Sample.penv2
              Sample.world_corrupted) as [_ Hok].
  destruct (Hok eq_refl) as (rpc & c & w' & Hnew & _).
  pose proof Hnew as Hrun. rewrite Hnew. vm_compute in Hrun.
  by injection Hrun as <- <-.
Defined.

End ProgramMore.
